(** * PDF outline extractor: a shallow embedding of [app/outline_extractor.py]

    The development follows the class [PDFOutlineExtractor] method by
    method.  Conventions of the embedding:

    - A Python [str] is a Rocq [string]; each character is read as the
      Unicode code point of the same number (U+0000 .. U+00FF).  The
      character classes below are Python's on that range.
    - A finite Python float is the rational number it denotes, a [Q];
      comparisons of floats are comparisons of these rationals.  The
      product of two floats is rounded as IEEE 754 binary64 does, to the
      nearest double, ties to even, with overflow to an infinity
      (module [Float64]).
    - A page number (a Python int) is a [Z].
    - A raised exception is a value of [exn] carried by [result].
    - The set [seen_texts] is a [gset string].
    - [extract_text_with_formatting] reads the document through PyMuPDF:
      [fitz.open], [len(doc)], [doc[page_num]], [page.get_text("dict")]
      and [doc.close()] are calls into the library, each of which may
      raise (record [PyMuPDF]).  [np.mean] is a call into numpy, whose
      result is not computed here.  The pipeline after it is stated over
      a line source that returns the list of formatted lines or
      raises. *)

From Stdlib Require Import ZArith QArith Qround Qabs Qpower Lqa Lia Bool.
From Stdlib Require Import List Ascii String.
From Stdlib Require Import Sorted Permutation.
From stdpp Require Import base decidable list gmap sets strings.

Import ListNotations.
Local Open Scope string_scope.
Local Open Scope list_scope.

(** ** Characters *)

Module Char.

Definition code (c : ascii) : N := N_of_ascii c.

Definition between (lo hi : N) (c : ascii) : bool :=
  ((lo <=? code c) && (code c <=? hi))%N.

Definition code_is (n : N) (c : ascii) : bool := (code c =? n)%N.

(** [str.isspace] on one character; also the class [\s] and the
    separators of [str.split()] and [str.strip()]. *)
Definition isspace (c : ascii) : bool :=
  between 9 13 c || between 28 32 c || code_is 133 c || code_is 160 c.

(** The class [\d]: decimal digits. *)
Definition isdecimal (c : ascii) : bool := between 48 57 c.

Definition isupper (c : ascii) : bool :=
  between 65 90 c || between 192 214 c || between 216 222 c.

Definition islower (c : ascii) : bool :=
  between 97 122 c || code_is 170 c || code_is 181 c || code_is 186 c
  || between 223 246 c || between 248 255 c.

(** Superscripts and vulgar fractions: numeric but neither decimal nor
    alphabetic. *)
Definition isnumeric_other (c : ascii) : bool :=
  code_is 178 c || code_is 179 c || code_is 185 c || between 188 190 c.

Definition isalnum (c : ascii) : bool :=
  isupper c || islower c || isdecimal c || isnumeric_other c.

(** The class [\w]. *)
Definition isword (c : ascii) : bool := isalnum c || code_is 95 c.

(** [str.lower] on one character. *)
Definition lower (c : ascii) : ascii :=
  if isupper c then ascii_of_N (code c + 32) else c.

Definition eqb (a b : ascii) : bool := (code a =? code b)%N.

(** A literal character of a pattern compiled with [re.IGNORECASE]. *)
Definition eqb_nocase (a b : ascii) : bool := eqb (lower a) (lower b).

Definition newline : ascii := ascii_of_N 10.
Definition space : ascii := ascii_of_N 32.
Definition dquote : ascii := ascii_of_N 34.
Definition squote : ascii := ascii_of_N 39.

End Char.

(** ** Python string methods *)

Module Str.

Definition len (s : string) : nat := String.length s.

Fixpoint map (f : ascii -> ascii) (s : string) : string :=
  match s with
  | EmptyString => EmptyString
  | String c s' => String (f c) (map f s')
  end.

(** [s.lower()] *)
Definition lower (s : string) : string := map Char.lower s.

Definition is_empty (s : string) : bool :=
  match s with EmptyString => true | _ => false end.

(** [s.lstrip(chars)], [s.rstrip(chars)], [s.strip(chars)]: every leading
    and trailing character of the class is removed. *)
Fixpoint lstrip_by (p : ascii -> bool) (s : string) : string :=
  match s with
  | EmptyString => EmptyString
  | String c s' => if p c then lstrip_by p s' else s
  end.

Fixpoint rstrip_by (p : ascii -> bool) (s : string) : string :=
  match s with
  | EmptyString => EmptyString
  | String c s' =>
      let r := rstrip_by p s' in
      if is_empty r && p c then EmptyString else String c r
  end.

Definition strip_by (p : ascii -> bool) (s : string) : string :=
  rstrip_by p (lstrip_by p s).

(** [s.strip()] *)
Definition strip (s : string) : string := strip_by Char.isspace s.

(** [s.split()]: the maximal runs of non-whitespace characters.  [cur]
    is the run read so far. *)
Fixpoint split_from (cur : string) (s : string) : list string :=
  match s with
  | EmptyString => if is_empty cur then [] else [cur]
  | String c s' =>
      if Char.isspace c
      then (if is_empty cur then split_from EmptyString s'
            else cur :: split_from EmptyString s')
      else split_from (cur ++ String c EmptyString) s'
  end.

Definition split (s : string) : list string := split_from EmptyString s.

(** [sep.join(parts)] *)
Fixpoint join (sep : string) (parts : list string) : string :=
  match parts with
  | [] => EmptyString
  | [x] => x
  | x :: rest => x ++ sep ++ join sep rest
  end.

(** [' '.join(s.split())] *)
Definition collapse (s : string) : string := join " " (split s).

(** [s.startswith(p)] *)
Fixpoint startswith (p s : string) : bool :=
  match p, s with
  | EmptyString, _ => true
  | String a p', String b s' => Char.eqb a b && startswith p' s'
  | String _ _, EmptyString => false
  end.

(** [p in s] *)
Fixpoint contains (p s : string) : bool :=
  startswith p s ||
  match s with
  | EmptyString => false
  | String _ s' => contains p s'
  end.

(** [s.istitle()]: upper-case characters follow only uncased ones,
    lower-case characters follow only cased ones, and there is at least
    one cased character. *)
Fixpoint istitle_from (previous_is_cased cased : bool) (s : string) : bool :=
  match s with
  | EmptyString => cased
  | String c s' =>
      if Char.isupper c then
        (if previous_is_cased then false else istitle_from true true s')
      else if Char.islower c then
        (if previous_is_cased then istitle_from true true s' else false)
      else istitle_from false cased s'
  end.

Definition istitle (s : string) : bool := istitle_from false false s.

(** [s.isupper()]: no lower-case character and at least one upper-case
    one. *)
Fixpoint isupper_from (cased : bool) (s : string) : bool :=
  match s with
  | EmptyString => cased
  | String c s' =>
      if Char.islower c then false
      else isupper_from (cased || Char.isupper c) s'
  end.

Definition isupper (s : string) : bool := isupper_from false s.

(** [a < b] and [a <= b] on strings: lexicographic on code points. *)
Definition ltb (a b : string) : bool :=
  match String.compare a b with Lt => true | _ => false end.

Definition leb (a b : string) : bool :=
  match String.compare a b with Gt => false | _ => true end.

(** [s.endswith(p)] *)
Fixpoint endswith (p s : string) : bool :=
  String.eqb s p ||
  match s with
  | EmptyString => false
  | String _ s' => endswith p s'
  end.

(** [s.replace(old, new)]: the occurrences of [old] are replaced from
    left to right, none overlapping another.  [skip] counts the
    characters of an occurrence still to pass over; for an empty [old],
    [new] goes before every character and at the end. *)
Fixpoint replace_from (skip : nat) (old new s : string) : string :=
  match s with
  | EmptyString => EmptyString
  | String c s' =>
      match skip with
      | S k => replace_from k old new s'
      | O =>
          if startswith old s
          then new ++ replace_from (len old - 1) old new s'
          else String c (replace_from 0 old new s')
      end
  end.

Fixpoint interleave (new s : string) : string :=
  match s with
  | EmptyString => new
  | String c s' => new ++ String c (interleave new s')
  end.

Definition replace (old new s : string) : string :=
  if is_empty old then interleave new s else replace_from 0 old new s.

End Str.

(** ** Regular expressions

    The patterns of the extractor use character classes, sequence,
    alternation and repetition only, so whether [re.match] finds a match
    is a question of language membership; it is decided with
    derivatives. *)

Module Re.

Inductive regex : Type :=
| Void
| Eps
| Cls (p : ascii -> bool)
| Seq (r1 r2 : regex)
| Alt (r1 r2 : regex)
| Star (r : regex).

Definition Plus (r : regex) : regex := Seq r (Star r).
Definition Opt (r : regex) : regex := Alt Eps r.

(** [\d], [\s], [\w], [.] and a literal character. *)
Definition digit : regex := Cls Char.isdecimal.
Definition space : regex := Cls Char.isspace.
Definition word : regex := Cls Char.isword.
Definition dot : regex := Cls (fun c => negb (Char.eqb c Char.newline)).
Definition lit (a : ascii) : regex := Cls (Char.eqb a).

(** A literal string; with [nocase] as under [re.IGNORECASE]. *)
Fixpoint str (nocase : bool) (s : string) : regex :=
  match s with
  | EmptyString => Eps
  | String a s' =>
      Seq (Cls (if nocase then Char.eqb_nocase a else Char.eqb a))
          (str nocase s')
  end.

Fixpoint seq (rs : list regex) : regex :=
  match rs with
  | [] => Eps
  | r :: rs' => Seq r (seq rs')
  end.

Fixpoint nullable (r : regex) : bool :=
  match r with
  | Void => false
  | Eps => true
  | Cls _ => false
  | Seq r1 r2 => nullable r1 && nullable r2
  | Alt r1 r2 => nullable r1 || nullable r2
  | Star _ => true
  end.

Fixpoint deriv (c : ascii) (r : regex) : regex :=
  match r with
  | Void => Void
  | Eps => Void
  | Cls p => if p c then Eps else Void
  | Seq r1 r2 =>
      if nullable r1
      then Alt (Seq (deriv c r1) r2) (deriv c r2)
      else Seq (deriv c r1) r2
  | Alt r1 r2 => Alt (deriv c r1) (deriv c r2)
  | Star r1 => Seq (deriv c r1) (Star r1)
  end.

(** The whole of [s] is in the language of [r]. *)
Fixpoint fullmatch (r : regex) (s : string) : bool :=
  match s with
  | EmptyString => nullable r
  | String c s' => fullmatch (deriv c r) s'
  end.

(** [re.match('^' + r, s)] is not [None]: some prefix of [s] is in the
    language of [r]. *)
Fixpoint match_ (r : regex) (s : string) : bool :=
  nullable r ||
  match s with
  | EmptyString => false
  | String c s' => match_ (deriv c r) s'
  end.

(** [re.match('^' + r + '$', s)] is not [None].  Without [re.MULTILINE],
    [$] holds at the end of the string and just before a newline that is
    its last character. *)
Definition match_end (r : regex) (s : string) : bool :=
  fullmatch (Seq r (Opt (lit Char.newline))) s.

(** [s] without its last character, when that is a newline. *)
Fixpoint chop_newline (s : string) : option string :=
  match s with
  | EmptyString => None
  | String c EmptyString =>
      if Char.eqb c Char.newline then Some EmptyString else None
  | String c s' =>
      match chop_newline s' with
      | Some r => Some (String c r)
      | None => None
      end
  end.

(** [re.sub('[' + p + ']+$', '', s)]: the only match is the maximal run
    of class characters that ends where [$] holds. *)
Definition sub_run_at_end (p : ascii -> bool) (s : string) : string :=
  match chop_newline s with
  | Some s0 => Str.rstrip_by p s0 ++ String Char.newline EmptyString
  | None => Str.rstrip_by p s
  end.

(** [re.sub('[^' + keep + ']', ' ', s)] *)
Definition sub_outside (keep : ascii -> bool) (s : string) : string :=
  Str.map (fun c => if keep c then c else Char.space) s.

End Re.

(** ** Binary64 arithmetic

    The result of an operation on doubles: a finite double, given by the
    rational it denotes, or an infinity.  A product of finite doubles is
    never a NaN. *)

Module Float64.

Inductive xfloat : Type :=
| Fin (q : Q)
| PInf
| NInf.

Definition pow2 (k : Z) : Q := (2 ^ k)%Q.

(** The exponent of a positive rational: [pow2 e <= q < pow2 (e + 1)]. *)
Definition ilog2 (q : Q) : Z :=
  let k := (Z.log2 (Qnum q) - Z.log2 (Zpos (Qden q)))%Z in
  if Qle_bool (pow2 k) q then k else (k - 1)%Z.

(** The integer nearest to [m]; of two nearest, the even one. *)
Definition round_half_even (m : Q) : Z :=
  let f := Qfloor m in
  match (m - inject_Z f ?= 1 # 2)%Q with
  | Lt => f
  | Gt => (f + 1)%Z
  | Eq => if Z.even f then f else (f + 1)%Z
  end.

(** The double nearest to the real number [q]: 53 bits of precision down
    to the exponent -1022, multiples of [pow2 (-1074)] below, an infinity
    from [pow2 1024] on. *)
Definition round (q : Q) : xfloat :=
  match (q ?= 0)%Q with
  | Eq => Fin 0
  | sign =>
      let a := Qabs q in
      let shift := Z.max (ilog2 a - 52) (-1074) in
      let n := round_half_even (a / pow2 shift) in
      let v := Qred (inject_Z n * pow2 shift) in
      if Qle_bool (pow2 1024) v
      then match sign with Gt => PInf | _ => NInf end
      else Fin (match sign with Gt => v | _ => - v end)
  end.

(** [a * b] on doubles. *)
Definition mul (a b : Q) : xfloat := round (a * b).

(** The double that a decimal literal of the source denotes; the
    literals of the extractor are far from the infinities. *)
Definition literal (q : Q) : Q :=
  match round q with
  | Fin v => v
  | _ => q
  end.

(** [a < b] and [a <= b] *)
Definition ltb (a b : xfloat) : bool :=
  match a, b with
  | Fin x, Fin y => negb (Qle_bool y x)
  | NInf, NInf => false
  | NInf, _ => true
  | _, NInf => false
  | PInf, _ => false
  | Fin _, PInf => true
  end.

Definition leb (a b : xfloat) : bool := negb (ltb b a).

End Float64.

(** ** Data model *)

(** The exceptions that [except Exception] catches. *)
Inductive exn : Type :=
| IndexError                     (* [most_common(1)[0]] on an empty counter *)
| SourceError (message : string) (* any other exception, with its text *).

Inductive result (A : Type) : Type :=
| Ok (a : A)
| Raise (e : exn).

Arguments Ok {A} a.
Arguments Raise {A} e.

(** One entry of [formatted_text]. *)
Record FormattedLine : Type := mkLine {
  text : string;
  page : Z;
  font : string;
  size : Q;
  is_bold : bool;
  bbox : Q * Q * Q * Q;     (* x0, y0, x1, y1 *)
  line_count : nat
}.

(** [item["bbox"][1]] *)
Definition bbox_y0 (item : FormattedLine) : Q :=
  let '(_, y0, _, _) := bbox item in y0.

Record SizeThresholds : Type := mkThresholds {
  h1 : Float64.xfloat;
  h2 : Float64.xfloat;
  h3 : Float64.xfloat
}.

Record StructureInfo : Type := mkInfo {
  body_text_size : Q;
  size_thresholds : SizeThresholds;
  all_sizes : list Q
}.

Inductive Level : Type := H1 | H2 | H3.

Record Heading : Type := mkHeading {
  level : Level;
  h_text : string;
  h_page : Z
}.

Record Outline : Type := mkOutline {
  title : string;
  outline : list Heading
}.

(** ** Effects

    A method that raises, prints or calls a component of the pipeline is
    a computation over the log of what has happened so far.  The log
    records the calls of the four components of the pipeline (the line
    source, the title identifier, the heading classifier and the
    structure analyzer) and the lines printed. *)

Inductive event : Type :=
| Invoked (method : string)
| Printed (line : string).

Definition M (A : Type) : Type := list event -> result A * list event.

Definition ret {A : Type} (a : A) : M A := fun log => (Ok a, log).

Definition raise {A : Type} (e : exn) : M A := fun log => (Raise e, log).

Definition lift {A : Type} (r : result A) : M A := fun log => (r, log).

Definition emit (ev : event) : M unit := fun log => (Ok tt, log ++ [ev]).

Definition bind {A B : Type} (m : M A) (k : A -> M B) : M B :=
  fun log =>
    match m log with
    | (Ok a, log') => k a log'
    | (Raise e, log') => (Raise e, log')
    end.

(** [try: body / except Exception as e: handler e] *)
Definition try_except {A : Type} (body : M A) (handler : exn -> M A) : M A :=
  fun log =>
    match body log with
    | (Ok a, log') => (Ok a, log')
    | (Raise e, log') => handler e log'
    end.

Notation "x <- m ;; k" := (bind m (fun x => k))
  (at level 100, m at next level, right associativity).
Notation "m ;;; k" := (bind m (fun _ => k))
  (at level 100, right associativity).

(** [str(e)] *)
Definition exn_str (e : exn) : string :=
  match e with
  | IndexError => "list index out of range"
  | SourceError message => message
  end.

(** ** Sorting and selection as the Python built-ins do them *)

Section StableSort.
Context {A K : Type} (key : A -> K) (lt : K -> K -> bool).

(** [x] goes before the first element whose key is not smaller: it
    stays in front of the elements with an equal key, which followed it
    in the input. *)
Fixpoint insert_by (x : A) (l : list A) : list A :=
  match l with
  | [] => [x]
  | y :: l' => if lt (key y) (key x) then y :: insert_by x l' else x :: l
  end.

(** [l.sort(key=key)]: stable. *)
Fixpoint sort_by (l : list A) : list A :=
  match l with
  | [] => []
  | x :: l' => insert_by x (sort_by l')
  end.

(** [max(x :: l, key=key)]: the first of the largest elements. *)
Fixpoint max_by (x : A) (l : list A) : A :=
  match l with
  | [] => x
  | y :: l' => if lt (key x) (key y) then max_by y l' else max_by x l'
  end.
End StableSort.

(** Comparisons of numbers and of key tuples. *)
Definition Qltb (a b : Q) : bool := negb (Qle_bool b a).

(** [(a1, a2) < (b1, b2)] on tuples of numbers: the first components
    that differ decide. *)
Definition QQ_ltb (a b : Q * Q) : bool :=
  Qltb (fst a) (fst b) || (Qeq_bool (fst a) (fst b) && Qltb (snd a) (snd b)).

(** [(p1, t1) < (p2, t2)] on (page, text) tuples. *)
Definition page_text_ltb (a b : Z * string) : bool :=
  (fst a <? fst b)%Z || ((fst a =? fst b)%Z && Str.ltb (snd a) (snd b)).

(** ** [collections.Counter] over sizes

    The counter keeps its keys in insertion order; numbers that compare
    equal are one key. *)
Fixpoint counter_add (x : Q) (c : list (Q * nat)) : list (Q * nat) :=
  match c with
  | [] => [(x, 1%nat)]
  | (k, n) :: c' =>
      if Qeq_bool k x then (k, S n) :: c' else (k, n) :: counter_add x c'
  end.

Definition Counter (l : list Q) : list (Q * nat) :=
  fold_left (fun c x => counter_add x c) l [].

(** [c.most_common(1)]: empty for an empty counter, otherwise the first
    entry with the largest count. *)
Definition most_common_1 (c : list (Q * nat)) : list (Q * nat) :=
  match c with
  | [] => []
  | e :: c' => [max_by snd Nat.ltb e c']
  end.

(** [set(l)] as the list of its distinct members. *)
Fixpoint distinct (l : list Q) : list Q :=
  match l with
  | [] => []
  | x :: l' => x :: List.filter (fun y => negb (Qeq_bool x y)) (distinct l')
  end.

(** ** The extractor *)

Module PDFOutlineExtractor.

(** [self.heading_patterns], compiled with [re.IGNORECASE]. *)
Definition heading_patterns : list Re.regex :=
  [ (* ^\d+\.\s+.+ *)
    Re.seq [Re.Plus Re.digit; Re.lit "."; Re.Plus Re.space; Re.Plus Re.dot];
    (* ^\d+\.\d+\s+.+ *)
    Re.seq [Re.Plus Re.digit; Re.lit "."; Re.Plus Re.digit;
            Re.Plus Re.space; Re.Plus Re.dot];
    (* ^\d+\.\d+\.\d+\s+.+ *)
    Re.seq [Re.Plus Re.digit; Re.lit "."; Re.Plus Re.digit; Re.lit ".";
            Re.Plus Re.digit; Re.Plus Re.space; Re.Plus Re.dot];
    (* ^Chapter\s+\d+.+ *)
    Re.seq [Re.str true "Chapter"; Re.Plus Re.space; Re.Plus Re.digit;
            Re.Plus Re.dot];
    (* ^Section\s+\d+.+ *)
    Re.seq [Re.str true "Section"; Re.Plus Re.space; Re.Plus Re.digit;
            Re.Plus Re.dot];
    (* ^Appendix\s+[A-Z].+ *)
    Re.seq [Re.str true "Appendix"; Re.Plus Re.space;
            Re.Cls (fun c => Char.between 65 90 c || Char.between 97 122 c);
            Re.Plus Re.dot] ].

Definition heading_keywords : list string :=
  [ "introduction"; "overview"; "background"; "methodology"; "results";
    "conclusion"; "references"; "appendix"; "summary"; "abstract";
    "table of contents"; "revision history"; "glossary"; "index" ].

(** *** identify_title *)

(** [^\d+\.?\s*$] *)
Definition just_number : Re.regex :=
  Re.seq [Re.Plus Re.digit; Re.Opt (Re.lit "."); Re.Star Re.space].

Definition is_title_candidate (item : FormattedLine) : bool :=
  let text := Str.strip (text item) in
  (20 <=? Str.len text)%nat && (Str.len text <=? 200)%nat
  && Qle_bool 14 (size item)
  && negb (Re.match_end just_number text)
  && negb (Str.startswith "page" (Str.lower text))
  && (2 <=? length (Str.split text))%nat.

(** The characters that [[^\w\s\-\:\.]] leaves alone. *)
Definition title_char (c : ascii) : bool :=
  Char.isword c || Char.isspace c
  || Char.eqb c "-" || Char.eqb c ":" || Char.eqb c ".".

Definition is_meaningful (item : FormattedLine) : bool :=
  let text := Str.strip (text item) in
  (5 <? Str.len text)%nat && (2 <=? length (Str.split text))%nat.

Definition identify_title (formatted_text : list FormattedLine) : string :=
  let first_page_text :=
    List.filter (fun item => (page item =? 1)%Z) formatted_text in
  match first_page_text with
  | [] => "Untitled Document"
  | _ :: _ =>
      let first_page_text :=
        sort_by (fun x => (- size x, bbox_y0 x)%Q) QQ_ltb first_page_text in
      let candidates :=
        List.map (fun item => (Str.strip (text item), size item))
          (List.filter is_title_candidate (take 10 first_page_text)) in
      match candidates with
      | c :: cs =>
          let title := fst (max_by snd Qltb c cs) in
          let title := Re.sub_outside title_char title in
          Str.collapse title
      | [] =>
          let meaningful_texts :=
            List.map (fun item => Str.strip (text item))
              (List.filter is_meaningful (take 5 first_page_text)) in
          match meaningful_texts with
          | _ :: _ =>
              let combined_title := Str.join " " (take 2 meaningful_texts) in
              if (Str.len combined_title <=? 200)%nat
              then Str.collapse combined_title
              else "Untitled Document"
          | [] => "Untitled Document"
          end
      end
  end.

(** *** analyze_document_structure *)

Definition analyze_document_structure (formatted_text : list FormattedLine)
  : result StructureInfo :=
  let sizes := List.map size formatted_text in
  let size_counter := Counter sizes in
  match most_common_1 size_counter with
  | [] => Raise IndexError
  | (body_text_size, _) :: _ =>
      let all_sizes := sort_by (fun x => x) (fun a b => Qltb b a) (distinct sizes) in
      Ok {| body_text_size := body_text_size;
            size_thresholds :=
              {| h1 := Float64.mul body_text_size (Float64.literal 1.5);
                 h2 := Float64.mul body_text_size (Float64.literal 1.3);
                 h3 := Float64.mul body_text_size (Float64.literal 1.15) |};
            all_sizes := all_sizes |}
  end.

(** *** is_likely_heading *)

Definition skip_patterns : list (string -> bool) :=
  [ (* ^\d+$ *)
    Re.match_end (Re.Plus Re.digit);
    (* ^page\s+\d+ *)
    Re.match_ (Re.seq [Re.str true "page"; Re.Plus Re.space; Re.Plus Re.digit]);
    (* ^\w{1,3}$ *)
    Re.match_end (Re.Seq Re.word (Re.Opt (Re.Seq Re.word (Re.Opt Re.word))));
    (* ^[^\w\s]+$ *)
    Re.match_end
      (Re.Plus (Re.Cls (fun c => negb (Char.isword c || Char.isspace c)))) ].

(** The early [return False] tests. *)
Definition rejected (text : string) : bool :=
  (Str.len text <? 3)%nat || (300 <? Str.len text)%nat
  || (20 <? length (Str.split text))%nat
  || existsb (fun matches => matches text) skip_patterns.

(** The value of [indicators] at the final [return]. *)
Definition indicators (item : FormattedLine) (structure_info : StructureInfo)
  : nat :=
  let text := Str.strip (text item) in
  (* 1. Font size indicator *)
  (if Float64.ltb (h3 (size_thresholds structure_info))
        (Float64.Fin (size item)) then 2
   else if Qltb (body_text_size structure_info) (size item) then 1
   else 0)
  (* 2. Bold formatting *)
  + (if is_bold item then 2 else 0)
  (* 3. Numbered section patterns *)
  + (if existsb (fun pattern => Re.match_ pattern text) heading_patterns
     then 3 else 0)
  (* 4. Contains heading keywords *)
  + (if existsb (fun keyword => Str.contains keyword (Str.lower text))
          heading_keywords
     then 1 else 0)
  (* 5. Title case or all caps *)
  + (if Str.istitle text && (length (Str.split text) <=? 8)%nat then 1
     else if Str.isupper text && (5 <=? Str.len text)%nat
             && (Str.len text <=? 50)%nat then 2
     else 0)
  (* 6. Short, meaningful text *)
  + (if (5 <=? Str.len text)%nat && (Str.len text <=? 100)%nat
        && (length (Str.split text) <=? 10)%nat then 1 else 0).

Definition is_likely_heading (item : FormattedLine)
    (structure_info : StructureInfo) : bool :=
  if rejected (Str.strip (text item)) then false
  else (3 <=? indicators item structure_info)%nat.

(** *** determine_heading_level *)

Definition determine_heading_level (item : FormattedLine)
    (structure_info : StructureInfo) : Level :=
  let text := Str.strip (text item) in
  let size := size item in
  let thresholds := size_thresholds structure_info in
  (* ^\d+\.\s+ *)
  if Re.match_ (Re.seq [Re.Plus Re.digit; Re.lit "."; Re.Plus Re.space]) text
  then H1
  (* ^\d+\.\d+\s+ *)
  else if Re.match_ (Re.seq [Re.Plus Re.digit; Re.lit "."; Re.Plus Re.digit;
                             Re.Plus Re.space]) text
  then H2
  (* ^\d+\.\d+\.\d+\s+ *)
  else if Re.match_ (Re.seq [Re.Plus Re.digit; Re.lit "."; Re.Plus Re.digit;
                             Re.lit "."; Re.Plus Re.digit; Re.Plus Re.space])
            text
  then H3
  else if Float64.leb (h1 thresholds) (Float64.Fin size) then H1
  else if Float64.leb (h2 thresholds) (Float64.Fin size) then H2
  else H3.

(** *** clean_heading_text *)

(** [[.,:;!?]] *)
Definition trailing_punctuation (c : ascii) : bool :=
  Char.eqb c "." || Char.eqb c "," || Char.eqb c ":" || Char.eqb c ";"
  || Char.eqb c "!" || Char.eqb c "?".

Definition quote_char (c : ascii) : bool :=
  Char.eqb c Char.dquote || Char.eqb c Char.squote.

Definition clean_heading_text (text : string) : string :=
  let text := Str.collapse text in
  let text :=
    (* ^\d+\. *)
    if Re.match_ (Re.seq [Re.Plus Re.digit; Re.lit "."]) text then text
    else Re.sub_run_at_end trailing_punctuation text in
  Str.strip_by quote_char text.

(** *** filter_and_deduplicate_headings *)

Definition false_positives : gset string :=
  {[ "and"; "or"; "the"; "of"; "in"; "on"; "at"; "to"; "for"; "with"; "by" ]}.

(** [heading["text"].lower().strip()] *)
Definition dedup_key (heading : Heading) : string :=
  Str.strip (Str.lower (h_text heading)).

(** The loop, from the state [seen_texts]; the result is what the loop
    appends to [filtered_headings]. *)
Fixpoint filter_from (seen_texts : gset string) (headings : list Heading)
  : list Heading :=
  match headings with
  | [] => []
  | heading :: rest =>
      let text := dedup_key heading in
      if decide (text ∈ false_positives) then filter_from seen_texts rest
      else if decide (text ∈ seen_texts) then filter_from seen_texts rest
      else heading :: filter_from (seen_texts ∪ {[ text ]}) rest
  end.

Definition filter_and_deduplicate_headings (headings : list Heading)
  : list Heading :=
  filter_from ∅ headings.

(** *** classify_headings *)

(** The list [potential_headings] when the loop over the lines ends. *)
Definition potential_headings (formatted_text : list FormattedLine)
    (structure_info : StructureInfo) : list Heading :=
  flat_map
    (fun item =>
       if is_likely_heading item structure_info then
         let level := determine_heading_level item structure_info in
         let clean_text := clean_heading_text (text item) in
         if Str.is_empty clean_text then []
         else [ {| level := level; h_text := clean_text;
                   h_page := page item |} ]
       else [])
    formatted_text.

Definition classify_headings (formatted_text : list FormattedLine)
  : M (list Heading) :=
  structure_info <-
    (emit (Invoked "analyze_document_structure") ;;;
     lift (analyze_document_structure formatted_text)) ;;
  let potential_headings := potential_headings formatted_text structure_info in
  let final_headings := filter_and_deduplicate_headings potential_headings in
  ret (sort_by (fun x => (h_page x, h_text x)) page_text_ltb final_headings).

(** *** extract_outline

    The three methods that [extract_outline] calls on [self] are taken as
    they are found there: any of them may raise. *)

Section Assembler.
Variable extract_text_with_formatting : string -> M (list FormattedLine).
Variable identify_title_method : list FormattedLine -> M string.
Variable classify_headings_method : list FormattedLine -> M (list Heading).

Definition extract_outline (pdf_path : string) : M Outline :=
  try_except
    (formatted_text <-
       (emit (Invoked "extract_text_with_formatting") ;;;
        extract_text_with_formatting pdf_path) ;;
     match formatted_text with
     | [] => ret {| title := "Empty Document"; outline := [] |}
     | _ :: _ =>
         title <- (emit (Invoked "identify_title") ;;;
                   identify_title_method formatted_text) ;;
         headings <- (emit (Invoked "classify_headings") ;;;
                      classify_headings_method formatted_text) ;;
         ret {| title := title; outline := headings |}
     end)
    (fun e =>
       emit (Printed ("Error processing " ++ pdf_path ++ ": " ++ exn_str e)) ;;;
       ret {| title := "Error Processing Document"; outline := [] |}).
End Assembler.

(** The extractor as the class defines it, over a line source. *)
Definition run (source : string -> M (list FormattedLine)) (pdf_path : string)
  : M Outline :=
  extract_outline source (fun lines => ret (identify_title lines))
    classify_headings pdf_path.

(** *** extract_text_with_formatting

    What [page.get_text("dict")] hands over: a page is the list
    [blocks["blocks"]], a block its ["lines"] when it has the key, a line
    its spans and its box. *)

Record Span : Type := mkSpan {
  span_text : string;
  span_font : string;
  span_size : Q;
  span_flags : Z
}.

Record TextLine : Type := mkTextLine {
  spans : list Span;
  line_bbox : Q * Q * Q * Q
}.

Definition Block : Type := option (list TextLine).
Definition Page : Type := list Block.

(** The calls into PyMuPDF.  Each is a call into the library, may raise,
    and is made where the method makes it. *)
Record PyMuPDF : Type := {
  document : Type;
  page_handle : Type;
  (** [fitz.open(pdf_path)] *)
  fitz_open : string -> M document;
  (** [len(doc)] *)
  len : document -> M nat;
  (** [doc[page_num]] *)
  getitem : document -> Z -> M page_handle;
  (** [page.get_text("dict")] *)
  get_text : page_handle -> M Page;
  (** [doc.close()] *)
  close : document -> M unit
}.

(** [l.count(x)] on strings. *)
Definition count (x : string) (l : list string) : nat :=
  length (List.filter (String.eqb x) l).

(** The spans that pass [if text:]. *)
Definition contributing (line : TextLine) : list Span :=
  List.filter (fun span => negb (Str.is_empty (Str.strip (span_text span))))
    (spans line).

(** [range(n)] *)
Definition range (n : nat) : list Z := List.map Z.of_nat (seq 0 n).

Section LineSource.
(** The order in which a [set] of strings is iterated depends on the
    hashes of the run. *)
Variable set_order : list string -> list string.
(** [np.mean] on a list of sizes that is not empty.  numpy adds in an
    order of its own and rounds as it goes; its result, a finite float,
    is not computed here. *)
Variable np_mean : list Q -> Q.
Variable fitz : PyMuPDF.

(** The body of the loop over [block["lines"]]: the entry appended for
    one line, if any. *)
Definition format_line (page_num : Z) (line : TextLine) : list FormattedLine :=
  let used := contributing line in
  let line_text :=
    fold_left (fun acc span => acc ++ (Str.strip (span_text span) ++ " "))%string
      used EmptyString in
  let line_fonts := List.map span_font used in
  let line_sizes := List.map span_size used in
  let line_flags := List.map span_flags used in
  let line_text := Str.strip line_text in
  if negb (Str.is_empty line_text) && (2 <? Str.len line_text)%nat then
    let avg_size :=
      match line_sizes with [] => 12%Q | _ :: _ => np_mean line_sizes end in
    let dominant_font :=
      match line_fonts with
      | [] => EmptyString
      | _ :: _ =>
          match set_order line_fonts with
          | f :: fs => max_by (fun f => count f line_fonts) Nat.ltb f fs
          | [] => EmptyString
          end
      end in
    let is_bold :=
      existsb (fun flag => negb (Z.land flag (2 ^ 4) =? 0)%Z) line_flags in
    [ {| text := line_text; page := (page_num + 1)%Z; font := dominant_font;
         size := avg_size; is_bold := is_bold; bbox := line_bbox line;
         line_count := length (Str.split line_text) |} ]
  else [].

Definition format_block (page_num : Z) (block : Block) : list FormattedLine :=
  match block with
  | Some lines => flat_map (format_line page_num) lines
  | None => []
  end.

(** The loop over the page numbers: [formatted_text] is the list built
    so far. *)
Fixpoint format_pages (doc : document fitz) (page_nums : list Z)
    (formatted_text : list FormattedLine) : M (list FormattedLine) :=
  match page_nums with
  | [] => ret formatted_text
  | page_num :: rest =>
      page <- getitem fitz doc page_num ;;
      blocks <- get_text fitz page ;;
      format_pages doc rest
        (formatted_text ++ flat_map (format_block page_num) blocks)
  end.

Definition extract_text_with_formatting (pdf_path : string)
  : M (list FormattedLine) :=
  doc <- fitz_open fitz pdf_path ;;
  n <- len fitz doc ;;
  formatted_text <- format_pages doc (range n) [] ;;
  (close fitz doc ;;;
   ret formatted_text).

(** [PDFOutlineExtractor().extract_outline] *)
Definition extractor (pdf_path : string) : M Outline :=
  run extract_text_with_formatting pdf_path.
End LineSource.

End PDFOutlineExtractor.

(** ** The driver, [app/main.py]

    The world of the driver is what has been logged and the contents of
    the files written.  The calls into the operating system and the
    serializer are taken as they come. *)

Module Main.

Record World : Type := mkWorld {
  stdout : list event;
  files : gmap string string
}.

Definition IO (A : Type) : Type := World -> result A * World.

Definition io_ret {A : Type} (a : A) : IO A := fun w => (Ok a, w).

Definition io_bind {A B : Type} (m : IO A) (k : A -> IO B) : IO B :=
  fun w =>
    match m w with
    | (Ok a, w') => k a w'
    | (Raise e, w') => (Raise e, w')
    end.

(** A computation of the extractor, run in the world. *)
Definition io_lift {A : Type} (m : M A) : IO A :=
  fun w =>
    let '(r, log) := m (stdout w) in
    (r, {| stdout := log; files := files w |}).

Definition print (line : string) : IO unit := io_lift (emit (Printed line)).

(** [posixpath.join(a, b)] *)
Definition path_join (a b : string) : string :=
  if Str.startswith "/" b then b
  else if Str.is_empty a || Str.endswith "/" a then (a ++ b)%string
  else (a ++ "/" ++ b)%string.

Definition input_dir : string := "/app/input".
Definition output_dir : string := "/app/output".

(** [filename.lower().endswith('.pdf')] *)
Definition is_pdf (filename : string) : bool :=
  Str.endswith ".pdf" (Str.lower filename).

(** [filename.replace('.pdf', '.json')] *)
Definition output_filename (filename : string) : string :=
  Str.replace ".pdf" ".json" filename.

Definition output_path (filename : string) : string :=
  path_join output_dir (output_filename filename).

Section Driver.
(** [os.makedirs(path, exist_ok=True)], [os.listdir(path)] *)
Variable makedirs : string -> IO unit.
Variable listdir : string -> IO (list string).
(** [with open(path, 'w', encoding='utf-8') as f: f.write(content)] *)
Variable write_text : string -> string -> IO unit.
(** [json.dumps(result, indent=2, ensure_ascii=False)] *)
Variable json_dumps : Outline -> string.
(** [extractor.extract_outline] *)
Variable extract_outline : string -> M Outline.

(** The body of the loop for one file name. *)
Definition process_file (filename : string) : IO unit :=
  if is_pdf filename then
    let pdf_path := path_join input_dir filename in
    let output_filename := output_filename filename in
    let output_path := path_join output_dir output_filename in
    io_bind (print ("Processing " ++ filename ++ "...")) (fun _ =>
    io_bind (io_lift (extract_outline pdf_path)) (fun result =>
    io_bind (write_text output_path (json_dumps result)) (fun _ =>
    print ("Saved outline to " ++ output_filename))))
  else io_ret tt.

Fixpoint process_files (filenames : list string) : IO unit :=
  match filenames with
  | [] => io_ret tt
  | filename :: rest =>
      io_bind (process_file filename) (fun _ => process_files rest)
  end.

Definition main : IO unit :=
  io_bind (makedirs output_dir) (fun _ =>
  io_bind (listdir input_dir) (fun filenames =>
  process_files filenames)).
End Driver.

End Main.

(** * Vocabulary of the properties *)

Import PDFOutlineExtractor.

(** [a <= b] on (page, text) tuples. *)
Definition page_text_le (a b : Z * string) : Prop :=
  (fst a < fst b)%Z \/ (fst a = fst b /\ Str.leb (snd a) (snd b) = true).

(** The order of the final outline. *)
Definition heading_le (a b : Heading) : Prop :=
  page_text_le (h_page a, h_text a) (h_page b, h_text b).

(** The final [sort] of [classify_headings]. *)
Definition sorted_headings (headings : list Heading) : list Heading :=
  sort_by (fun x => (h_page x, h_text x)) page_text_ltb headings.

(** A line with the fields the extractor reads. *)
Definition line (text : string) (page : Z) (size : Q) (is_bold : bool) (y0 : Q)
  : FormattedLine :=
  {| text := text; page := page; font := "Helvetica"; size := size;
     is_bold := is_bold; bbox := (72, y0, 540, y0 + size)%Q;
     line_count := length (Str.split text) |}.

(** The text ["A":], in double quotes and with its colon. *)
Definition quoted_A : string :=
  String Char.dquote (String "A" (String Char.dquote ":")).

(** The stop-word set as the specification lists it. *)
Definition spec_stop_words : list string :=
  ["a"; "and"; "or"; "the"; "of"; "in"; "on"; "at"; "to"; "for"; "with"; "by"].

(** A one-line document: the bold line ["A":]. *)
Definition doc_quoted_A : list FormattedLine :=
  [line quoted_A 1 12 true 100].

(** Bold lines of body size: two headings on page 1 in the order Zeta,
    Alpha, a stop word, and on page 2 a repetition of the first heading
    in another case. *)
Definition doc_sections : list FormattedLine :=
  [ line "Zeta Function" 1 12 true 100;
    line "Alpha Function" 1 12 true 200;
    line "the:::" 1 12 true 300;
    line "ZETA FUNCTION" 2 12 true 100;
    line "Closing Remarks" 2 12 true 200 ].

(** [s] between two double quotes. *)
Definition quoted (s : string) : string :=
  String Char.dquote (s ++ String Char.dquote EmptyString).

(** Every character of [s] is in the class [p]. *)
Fixpoint all_chars (p : ascii -> bool) (s : string) : bool :=
  match s with
  | EmptyString => true
  | String c s' => p c && all_chars p s'
  end.

Definition first_char (s : string) : option ascii :=
  match s with
  | EmptyString => None
  | String c _ => Some c
  end.

Fixpoint last_char (s : string) : option ascii :=
  match s with
  | EmptyString => None
  | String c EmptyString => Some c
  | String _ s' => last_char s'
  end.

(** The value of [text] in [clean_heading_text] when the quotes are
    about to be stripped. *)
Definition before_quotes (text : string) : string :=
  let text := Str.collapse text in
  if Re.match_ (Re.seq [Re.Plus Re.digit; Re.lit "."]) text then text
  else Re.sub_run_at_end trailing_punctuation text.

(** A title candidate without a single character that the cleaning of
    the title keeps. *)
Definition doc_exclamations : list FormattedLine :=
  [line "!!!!!!!!!! !!!!!!!!!!" 1 14 false 100].


(** The thresholds that the analyzer derives from a body text size. *)
Definition thresholds_of (body : Q) : SizeThresholds :=
  {| h1 := Float64.mul body (Float64.literal 1.5);
     h2 := Float64.mul body (Float64.literal 1.3);
     h3 := Float64.mul body (Float64.literal 1.15) |}.

Definition info_body_12 : StructureInfo :=
  {| body_text_size := 12;
     size_thresholds := thresholds_of 12;
     all_sizes := [12%Q] |}.

(** The page-1 lines in the order in which [identify_title] examines
    them: largest size first, topmost first among equal sizes. *)
Definition first_page_sorted (formatted_text : list FormattedLine)
  : list FormattedLine :=
  sort_by (fun x => (- size x, bbox_y0 x)%Q) QQ_ltb
    (List.filter (fun item => (page item =? 1)%Z) formatted_text).

(** The fallback title in the words of the specification: up to the
    first two lines of a window of the sorted page-1 lines whose text is
    longer than 5 and has at least two words, joined; the sentinel when
    there is none or the combined string is longer than 200.  The two
    parameters are the size of the window and whether the length is
    taken after the whitespace is collapsed. *)
Definition fallback_title (window : nat) (measure_collapsed : bool)
    (sorted : list FormattedLine) : string :=
  let texts :=
    take 2 (List.map (fun item => Str.strip (text item))
              (List.filter is_meaningful (take window sorted))) in
  match texts with
  | [] => "Untitled Document"
  | _ :: _ =>
      let combined := Str.join " " texts in
      let measured :=
        if measure_collapsed then Str.collapse combined else combined in
      if (Str.len measured <=? 200)%nat then Str.collapse combined
      else "Untitled Document"
  end.

(** Six page-1 lines without a title candidate; the only line with two
    words is the sixth in the sorted order. *)
Definition doc_sixth_line : list FormattedLine :=
  [ line "abc" 1 12 false 100; line "def" 1 12 false 120;
    line "ghi" 1 12 false 140; line "jkl" 1 12 false 160;
    line "mno" 1 12 false 180; line "Hello World" 1 10 false 200 ].

Fixpoint repeat_char (n : nat) (c : ascii) : string :=
  match n with
  | O => EmptyString
  | S n' => String c (repeat_char n' c)
  end.

(** Two page-1 lines without a title candidate, each of 101 characters
    with a run of three spaces inside: joined they have 203 characters,
    and 199 once the whitespace is collapsed. *)
Definition doc_wide_spaces : list FormattedLine :=
  [ line (repeat_char 97 "a" ++ "   b") 1 12 false 100;
    line (repeat_char 97 "c" ++ "   d") 1 12 false 120 ].

(** How many members of [l] equal the number [x]. *)
Definition occurrences (x : Q) (l : list Q) : nat :=
  length (List.filter (fun y => Qeq_bool y x) l).

(** [b] is a statistical mode of [l]: a member that no number occurs
    more often than. *)
Definition is_mode (b : Q) (l : list Q) : Prop :=
  In b l /\ forall x, occurrences x l <= occurrences b l.

(** The keys of a counter are pairwise different numbers. *)
Fixpoint distinct_keys (c : list (Q * nat)) : Prop :=
  match c with
  | [] => True
  | (k, _) :: c' =>
      (forall k' n', In (k', n') c' -> ~ k' == k) /\ distinct_keys c'
  end.

(** The counter [c] counts the list [l]. *)
Definition counts (c : list (Q * nat)) (l : list Q) : Prop :=
  (forall k n, In (k, n) c -> In k l /\ n = occurrences k l) /\
  (forall x, In x l -> exists k n, In (k, n) c /\ k == x) /\
  distinct_keys c.

(** [t] is [x] up to one part in [pow2 51]. *)
Definition near (t x : Q) : Prop :=
  (x * (1 - Float64.pow2 (-51)) <= t /\ t <= x * (1 + Float64.pow2 (-51)))%Q.

(** A document whose only size is the smallest positive double, and one
    whose only size is 1.75 times [pow2 1023]. *)
Definition doc_smallest : list FormattedLine :=
  [line "Body text one" 1 (Float64.pow2 (-1074)) false 100].

Definition doc_largest : list FormattedLine :=
  [line "Body text one" 1 ((7 # 4) * Float64.pow2 1023) false 100].

(** Lines of sizes 12, 18, 12. *)
Definition doc_sizes : list FormattedLine :=
  [ line "Body text one" 1 12 false 100;
    line "A Large Heading" 1 18 true 60;
    line "Body text two" 1 12 false 120 ].

(** The two sentinel results. *)
Definition empty_document : Outline :=
  {| title := "Empty Document"; outline := [] |}.

Definition error_document : Outline :=
  {| title := "Error Processing Document"; outline := [] |}.

(** Line sources: one that finds no line, one that cannot read the
    document, one that reads [doc_sections]. *)
Definition source_empty : string -> M (list FormattedLine) :=
  fun _ => ret [].

Definition source_broken : string -> M (list FormattedLine) :=
  fun _ => raise (SourceError "cannot open broken document").

Definition source_sections : string -> M (list FormattedLine) :=
  fun _ => ret doc_sections.


(** The depth of a level: H1 is the coarsest. *)
Definition level_rank (l : Level) : nat :=
  match l with H1 => 1 | H2 => 2 | H3 => 3 end.

(** No two members of [l] are equal numbers. *)
Fixpoint all_distinct (l : list Q) : Prop :=
  match l with
  | [] => True
  | x :: l' => (forall y, In y l' -> ~ y == x) /\ all_distinct l'
  end.

(** The characters of a cleaned title: word characters, hyphen, colon,
    period, and the space between words. *)
Definition clean_title_char (c : ascii) : bool :=
  Char.isword c || Char.eqb c "-" || Char.eqb c ":" || Char.eqb c "."
  || Char.eqb c " ".

(** The heading that the classifier makes of a line. *)
Definition heading_of (item : FormattedLine) (info : StructureInfo) : Heading :=
  {| level := determine_heading_level item info;
     h_text := clean_heading_text (text item);
     h_page := page item |}.

(** A first page with a short name in the largest size, a title and a
    page number. *)
Definition doc_report : list FormattedLine :=
  [ line "Acme Corp" 1 24 false 50;
    line "Quarterly Report (2024)" 1 20 false 100;
    line "Page 1" 1 10 false 700 ].

(** A set of strings iterated in the order of first insertion. *)
Fixpoint first_seen (l : list string) : list string :=
  match l with
  | [] => []
  | x :: l' => x :: List.filter (fun y => negb (String.eqb x y)) (first_seen l')
  end.

(** The entries of the pages [pages], numbered from [page_num]. *)
Fixpoint entries (set_order : list string -> list string)
    (np_mean : list Q -> Q) (page_num : Z) (pages : list Page)
  : list FormattedLine :=
  match pages with
  | [] => []
  | page :: rest =>
      flat_map (format_block set_order np_mean page_num) page
      ++ entries set_order np_mean (page_num + 1) rest
  end.

(** [decoded fitz doc page_nums log pages log']: from the log [log],
    [doc[page_num]] and [page.get_text("dict")] return for each of the
    [page_nums] in turn, hand over [pages] and leave the log [log']. *)
Inductive decoded (fitz : PyMuPDF) (doc : document fitz)
  : list Z -> list event -> list Page -> list event -> Prop :=
| decoded_nil (log : list event) : decoded fitz doc [] log [] log
| decoded_cons (page_num : Z) (rest : list Z) (log log1 log2 log3 : list event)
    (handle : page_handle fitz) (page : Page) (pages : list Page) :
    getitem fitz doc page_num log = (Ok handle, log1) ->
    get_text fitz handle log1 = (Ok page, log2) ->
    decoded fitz doc rest log2 pages log3 ->
    decoded fitz doc (page_num :: rest) log (page :: pages) log3.

(** [reads fitz pdf_path log pages log']: from the log [log], every call
    that [extract_text_with_formatting] makes into PyMuPDF returns:
    [fitz.open], [len(doc)], which is the number of [pages], the page and
    its text for each page number from 0, which hand over [pages], and
    [doc.close()], which leaves the log [log']. *)
Definition reads (fitz : PyMuPDF) (pdf_path : string) (log : list event)
    (pages : list Page) (log' : list event) : Prop :=
  exists (doc : document fitz) (log1 log2 log3 : list event),
    fitz_open fitz pdf_path log = (Ok doc, log1) /\
    len fitz doc log1 = (Ok (length pages), log2) /\
    decoded fitz doc (range (length pages)) log2 pages log3 /\
    close fitz doc log3 = (Ok tt, log').

(** A decoded document of two pages: a line of three spans, one of them
    blank and bold, an image block, a line too short to be kept, and the
    first line again. *)
Definition line_hello : TextLine :=
  {| spans := [ mkSpan "  Hello " "Arial" 12 0; mkSpan "   " "Times" 30 16;
                mkSpan "World" "Arial" 14 16 ];
     line_bbox := (72, 100, 300, 114)%Q |}.

Definition doc_decoded : list Page :=
  [ [Some [line_hello]; None];
    [Some [ {| spans := [mkSpan "ab" "Arial" 12 0];
               line_bbox := (72, 100, 90, 112)%Q |};
            line_hello ]] ].

(** The texts that a line contributes: those of its spans that are not
    blank, stripped. *)
Definition span_texts (line : TextLine) : list string :=
  List.map (fun span => Str.strip (span_text span)) (contributing line).

(** A stripped text that is not empty. *)
Definition solid (t : string) : Prop :=
  (exists c, first_char t = Some c /\ Char.isspace c = false) /\
  (exists c, last_char t = Some c /\ Char.isspace c = false).

(** A PyMuPDF whose documents are lists of decoded pages: every file
    opens as [doc_decoded], and a page number out of range raises. *)
Definition fitz_decoded : PyMuPDF :=
  {| document := list Page;
     page_handle := Page;
     fitz_open := fun _ => ret doc_decoded;
     len := fun doc => ret (length doc);
     getitem := fun doc page_num =>
       match nth_error doc (Z.to_nat page_num) with
       | Some page => ret page
       | None => raise (SourceError "page not in document")
       end;
     get_text := fun page => ret page;
     close := fun _ => ret tt |}.

(** A mean for sizes whose sum and mean are doubles, as 12 and 14. *)
Definition mean_of (l : list Q) : Q :=
  Qred (fold_left Qplus l 0 / inject_Z (Z.of_nat (length l)))%Q.

(** The entry of [line_hello] on the page numbered [page_number]. *)
Definition entry_hello_on (page_number : Z) : FormattedLine :=
  {| text := "Hello World"; page := page_number; font := "Arial";
     size := 13; is_bold := true;
     bbox := (72, 100, 300, 114)%Q; line_count := 2 |}.

Definition entry_hello : FormattedLine := entry_hello_on 1.

(** What [extract_text_with_formatting] returns on [doc_decoded]. *)
Definition entries_hello : list FormattedLine :=
  [entry_hello; entry_hello_on 2].

(** Every whitespace character of [s] is a space, and no space follows
    a space; [after_space] tells whether a space has just been read. *)
Fixpoint single_spaced_from (after_space : bool) (s : string) : bool :=
  match s with
  | EmptyString => true
  | String c s' =>
      if Char.isspace c
      then Char.eqb c " " && negb after_space && single_spaced_from true s'
      else single_spaced_from false s'
  end.

Definition single_spaced (s : string) : bool := single_spaced_from false s.

(** The language of a pattern: [matches r s] when the whole of [s] is in
    the language of [r]. *)
Inductive matches : Re.regex -> string -> Prop :=
| matches_eps : matches Re.Eps EmptyString
| matches_cls (p : ascii -> bool) (c : ascii) :
    p c = true -> matches (Re.Cls p) (String c EmptyString)
| matches_seq (r1 r2 : Re.regex) (s1 s2 : string) :
    matches r1 s1 -> matches r2 s2 -> matches (Re.Seq r1 r2) (s1 ++ s2)
| matches_alt_l (r1 r2 : Re.regex) (s : string) :
    matches r1 s -> matches (Re.Alt r1 r2) s
| matches_alt_r (r1 r2 : Re.regex) (s : string) :
    matches r2 s -> matches (Re.Alt r1 r2) s
| matches_star_nil (r : Re.regex) : matches (Re.Star r) EmptyString
| matches_star_cons (r : Re.regex) (c : ascii) (s1 s2 : string) :
    matches r (String c s1) -> matches (Re.Star r) s2 ->
    matches (Re.Star r) (String c s1 ++ s2).

(** A number of a numbered heading: decimal digits, at least one. *)
Definition number (ds : string) : Prop :=
  Str.is_empty ds = false /\ all_chars Char.isdecimal ds = true.

(** The patterns of [determine_heading_level]. *)
Definition pattern_N : Re.regex :=
  Re.seq [Re.Plus Re.digit; Re.lit "."; Re.Plus Re.space].

Definition pattern_N_N : Re.regex :=
  Re.seq [Re.Plus Re.digit; Re.lit "."; Re.Plus Re.digit; Re.Plus Re.space].

Definition pattern_N_N_N : Re.regex :=
  Re.seq [Re.Plus Re.digit; Re.lit "."; Re.Plus Re.digit; Re.lit ".";
          Re.Plus Re.digit; Re.Plus Re.space].

(** Two sizes with two lines each; 12 comes first. *)
Definition doc_tie : list FormattedLine :=
  [ line "Body text one" 1 12 false 100;
    line "A Large Heading" 1 18 true 60;
    line "Another Large Heading" 2 18 true 60;
    line "Body text two" 2 12 false 120 ].

(** ** Vocabulary of the driver *)

Import Main.

(** A file system in which every write succeeds: the file holds the
    text written last. *)
Definition write_text_ok (path content : string) : IO unit :=
  fun w =>
    (Ok tt, {| stdout := stdout w; files := <[ path := content ]> (files w) |}).

(** An operating system with an output directory that can be made and an
    input directory that lists [names]. *)
Definition makedirs_ok : string -> IO unit := fun _ => io_ret tt.

Definition listdir_of (names : list string) : string -> IO (list string) :=
  fun _ => io_ret names.

(** A serializer that writes the title only. *)
Definition title_only (result : Outline) : string := title result.

(** * Properties *)

(** One conjunct of the boundary theorem, once the results of the three
    methods are known. *)
Ltac settle_run :=
  intros; simplify_eq; try reflexivity; try congruence.


(** ** The stable sort *)

Section SortFacts.
Context {A K : Type} (key : A -> K) (lt : K -> K -> bool).
Variable le : K -> K -> Prop.
Hypothesis lt_le : forall a b, lt a b = true -> le a b.
Hypothesis not_lt_le : forall a b, lt a b = false -> le b a.
Hypothesis le_trans : forall a b c, le a b -> le b c -> le a c.

Let R (x y : A) : Prop := le (key x) (key y).

Lemma insert_by_perm (x : A) (l : list A) :
  Permutation (x :: l) (insert_by key lt x l).
Proof using Type.
  induction l as [|y l IH]; simpl; [reflexivity|].
  destruct (lt (key y) (key x)); [|reflexivity].
  rewrite perm_swap. now apply perm_skip.
Qed.

Lemma sort_by_perm (l : list A) : Permutation l (sort_by key lt l).
Proof using Type.
  induction l as [|x l IH]; simpl; [reflexivity|].
  rewrite <- insert_by_perm. now apply perm_skip.
Qed.

Lemma insert_by_sorted (x : A) (l : list A) :
  StronglySorted R l -> StronglySorted R (insert_by key lt x l).
Proof using lt_le not_lt_le le_trans.
  induction 1 as [|y l Hl IH Hy]; simpl.
  - repeat constructor.
  - destruct (lt (key y) (key x)) eqn:Hlt.
    + constructor; [exact IH|].
      rewrite <- insert_by_perm. constructor; [|exact Hy].
      now apply lt_le.
    + apply not_lt_le in Hlt.
      constructor; [now constructor|].
      constructor; [exact Hlt|].
      eapply Forall_impl; [exact Hy|].
      intros z Hz. unfold R in *. eauto.
Qed.

Lemma sort_by_sorted (l : list A) : StronglySorted R (sort_by key lt l).
Proof using lt_le not_lt_le le_trans.
  induction l as [|x l IH]; simpl; [constructor|].
  now apply insert_by_sorted.
Qed.
End SortFacts.

(** ** The order on (page, text) keys *)

Lemma string_compare_trans (a b c : string) :
  String.compare a b <> Gt -> String.compare b c <> Gt ->
  String.compare a c <> Gt.
Proof.
  revert b c. induction a as [|x a IH]; intros [|y b] [|z c]; simpl;
    try congruence.
  unfold Ascii.compare.
  destruct (N.compare_spec (N_of_ascii x) (N_of_ascii y)) as [Hxy|Hxy|Hxy];
    destruct (N.compare_spec (N_of_ascii y) (N_of_ascii z)) as [Hyz|Hyz|Hyz];
    try congruence; intros Hab Hbc.
  - rewrite Hxy, Hyz, N.compare_refl. now apply IH with b.
  - rewrite Hxy. apply N.compare_lt_iff in Hyz. now rewrite Hyz.
  - rewrite <- Hyz. apply N.compare_lt_iff in Hxy. now rewrite Hxy.
  - assert (H : (N_of_ascii x ?= N_of_ascii z)%N = Lt)
      by (apply N.compare_lt_iff; lia).
    now rewrite H.
Qed.

Lemma str_leb_iff (a b : string) :
  Str.leb a b = true <-> String.compare a b <> Gt.
Proof. unfold Str.leb. destruct (String.compare a b); split; congruence. Qed.

Lemma page_text_lt_le (a b : Z * string) :
  page_text_ltb a b = true -> page_text_le a b.
Proof.
  unfold page_text_ltb, page_text_le, Str.ltb. intros H.
  apply orb_true_iff in H as [H|H]; [left; lia|right].
  apply andb_true_iff in H as [H1 H2]. split; [lia|].
  apply str_leb_iff. destruct (String.compare (snd a) (snd b)); congruence.
Qed.

Lemma page_text_not_lt_le (a b : Z * string) :
  page_text_ltb a b = false -> page_text_le b a.
Proof.
  unfold page_text_ltb, page_text_le, Str.ltb. intros H.
  apply orb_false_iff in H as [H1 H2].
  destruct (Z.eqb_spec (fst a) (fst b)) as [Heq|Hne]; [right|left; lia].
  split; [congruence|]. simpl in H2.
  apply str_leb_iff. rewrite String.compare_antisym.
  destruct (String.compare (snd a) (snd b)); simpl; congruence.
Qed.

Lemma page_text_le_trans (a b c : Z * string) :
  page_text_le a b -> page_text_le b c -> page_text_le a c.
Proof.
  unfold page_text_le. intros [H1|[H1 H1']] [H2|[H2 H2']];
    try (left; lia).
  right. split; [congruence|].
  apply str_leb_iff. apply string_compare_trans with (snd b);
    now apply str_leb_iff.
Qed.

(** ** Filter/Dedup stage *)

Lemma elem_of_false_positives (t : string) :
  t ∈ false_positives <->
  In t ["and"; "or"; "the"; "of"; "in"; "on"; "at"; "to"; "for"; "with"; "by"].
Proof.
  unfold false_positives. rewrite !elem_of_union, !elem_of_singleton.
  simpl. intuition congruence.
Qed.

Lemma filter_from_sublist (seen : gset string) (headings : list Heading) :
  filter_from seen headings `sublist_of` headings.
Proof.
  revert seen. induction headings as [|h rest IH]; intros seen; simpl.
  - constructor.
  - repeat case_decide; try (apply sublist_cons; apply IH).
    apply sublist_skip, IH.
Qed.

Lemma filter_from_keys (seen : gset string) (headings : list Heading) (h : Heading) :
  In h (filter_from seen headings) ->
  (dedup_key h ∉ false_positives) /\ (dedup_key h ∉ seen).
Proof.
  revert seen. induction headings as [|x rest IH]; intros seen; simpl; [easy|].
  repeat case_decide; try apply IH.
  intros [<-|Hin]; [easy|].
  destruct (IH _ Hin) as [Hfp Hseen]. split; [easy|].
  intros Hs. apply Hseen, elem_of_union. now left.
Qed.

Lemma filter_from_NoDup (seen : gset string) (headings : list Heading) :
  NoDup (List.map dedup_key (filter_from seen headings)).
Proof.
  revert seen. induction headings as [|x rest IH]; intros seen; simpl.
  - constructor.
  - repeat case_decide; try apply IH.
    simpl. constructor; [|apply IH].
    intros Hin. apply list_elem_of_In, in_map_iff in Hin as (h & Hk & Hin).
    apply filter_from_keys in Hin as [_ Hin]. set_solver.
Qed.

(** A retained heading stands in the input behind no heading with its
    key. *)
Lemma filter_from_first (seen : gset string) (headings : list Heading) (h : Heading) :
  In h (filter_from seen headings) ->
  exists before after,
    headings = before ++ h :: after /\
    forall h', In h' before -> dedup_key h' <> dedup_key h.
Proof.
  revert seen. induction headings as [|x rest IH]; intros seen; simpl; [easy|].
  assert (Hrec : forall seen', In h (filter_from seen' rest) ->
            (dedup_key x ∈ false_positives \/ dedup_key x ∈ seen') ->
            exists before after, x :: rest = before ++ h :: after /\
              forall h', In h' before -> dedup_key h' <> dedup_key h).
  { intros seen' Hin Hx. pose proof (filter_from_keys _ _ _ Hin) as [Hk1 Hk2].
    apply IH in Hin as (before & after & -> & Hb).
    exists (x :: before), after. split; [reflexivity|].
    intros h' [<-|Hh']; [|now apply Hb].
    intros Heq. rewrite Heq in Hx. tauto. }
  repeat case_decide; try (intros Hin; apply (Hrec seen Hin); tauto).
  intros [<-|Hin].
  - exists [], rest. split; [reflexivity|]. intros h' [].
  - apply (Hrec _ Hin). right. set_solver.
Qed.

(** Nothing but false positives and repetitions is dropped: every input
    heading outside the false positives has its key in the result. *)
Lemma filter_from_complete (seen : gset string) (headings : list Heading) (h : Heading) :
  In h headings -> dedup_key h ∉ false_positives ->
  dedup_key h ∈ seen \/
  In (dedup_key h) (List.map dedup_key (filter_from seen headings)).
Proof.
  revert seen. induction headings as [|x rest IH]; intros seen; simpl; [easy|].
  intros [->|Hin] Hfp.
  - repeat case_decide; simpl; tauto.
  - repeat case_decide; try (now apply IH).
    destruct (IH (seen ∪ {[dedup_key x]}) Hin Hfp) as [Hs|Hs]; simpl.
    + apply elem_of_union in Hs as [Hs|Hs]; [tauto|].
      apply elem_of_singleton in Hs. rewrite Hs. tauto.
    + tauto.
Qed.

(** ** Heading classifier: what a run returns *)

Lemma classify_headings_run (lines : list FormattedLine) (log : list event) :
  classify_headings lines log =
  match analyze_document_structure lines with
  | Ok info =>
      (Ok (sorted_headings
             (filter_and_deduplicate_headings (potential_headings lines info))),
       log ++ [Invoked "analyze_document_structure"])
  | Raise e => (Raise e, log ++ [Invoked "analyze_document_structure"])
  end.
Proof.
  unfold classify_headings, bind, emit, lift, ret. simpl.
  now destruct (analyze_document_structure lines).
Qed.

Lemma classify_headings_ok (lines : list FormattedLine) (log log' : list event)
    (headings : list Heading) :
  classify_headings lines log = (Ok headings, log') ->
  exists info,
    analyze_document_structure lines = Ok info /\
    headings = sorted_headings
      (filter_and_deduplicate_headings (potential_headings lines info)).
Proof.
  rewrite classify_headings_run.
  destruct (analyze_document_structure lines) as [info|e]; [|discriminate].
  intros [= <- _]. now exists info.
Qed.

Lemma sorted_headings_perm (headings : list Heading) :
  Permutation headings (sorted_headings headings).
Proof. apply sort_by_perm. Qed.

(** ** The laws of the final outline *)

(** C10. [filter_and_deduplicate_headings] returns an order-preserving
    subsequence of its input: the retained headings are elements of the
    input, unchanged and in the input's order, and nothing is added. *)
Theorem filter_and_deduplicate_headings_subsequence (headings : list Heading) :
  filter_and_deduplicate_headings headings `sublist_of` headings /\
  forall h, In h (filter_and_deduplicate_headings headings) -> In h headings.
Proof.
  assert (Hsub : filter_and_deduplicate_headings headings `sublist_of` headings)
    by apply filter_from_sublist.
  split; [exact Hsub|].
  intros h Hin. apply list_elem_of_In. apply list_elem_of_In in Hin.
  exact (sublist_subseteq _ _ Hsub h Hin).
Qed.

(** C5. Dedup law.  No two positions of the final outline carry the same
    lower-cased text, whatever their pages; and a heading of the outline
    stands in the candidate sequence behind no candidate with the same
    key: the first occurrence is the one kept. *)
Theorem classify_headings_dedup (lines : list FormattedLine)
    (log log' : list event) (final : list Heading) :
  classify_headings lines log = (Ok final, log') ->
  NoDup (List.map (fun h => Str.lower (h_text h)) final) /\
  exists info,
    analyze_document_structure lines = Ok info /\
    forall h, In h final ->
      exists before after,
        potential_headings lines info = before ++ h :: after /\
        forall h', In h' before ->
          Str.strip (Str.lower (h_text h')) <> Str.strip (Str.lower (h_text h)).
Proof.
  intros Hrun. apply classify_headings_ok in Hrun as (info & Hinfo & ->).
  pose proof (sorted_headings_perm
    (filter_and_deduplicate_headings (potential_headings lines info))) as Hperm.
  split.
  - assert (Hk : NoDup (List.map dedup_key
        (sorted_headings (filter_and_deduplicate_headings
           (potential_headings lines info))))).
    { rewrite <- (Permutation_map dedup_key Hperm).
      apply filter_from_NoDup. }
    unfold dedup_key in Hk.
    rewrite <- (List.map_map (fun h => Str.lower (h_text h)) Str.strip) in Hk.
    now apply NoDup_fmap_1 in Hk.
  - exists info. split; [exact Hinfo|]. intros h Hin.
    apply (Permutation_in _ (Permutation_sym Hperm)) in Hin.
    now apply filter_from_first in Hin.
Qed.

Lemma classify_headings_dedup_witness :
  NoDup (List.map (fun h => Str.lower (h_text h))
    [ {| level := H3; h_text := "Alpha Function"; h_page := 1 |};
      {| level := H3; h_text := "Zeta Function"; h_page := 1 |};
      {| level := H3; h_text := "Closing Remarks"; h_page := 2 |} ]).
Proof.
  apply (classify_headings_dedup doc_sections []
           [Invoked "analyze_document_structure"]).
  vm_compute. reflexivity.
Defined.

(** C1, as the code has it.  Filter law: no heading of the final outline
    has a lower-cased, trimmed text among the eleven words [and], [or],
    [the], [of], [in], [on], [at], [to], [for], [with], [by]. *)
Theorem classify_headings_filter (lines : list FormattedLine)
    (log log' : list event) (final : list Heading) :
  classify_headings lines log = (Ok final, log') ->
  forall h, In h final ->
    ~ In (Str.strip (Str.lower (h_text h)))
        ["and"; "or"; "the"; "of"; "in"; "on"; "at"; "to"; "for"; "with"; "by"].
Proof.
  intros Hrun h Hin. apply classify_headings_ok in Hrun as (info & _ & ->).
  apply (Permutation_in _ (Permutation_sym (sorted_headings_perm _))) in Hin.
  apply filter_from_keys in Hin as [Hfp _].
  now rewrite <- elem_of_false_positives.
Qed.

Lemma classify_headings_filter_witness :
  ~ In (Str.strip (Str.lower "Alpha Function"))
      ["and"; "or"; "the"; "of"; "in"; "on"; "at"; "to"; "for"; "with"; "by"].
Proof.
  apply (classify_headings_filter doc_sections []
           [Invoked "analyze_document_structure"]
           [ {| level := H3; h_text := "Alpha Function"; h_page := 1 |};
             {| level := H3; h_text := "Zeta Function"; h_page := 1 |};
             {| level := H3; h_text := "Closing Remarks"; h_page := 2 |} ]
           ltac:(vm_compute; reflexivity)
           {| level := H3; h_text := "Alpha Function"; h_page := 1 |}).
  simpl. now left.
Defined.

(** The bold line ["A":] passes the scoring, is cleaned to [A], and stays
    in the final outline. *)
Lemma classify_headings_quoted_A :
  classify_headings doc_quoted_A [] =
  (Ok [ {| level := H3; h_text := "A"; h_page := 1 |} ],
   [Invoked "analyze_document_structure"]).
Proof. vm_compute. reflexivity. Qed.

(** C1, as stated, fails: with [a] among the stop words, the document
    [doc_quoted_A] has a final outline that breaks the law. *)
Lemma classify_headings_keeps_a :
  ~ (forall lines log log' final,
       classify_headings lines log = (Ok final, log') ->
       forall h, In h final ->
         ~ In (Str.strip (Str.lower (h_text h))) spec_stop_words).
Proof.
  intros Hlaw.
  apply (Hlaw doc_quoted_A [] _ _ classify_headings_quoted_A
           {| level := H3; h_text := "A"; h_page := 1 |}).
  - now left.
  - vm_compute. now left.
Qed.

(** C4. Ordering law: the final outline is sorted ascending by
    (page, text), the text compared character by character. *)
Theorem classify_headings_sorted (lines : list FormattedLine)
    (log log' : list event) (final : list Heading) :
  classify_headings lines log = (Ok final, log') ->
  StronglySorted heading_le final.
Proof.
  intros Hrun. apply classify_headings_ok in Hrun as (info & _ & ->).
  unfold sorted_headings, heading_le.
  apply (sort_by_sorted (fun x => (h_page x, h_text x)) page_text_ltb
           page_text_le).
  - apply page_text_lt_le.
  - apply page_text_not_lt_le.
  - apply page_text_le_trans.
Qed.

Lemma classify_headings_sorted_witness :
  StronglySorted heading_le
    [ {| level := H3; h_text := "Alpha Function"; h_page := 1 |};
      {| level := H3; h_text := "Zeta Function"; h_page := 1 |};
      {| level := H3; h_text := "Closing Remarks"; h_page := 2 |} ].
Proof.
  apply (classify_headings_sorted doc_sections []
           [Invoked "analyze_document_structure"]).
  vm_compute. reflexivity.
Defined.

(** The order within a page is that of the texts, not that of discovery:
    in [doc_sections] the line Zeta comes first (and stands higher on the
    page), and the outline lists Alpha first. *)
Lemma classify_headings_not_discovery_order :
  exists info,
    analyze_document_structure doc_sections = Ok info /\
    List.map h_text (potential_headings doc_sections info) =
      ["Zeta Function"; "Alpha Function"; "the"; "ZETA FUNCTION";
       "Closing Remarks"] /\
    fst (classify_headings doc_sections []) =
      Ok [ {| level := H3; h_text := "Alpha Function"; h_page := 1 |};
           {| level := H3; h_text := "Zeta Function"; h_page := 1 |};
           {| level := H3; h_text := "Closing Remarks"; h_page := 2 |} ].
Proof. eexists. split; [vm_compute; reflexivity|]. split; vm_compute; reflexivity. Qed.

(** ** Text normalizer *)

Lemma append_String (c : ascii) (a b : string) :
  (String c a ++ b)%string = String c (a ++ b)%string.
Proof. reflexivity. Qed.

Lemma lstrip_by_split (p : ascii -> bool) (s : string) :
  exists pre, s = (pre ++ Str.lstrip_by p s)%string /\ all_chars p pre = true.
Proof.
  induction s as [|c s (pre & Hs & Hpre)]; simpl.
  - now exists EmptyString.
  - destruct (p c) eqn:Hc.
    + exists (String c pre). simpl. rewrite Hc, Hpre, append_String, <- Hs.
      now split.
    + now exists EmptyString.
Qed.

Lemma rstrip_by_split (p : ascii -> bool) (s : string) :
  exists post, s = (Str.rstrip_by p s ++ post)%string /\ all_chars p post = true.
Proof.
  induction s as [|c s (post & Hs & Hpost)]; simpl.
  - now exists EmptyString.
  - destruct (Str.rstrip_by p s) as [|d r] eqn:Hr; simpl in *.
    + change (EmptyString ++ post)%string with post in Hs.
      destruct (p c) eqn:Hc.
      * exists (String c post). simpl. rewrite Hc, Hpost, Hs. now split.
      * exists post. rewrite append_String, Hs. now split.
    + exists post. rewrite !append_String. rewrite append_String in Hs.
      rewrite <- Hs. now split.
Qed.

Lemma lstrip_by_first (p : ascii -> bool) (s : string) (c : ascii) :
  first_char (Str.lstrip_by p s) = Some c -> p c = false.
Proof.
  induction s as [|d s IH]; simpl; [discriminate|].
  destruct (p d) eqn:Hd; [exact IH|]. simpl. now intros [= <-].
Qed.

Lemma rstrip_by_last (p : ascii -> bool) (s : string) (c : ascii) :
  last_char (Str.rstrip_by p s) = Some c -> p c = false.
Proof.
  induction s as [|d s IH]; simpl; [discriminate|].
  destruct (Str.rstrip_by p s) as [|e r] eqn:Hr; simpl in *.
  - destruct (p d) eqn:Hd; simpl; [discriminate|]. now intros [= <-].
  - exact IH.
Qed.

(** Stripping at the right end keeps the first character. *)
Lemma rstrip_by_first (p : ascii -> bool) (s : string) (c : ascii) :
  first_char (Str.rstrip_by p s) = Some c -> first_char s = Some c.
Proof.
  destruct s as [|d s]; simpl; [discriminate|].
  destruct (Str.is_empty (Str.rstrip_by p s) && p d); simpl;
    [discriminate|easy].
Qed.

(** C3, as the code has it.  [clean_heading_text] strips every leading
    and every trailing quote character: what it removes from the two
    ends of the text is made of quotes only, and what it returns neither
    starts nor ends with a quote. *)
Theorem clean_heading_text_strips_all_quotes (text : string) :
  (exists pre post,
     before_quotes text = (pre ++ clean_heading_text text ++ post)%string /\
     all_chars quote_char pre = true /\ all_chars quote_char post = true) /\
  (forall c, first_char (clean_heading_text text) = Some c ->
             quote_char c = false) /\
  (forall c, last_char (clean_heading_text text) = Some c ->
             quote_char c = false).
Proof.
  change (clean_heading_text text)
    with (Str.rstrip_by quote_char (Str.lstrip_by quote_char (before_quotes text))).
  set (t := before_quotes text).
  destruct (lstrip_by_split quote_char t) as (pre & Hpre & Hq1).
  destruct (rstrip_by_split quote_char (Str.lstrip_by quote_char t))
    as (post & Hpost & Hq2).
  split; [|split].
  - exists pre, post. split; [|easy]. now rewrite <- Hpost.
  - intros c Hc. apply rstrip_by_first in Hc. now apply lstrip_by_first in Hc.
  - intros c. apply rstrip_by_last.
Qed.

Lemma clean_heading_text_strips_all_quotes_witness : quote_char "H" = false.
Proof.
  apply (proj1 (proj2
    (clean_heading_text_strips_all_quotes (quoted (quoted "Heading"))))).
  vm_compute. reflexivity.
Defined.

(** C3, as stated, fails: of two layers of double quotes around
    [Heading] none is left. *)
Lemma clean_heading_text_two_layers :
  clean_heading_text (quoted (quoted "Heading")) = "Heading" /\
  clean_heading_text (quoted (quoted "Heading")) <> quoted "Heading".
Proof. split; [vm_compute; reflexivity|vm_compute; discriminate]. Qed.

(** ** Heading classifier: the numbered line of the scenario *)





(** ** Title identifier: an empty title *)

(** C9. [identify_title] can return the empty string: the one line of
    [doc_exclamations] is on page 1 and meets every criterion of a title
    candidate, none of its characters is alphanumeric, a hyphen, a colon
    or a period, and the title is the empty string, not the sentinel. *)
Theorem identify_title_can_be_empty :
  exists lines : list FormattedLine,
    lines <> [] /\
    (forall item, In item lines ->
       page item = 1%Z /\
       is_title_candidate item = true /\
       all_chars (fun c => negb (Char.isalnum c || Char.eqb c "-"
                                 || Char.eqb c ":" || Char.eqb c "."))
         (text item) = true) /\
    identify_title lines = "" /\
    identify_title lines <> "Untitled Document".
Proof.
  exists doc_exclamations. split; [discriminate|]. split; [|split].
  - intros item [<-|[]]. repeat split; vm_compute; reflexivity.
  - vm_compute. reflexivity.
  - vm_compute. discriminate.
Qed.

(** ** Title identifier: the fallback *)

Lemma filter_none {A : Type} (p : A -> bool) (l : list A) :
  (forall x, In x l -> p x = false) -> List.filter p l = [].
Proof.
  induction l as [|x l IH]; simpl; intros Hp; [reflexivity|].
  rewrite (Hp x) by now left. apply IH. intros y Hy. apply Hp. now right.
Qed.

(** C2, as the code has it.  When the top-10 window of the sorted page-1
    lines holds no title candidate, [identify_title] returns the fallback
    drawn from the top-5 window, with the length of the combined string
    taken before the whitespace is collapsed. *)
Theorem identify_title_fallback (lines : list FormattedLine) :
  (forall item, In item (take 10 (first_page_sorted lines)) ->
                is_title_candidate item = false) ->
  identify_title lines = fallback_title 5 false (first_page_sorted lines).
Proof.
  intros Hnone. unfold identify_title, first_page_sorted in *.
  destruct (List.filter (fun item => (page item =? 1)%Z) lines) as [|x l] eqn:Hp;
    [reflexivity|].
  set (sorted := sort_by _ _ (x :: l)) in *.
  rewrite (filter_none _ _ Hnone). simpl List.map. cbv iota.
  unfold fallback_title.
  destruct (List.map _ (List.filter is_meaningful (take 5 sorted)))
    as [|t1 [|t2 ts]]; reflexivity.
Qed.

Lemma identify_title_fallback_witness :
  identify_title doc_sixth_line = "Untitled Document".
Proof.
  rewrite (identify_title_fallback doc_sixth_line).
  - vm_compute. reflexivity.
  - intros item Hin. vm_compute in Hin.
    repeat (destruct Hin as [<-|Hin]; [vm_compute; reflexivity|]).
    destruct Hin.
Defined.

(** C2, as stated, fails twice.  In [doc_sixth_line] no title candidate
    exists and the top-10 window holds a line with two words, yet the
    title is the sentinel; in [doc_wide_spaces] the combined string has
    199 characters once collapsed, yet the title is the sentinel. *)
Lemma identify_title_not_top10_fallback :
  (List.filter is_title_candidate (take 10 (first_page_sorted doc_sixth_line)) = []
   /\ identify_title doc_sixth_line = "Untitled Document"
   /\ fallback_title 10 true (first_page_sorted doc_sixth_line) = "Hello World"
   /\ identify_title doc_sixth_line
      <> fallback_title 10 true (first_page_sorted doc_sixth_line))
  /\
  (List.filter is_title_candidate (take 10 (first_page_sorted doc_wide_spaces)) = []
   /\ identify_title doc_wide_spaces = "Untitled Document"
   /\ identify_title doc_wide_spaces
      <> fallback_title 10 true (first_page_sorted doc_wide_spaces)).
Proof.
  repeat split; try (vm_compute; reflexivity); vm_compute; discriminate.
Qed.

(** ** Structure analyzer *)

Section MaxBy.
Context {A : Type} (key : A -> nat).

Lemma max_by_in (x : A) (l : list A) : In (max_by key Nat.ltb x l) (x :: l).
Proof.
  revert x. induction l as [|y l IH]; intros x; simpl; [now left|].
  destruct (key x <? key y)%nat.
  - right. apply IH.
  - destruct (IH x) as [H|H]; [now left|now right; right].
Qed.

Lemma max_by_start (x : A) (l : list A) :
  key x <= key (max_by key Nat.ltb x l).
Proof.
  revert x. induction l as [|z l IH]; intros x; simpl; [lia|].
  destruct (Nat.ltb_spec (key x) (key z)) as [Hlt|Hge]; [|apply IH].
  pose proof (IH z). lia.
Qed.

Lemma max_by_ge (x : A) (l : list A) (y : A) :
  In y (x :: l) -> key y <= key (max_by key Nat.ltb x l).
Proof.
  revert x. induction l as [|z l IH]; intros x.
  - intros [->|[]]. simpl. lia.
  - intros [->|Hin]; [apply max_by_start|]. simpl.
    destruct (Nat.ltb_spec (key x) (key z)) as [Hlt|Hge].
    + now apply IH.
    + destruct Hin as [->|Hin].
      * pose proof (max_by_start x l). lia.
      * apply IH. now right.
Qed.
End MaxBy.

Lemma occurrences_app (x : Q) (l1 l2 : list Q) :
  occurrences x (l1 ++ l2) = occurrences x l1 + occurrences x l2.
Proof. unfold occurrences. now rewrite List.filter_app, length_app. Qed.

Lemma occurrences_Qeq (x y : Q) (l : list Q) :
  x == y -> occurrences x l = occurrences y l.
Proof.
  intros Hxy. unfold occurrences. f_equal. apply List.filter_ext. intros z.
  destruct (Qeq_bool z x) eqn:Hx, (Qeq_bool z y) eqn:Hy; try reflexivity.
  - apply Qeq_bool_iff in Hx. rewrite Hxy in Hx. apply Qeq_bool_iff in Hx.
    congruence.
  - apply Qeq_bool_iff in Hy. rewrite <- Hxy in Hy. apply Qeq_bool_iff in Hy.
    congruence.
Qed.

Lemma occurrences_pos (x : Q) (l : list Q) :
  0 < occurrences x l -> exists y, In y l /\ y == x.
Proof.
  unfold occurrences. induction l as [|z l IH]; simpl; [lia|].
  destruct (Qeq_bool z x) eqn:Hz.
  - intros _. exists z. split; [now left|now apply Qeq_bool_iff].
  - intros H. destruct (IH H) as (y & Hy & Hyx). exists y. split; [now right|easy].
Qed.

Lemma occurrences_self (x : Q) : occurrences x [x] = 1.
Proof. unfold occurrences. simpl. now rewrite Qeq_bool_refl. Qed.

Lemma occurrences_other (k x : Q) : ~ k == x -> occurrences k [x] = 0.
Proof.
  intros Hk. unfold occurrences. simpl.
  destruct (Qeq_bool x k) eqn:Hx; [|reflexivity].
  apply Qeq_bool_iff in Hx. now symmetry in Hx.
Qed.

(** What [counter_add] does to the entries of a counter. *)
Lemma counter_add_bumped (x : Q) (c : list (Q * nat)) :
  exists k n, In (k, n) (counter_add x c) /\ k == x.
Proof.
  induction c as [|[k n] c (k' & n' & Hin & Hk)]; simpl.
  - exists x, 1. split; [now left|reflexivity].
  - destruct (Qeq_bool k x) eqn:Hkx.
    + exists k, (S n). split; [now left|now apply Qeq_bool_iff].
    + exists k', n'. split; [now right|easy].
Qed.

Lemma counter_add_kept (x : Q) (c : list (Q * nat)) (k : Q) (n : nat) :
  In (k, n) c -> ~ k == x -> In (k, n) (counter_add x c).
Proof.
  induction c as [|[k0 n0] c IH]; simpl; [easy|].
  intros [[= -> ->]|Hin] Hk.
  - destruct (Qeq_bool k x) eqn:Hkx; [|now left].
    now apply Qeq_bool_iff in Hkx.
  - destruct (Qeq_bool k0 x); right; [easy|now apply IH].
Qed.

Lemma counter_add_inv (x : Q) (c : list (Q * nat)) (k : Q) (n : nat) :
  distinct_keys c -> In (k, n) (counter_add x c) ->
  (In (k, n) c /\ ~ k == x)
  \/ (k == x /\ exists m, n = S m /\ In (k, m) c)
  \/ (k = x /\ n = 1 /\ forall k' n', In (k', n') c -> ~ k' == x).
Proof.
  induction c as [|[k0 n0] c IH]; simpl.
  - intros _ [[= <- <-]|[]]. right; right. repeat split. intros ? ? [].
  - intros [Hfresh Hdist]. destruct (Qeq_bool k0 x) eqn:Hk0.
    + apply Qeq_bool_iff in Hk0. intros [[= <- <-]|Hin].
      * right; left. split; [easy|]. exists n0. split; [easy|now left].
      * left. split; [now right|]. intros Hk.
        apply (Hfresh k n Hin). now rewrite Hk, Hk0.
    + assert (Hne : ~ k0 == x).
      { intros H. apply Qeq_bool_iff in H. congruence. }
      intros [[= <- <-]|Hin]; [left; split; [now left|easy]|].
      destruct (IH Hdist Hin) as [[H1 H2]|[(H1 & m & H2 & H3)|(H1 & H2 & H3)]].
      * left. split; [now right|easy].
      * right; left. split; [easy|]. exists m. split; [easy|now right].
      * right; right. repeat split; try easy.
        intros k' n' [[= <- <-]|H']; [easy|now apply (H3 k' n')].
Qed.

Lemma counter_add_distinct (x : Q) (c : list (Q * nat)) :
  distinct_keys c -> distinct_keys (counter_add x c).
Proof.
  induction c as [|[k0 n0] c IH]; simpl.
  - intros _. split; [intros ? ? []|exact I].
  - intros [Hfresh Hdist]. destruct (Qeq_bool k0 x) eqn:Hk0; simpl.
    + split; assumption.
    + split; [|now apply IH].
      intros k' n' Hin.
      destruct (counter_add_inv x c k' n' Hdist Hin)
        as [[H1 H2]|[(H1 & m & H2 & H3)|(H1 & H2 & H3)]].
      * now apply (Hfresh k' n').
      * now apply (Hfresh k' m).
      * subst k'. intros H. symmetry in H. apply Qeq_bool_iff in H. congruence.
Qed.

(** One more element counted. *)
Lemma counts_add (c : list (Q * nat)) (l : list Q) (x : Q) :
  counts c l -> counts (counter_add x c) (l ++ [x]).
Proof.
  intros (Hc1 & Hc2 & Hc3). split; [|split].
  - intros k n Hin. rewrite occurrences_app.
    destruct (counter_add_inv x c k n Hc3 Hin)
      as [[H1 H2]|[(H1 & m & H2 & H3)|(H1 & H2 & H3)]].
    + destruct (Hc1 k n H1) as [Hk Hn]. split; [apply in_or_app; now left|].
      rewrite (occurrences_other k x H2). lia.
    + destruct (Hc1 k m H3) as [Hk Hm]. split; [apply in_or_app; now left|].
      rewrite (occurrences_Qeq k x [x] H1), occurrences_self. lia.
    + subst k n. split; [apply in_or_app; right; now left|].
      rewrite occurrences_self.
      destruct (occurrences x l) eqn:Hocc; [reflexivity|].
      destruct (occurrences_pos x l) as (y & Hy & Hyx); [lia|].
      destruct (Hc2 y Hy) as (k' & n' & Hin' & Hk').
      exfalso. apply (H3 k' n' Hin'). now rewrite Hk'.
  - intros y Hy. apply in_app_or in Hy as [Hy|[<-|[]]];
      [|apply counter_add_bumped].
    destruct (Hc2 y Hy) as (k & n & Hin & Hk).
    destruct (Qeq_dec k x) as [Hkx|Hkx].
    + destruct (counter_add_bumped x c) as (k' & n' & Hin' & Hk').
      exists k', n'. split; [easy|]. now rewrite Hk', <- Hkx.
    + exists k, n. split; [now apply counter_add_kept|easy].
  - now apply counter_add_distinct.
Qed.

Lemma Counter_counts (l : list Q) : counts (Counter l) l.
Proof.
  unfold Counter. induction l as [|x l IH] using rev_ind.
  - simpl. repeat split; easy.
  - rewrite fold_left_app. simpl. now apply counts_add.
Qed.

(** The key that [most_common(1)] returns is a mode. *)
Lemma most_common_1_mode (l : list Q) (b : Q) (n : nat) (rest : list (Q * nat)) :
  most_common_1 (Counter l) = (b, n) :: rest -> is_mode b l.
Proof.
  destruct (Counter_counts l) as (Hc1 & Hc2 & _).
  unfold most_common_1. destruct (Counter l) as [|e c] eqn:Hc; [discriminate|].
  intros [= Hmax _].
  pose proof (max_by_in snd e c) as Hin. rewrite Hmax in Hin.
  destruct (Hc1 b n Hin) as [Hb Hn]. split; [exact Hb|].
  intros x. destruct (occurrences x l) eqn:Hocc; [lia|].
  destruct (occurrences_pos x l) as (y & Hy & Hyx); [lia|].
  destruct (Hc2 y Hy) as (k & m & Hk & Hky).
  pose proof (max_by_ge snd e c (k, m) Hk) as Hle. rewrite Hmax in Hle.
  simpl in Hle. destruct (Hc1 k m Hk) as [_ Hm].
  rewrite <- Hocc, <- (occurrences_Qeq k x l) by (now rewrite Hky).
  lia.
Qed.

Lemma Counter_nonempty (l : list Q) : l <> [] -> Counter l <> [].
Proof.
  intros Hl Hc. destruct l as [|x l]; [easy|].
  destruct (Counter_counts (x :: l)) as (_ & Hc2 & _).
  destruct (Hc2 x (or_introl eq_refl)) as (k & n & Hin & _).
  rewrite Hc in Hin. destruct Hin.
Qed.

(** *** Rounding to a double *)

Section Rounding.

Local Open Scope Q_scope.

Lemma pow2_pos (k : Z) : 0 < Float64.pow2 k.
Proof. unfold Float64.pow2. apply Qpower_0_lt. reflexivity. Qed.

Lemma pow2_add (a b : Z) : Float64.pow2 (a + b) == Float64.pow2 a * Float64.pow2 b.
Proof. unfold Float64.pow2. apply Qpower_plus. discriminate. Qed.

Lemma pow2_le (a b : Z) : (a <= b)%Z -> Float64.pow2 a <= Float64.pow2 b.
Proof. intros H. unfold Float64.pow2. apply Qpower_le_compat_l; [exact H|]. discriminate. Qed.

Lemma pow2_lt_inv (a b : Z) : Float64.pow2 a < Float64.pow2 b -> (a < b)%Z.
Proof.
  intros H. destruct (Z_lt_le_dec a b) as [Hlt|Hge]; [exact Hlt|].
  apply pow2_le in Hge. lra.
Qed.

Lemma pow2_Z (k : Z) : (0 <= k)%Z -> Float64.pow2 k == inject_Z (2 ^ k).
Proof. intros H. unfold Float64.pow2. symmetry. apply (Zpower_Qpower 2 k H). Qed.

Lemma ilog2_spec (q : Q) :
  0 < q -> Float64.pow2 (Float64.ilog2 q) <= q /\ q < Float64.pow2 (Float64.ilog2 q + 1).
Proof.
  intros Hq. unfold Float64.ilog2.
  set (p := Qnum q). set (d := Zpos (Qden q)).
  assert (Hp : (0 < p)%Z) by (unfold p; destruct q as [n dd]; unfold Qlt in Hq; simpl in *; lia).
  assert (Hd : (0 < d)%Z) by (unfold d; lia).
  pose proof (Z.log2_spec p Hp) as [Hp1 Hp2].
  pose proof (Z.log2_spec d Hd) as [Hd1 Hd2].
  pose proof (Z.log2_nonneg p) as Hlp. pose proof (Z.log2_nonneg d) as Hld.
  set (lp := Z.log2 p) in *. set (ld := Z.log2 d) in *.
  assert (Hq' : q * inject_Z d == inject_Z p).
  { unfold p, d. destruct q as [n dd]. unfold Qeq, Qmult, inject_Z. simpl. lia. }
  assert (HA : Float64.pow2 lp == inject_Z (2 ^ lp)) by now apply pow2_Z.
  assert (HB : Float64.pow2 ld == inject_Z (2 ^ ld)) by now apply pow2_Z.
  assert (HP1 : Float64.pow2 lp <= inject_Z p) by (rewrite HA; now rewrite <- Zle_Qle).
  assert (HP2 : inject_Z p < 2 * Float64.pow2 lp).
  { rewrite HA. change 2 with (inject_Z 2). rewrite <- inject_Z_mult, <- Zlt_Qlt.
    rewrite Z.pow_succ_r in Hp2 by lia. lia. }
  assert (HD1 : Float64.pow2 ld <= inject_Z d) by (rewrite HB; now rewrite <- Zle_Qle).
  assert (HD2 : inject_Z d < 2 * Float64.pow2 ld).
  { rewrite HB. change 2 with (inject_Z 2). rewrite <- inject_Z_mult, <- Zlt_Qlt.
    rewrite Z.pow_succ_r in Hd2 by lia. lia. }
  pose proof (pow2_pos lp) as HlpP. pose proof (pow2_pos ld) as HldP.
  assert (Hk : Float64.pow2 (lp - ld) * Float64.pow2 ld == Float64.pow2 lp).
  { rewrite <- pow2_add. now replace (lp - ld + ld)%Z with lp by lia. }
  assert (Hk1 : Float64.pow2 (lp - ld + 1) == 2 * Float64.pow2 (lp - ld)).
  { rewrite pow2_add. change (Float64.pow2 1) with 2. ring. }
  assert (Hkm : 2 * Float64.pow2 (lp - ld - 1) == Float64.pow2 (lp - ld)).
  { replace (lp - ld)%Z with (1 + (lp - ld - 1))%Z at 2 by lia.
    rewrite pow2_add. change (Float64.pow2 1) with 2. ring. }
  pose proof (pow2_pos (lp - ld)) as HkP.
  pose proof (pow2_pos (lp - ld - 1)) as HkmP.
  set (K := Float64.pow2 (lp - ld)) in *. set (A := Float64.pow2 lp) in *. set (B := Float64.pow2 ld) in *.
  set (D := inject_Z d) in *. set (P := inject_Z p) in *.
  assert (HDpos : 0 < D) by lra.
  assert (Hupper : q < 2 * K).
  { apply Qmult_lt_r with D; [exact HDpos|]. rewrite Hq'.
    assert (2 * K * D >= 2 * K * B) by nra. nra. }
  assert (Hlower : Float64.pow2 (lp - ld - 1) < q).
  { apply Qmult_lt_r with D; [exact HDpos|]. rewrite Hq'.
    set (K' := Float64.pow2 (lp - ld - 1)) in *.
    assert (K' * D < K' * (2 * B)) by nra.
    assert (K' * (2 * B) == A) by (rewrite <- Hk, <- Hkm; ring).
    lra. }
  destruct (Qle_bool K q) eqn:Hle.
  - apply Qle_bool_iff in Hle. split; [exact Hle|]. rewrite Hk1. exact Hupper.
  - assert (Hlt : q < K).
    { apply Qnot_le_lt. intros H. apply Qle_bool_iff in H. congruence. }
    split; [lra|]. now replace (lp - ld - 1 + 1)%Z with (lp - ld)%Z by lia.
Qed.

Lemma round_half_even_spec (m : Q) :
  inject_Z (Float64.round_half_even m) - (1 # 2) <= m /\
  m <= inject_Z (Float64.round_half_even m) + (1 # 2).
Proof.
  unfold Float64.round_half_even.
  pose proof (Qfloor_le m) as H1. pose proof (Qlt_floor m) as H2.
  rewrite inject_Z_plus in H2. change (inject_Z 1) with 1 in H2.
  set (f := Qfloor m) in *.
  assert (Hf1 : inject_Z (f + 1) == inject_Z f + 1)
    by (rewrite inject_Z_plus; reflexivity).
  destruct (Qcompare_spec (m - inject_Z f) (1 # 2)) as [He|Hl|Hg].
  - destruct (Z.even f); [|rewrite Hf1]; split; lra.
  - split; lra.
  - rewrite Hf1. split; lra.
Qed.

Lemma Qabs_of_pos (q : Q) : 0 < q -> Qabs q = q.
Proof.
  destruct q as [n d]. unfold Qlt, Qabs. simpl. intros H.
  f_equal. apply Z.abs_eq. lia.
Qed.

(** Within the normal range, rounding moves a number by at most one part
    in [Float64.pow2 53]. *)
Lemma round_normal (q : Q) :
  Float64.pow2 (-1022) <= q -> q <= Float64.pow2 1023 ->
  exists v, Float64.round q = Float64.Fin v /\
            q * (1 - Float64.pow2 (-53)) <= v /\ v <= q * (1 + Float64.pow2 (-53)).
Proof.
  intros Hlo Hhi.
  assert (Hq : 0 < q) by (pose proof (pow2_pos (-1022)); lra).
  destruct (ilog2_spec q Hq) as [He1 He2].
  unfold Float64.round.
  assert (Hsign : (q ?= 0) = Gt) by now apply Qgt_alt.
  rewrite Hsign, (Qabs_of_pos q Hq).
  set (e := Float64.ilog2 q) in *.
  assert (He : (-1022 <= e)%Z).
  { assert (H : Float64.pow2 (-1022) < Float64.pow2 (e + 1)) by lra.
    apply pow2_lt_inv in H. lia. }
  replace (Z.max (e - 52) (-1074)) with (e - 52)%Z by lia.
  set (s := Float64.pow2 (e - 52)). pose proof (pow2_pos (e - 52)) as Hs. fold s in Hs.
  destruct (round_half_even_spec (q / s)) as [Hn1 Hn2].
  set (n := inject_Z (Float64.round_half_even (q / s))) in *.
  assert (Hqs : q / s * s == q) by (field; lra).
  assert (Hu : s * (1 # 2) <= q * Float64.pow2 (-53)).
  { assert (Hs2 : s == Float64.pow2 e * Float64.pow2 (-52)).
    { unfold s. rewrite <- pow2_add. now replace (e + -52)%Z with (e - 52)%Z by lia. }
    assert (H53 : Float64.pow2 (-52) * (1 # 2) == Float64.pow2 (-53)) by reflexivity.
    pose proof (pow2_pos (-53)). pose proof (pow2_pos e).
    assert (Heq : s * (1 # 2) == Float64.pow2 e * Float64.pow2 (-53)).
    { apply (Qeq_trans _ (Float64.pow2 e * (Float64.pow2 (-52) * (1 # 2)))).
      - apply (Qeq_trans _ (Float64.pow2 e * Float64.pow2 (-52) * (1 # 2))).
        + apply Qmult_comp; [exact Hs2|reflexivity].
        + apply Qeq_sym, Qmult_assoc.
      - apply Qmult_comp; [reflexivity|exact H53]. }
    apply (Qle_trans _ (Float64.pow2 e * Float64.pow2 (-53))).
    + apply Qle_lteq. right. exact Heq.
    + apply Qmult_le_compat_r; [exact He1|apply Qlt_le_weak; exact H]. }
  assert (Hv1 : q - s * (1 # 2) <= n * s) by nra.
  assert (Hv2 : n * s <= q + s * (1 # 2)) by nra.
  assert (Hfin : Qle_bool (Float64.pow2 1024) (Qred (n * s)) = false).
  { apply not_true_iff_false. intros H. apply Qle_bool_iff in H.
    rewrite Qred_correct in H.
    assert (H1024 : Float64.pow2 1024 == 2 * Float64.pow2 1023).
    { change 1024%Z with (1 + 1023)%Z. rewrite pow2_add. reflexivity. }
    assert (H53 : Float64.pow2 (-53) <= 1 # 2) by (vm_compute; discriminate).
    pose proof (pow2_pos 1023). nra. }
  rewrite Hfin. eexists. split; [reflexivity|]. rewrite Qred_correct.
  split; lra.
Qed.

End Rounding.

(** The literals of the analyzer as doubles. *)
Lemma literal_1_5 : Float64.literal 1.5 = (3 # 2)%Q.
Proof. vm_compute. reflexivity. Qed.

Lemma literal_1_3 :
  Float64.literal 1.3 = (5854679515581645 # 4503599627370496)%Q.
Proof. vm_compute. reflexivity. Qed.

Lemma literal_1_15 :
  Float64.literal 1.15 = (2589569785738035 # 2251799813685248)%Q.
Proof. vm_compute. reflexivity. Qed.

(** C8, as the code has it.  For a non-empty line set with positive
    sizes, [analyze_document_structure] returns a structure whose body
    text size is a statistical mode of the sizes and whose thresholds are
    the products, rounded to doubles, of that size with the doubles
    nearest 1.5, 1.3 and 1.15.  When the body text size lies between
    [pow2 (-1021)] and [pow2 1022], the thresholds are finite, h1 > h2 >
    h3 > 0, and each is the multiple of the body text size by 1.5, 1.3
    and 1.15 up to one part in [pow2 51]. *)
Theorem analyze_document_structure_mode (lines : list FormattedLine) :
  lines <> [] ->
  (forall item, In item lines -> (0 < size item)%Q) ->
  exists info,
    analyze_document_structure lines = Ok info /\
    is_mode (body_text_size info) (List.map size lines) /\
    h1 (size_thresholds info)
      = Float64.mul (body_text_size info) (Float64.literal 1.5) /\
    h2 (size_thresholds info)
      = Float64.mul (body_text_size info) (Float64.literal 1.3) /\
    h3 (size_thresholds info)
      = Float64.mul (body_text_size info) (Float64.literal 1.15) /\
    ((Float64.pow2 (-1021) <= body_text_size info)%Q ->
     (body_text_size info <= Float64.pow2 1022)%Q ->
     exists t1 t2 t3,
       h1 (size_thresholds info) = Float64.Fin t1 /\
       h2 (size_thresholds info) = Float64.Fin t2 /\
       h3 (size_thresholds info) = Float64.Fin t3 /\
       (t2 < t1)%Q /\ (t3 < t2)%Q /\ (0 < t3)%Q /\
       near t1 (body_text_size info * (3 # 2)) /\
       near t2 (body_text_size info * (13 # 10)) /\
       near t3 (body_text_size info * (23 # 20))).
Proof.
  intros Hne Hpos. unfold analyze_document_structure.
  destruct (most_common_1 (Counter (List.map size lines)))
    as [|[b n] rest] eqn:Hmc.
  { exfalso. unfold most_common_1 in Hmc.
    destruct (Counter (List.map size lines)) eqn:Hc; [|discriminate].
    apply (Counter_nonempty (List.map size lines)); [|exact Hc].
    destruct lines; [easy|discriminate]. }
  eexists. split; [reflexivity|]. cbn [body_text_size size_thresholds h1 h2 h3].
  pose proof (most_common_1_mode _ _ _ _ Hmc) as Hmode.
  split; [exact Hmode|]. do 3 (split; [reflexivity|]).
  intros Hlo Hhi. unfold Float64.mul.
  rewrite literal_1_5, literal_1_3, literal_1_15.
  assert (H1022 : (Float64.pow2 (-1021) == 2 * Float64.pow2 (-1022))%Q).
  { change (-1021)%Z with (1 + -1022)%Z. rewrite pow2_add. reflexivity. }
  assert (H1023 : (Float64.pow2 1023 == 2 * Float64.pow2 1022)%Q).
  { change 1023%Z with (1 + 1022)%Z. rewrite pow2_add. reflexivity. }
  pose proof (pow2_pos (-1022)) as Hp.
  destruct (round_normal (b * (3 # 2))) as (t1 & -> & Ht1); [lra|lra|].
  destruct (round_normal (b * (5854679515581645 # 4503599627370496)))
    as (t2 & -> & Ht2); [lra|lra|].
  destruct (round_normal (b * (2589569785738035 # 2251799813685248)))
    as (t3 & -> & Ht3); [lra|lra|].
  exists t1, t2, t3. do 3 (split; [reflexivity|]).
  unfold near.
  change (Float64.pow2 (-53)) with (1 # 9007199254740992)%Q in *.
  change (Float64.pow2 (-51)) with (1 # 2251799813685248)%Q.
  repeat split; lra.
Qed.

Lemma analyze_document_structure_mode_witness :
  exists info,
    analyze_document_structure doc_sizes = Ok info /\
    is_mode (body_text_size info) (List.map size doc_sizes) /\
    h1 (size_thresholds info)
      = Float64.mul (body_text_size info) (Float64.literal 1.5) /\
    h2 (size_thresholds info)
      = Float64.mul (body_text_size info) (Float64.literal 1.3) /\
    h3 (size_thresholds info)
      = Float64.mul (body_text_size info) (Float64.literal 1.15) /\
    ((Float64.pow2 (-1021) <= body_text_size info)%Q ->
     (body_text_size info <= Float64.pow2 1022)%Q ->
     exists t1 t2 t3,
       h1 (size_thresholds info) = Float64.Fin t1 /\
       h2 (size_thresholds info) = Float64.Fin t2 /\
       h3 (size_thresholds info) = Float64.Fin t3 /\
       (t2 < t1)%Q /\ (t3 < t2)%Q /\ (0 < t3)%Q /\
       near t1 (body_text_size info * (3 # 2)) /\
       near t2 (body_text_size info * (13 # 10)) /\
       near t3 (body_text_size info * (23 # 20))).
Proof.
  apply (analyze_document_structure_mode doc_sizes).
  - discriminate.
  - intros item Hin. vm_compute in Hin.
    repeat (destruct Hin as [<-|Hin]; [reflexivity|]). destruct Hin.
Defined.

(** C8, as stated, fails.  With a body text size of [pow2 (-1074)], the
    smallest positive double, the products by 1.3 and by 1.15 are the
    same double; with a body text size of 1.75 times [pow2 1023] the
    three products are the same infinity; and with a body text size of
    12 the second threshold is not 12 times 13/10. *)
Lemma analyze_document_structure_not_exact :
  (exists info,
     analyze_document_structure doc_smallest = Ok info /\
     (forall item, In item doc_smallest -> (0 < size item)%Q) /\
     h2 (size_thresholds info) = h3 (size_thresholds info) /\
     Float64.ltb (h3 (size_thresholds info)) (h2 (size_thresholds info))
       = false) /\
  (exists info,
     analyze_document_structure doc_largest = Ok info /\
     (forall item, In item doc_largest -> (0 < size item)%Q) /\
     h1 (size_thresholds info) = Float64.PInf /\
     h2 (size_thresholds info) = Float64.PInf /\
     h3 (size_thresholds info) = Float64.PInf) /\
  (exists info t2,
     analyze_document_structure doc_sizes = Ok info /\
     body_text_size info = 12%Q /\
     h2 (size_thresholds info) = Float64.Fin t2 /\
     ~ (t2 == 12 * (13 # 10))%Q).
Proof.
  split; [|split].
  - eexists. split; [vm_compute; reflexivity|]. split.
    + intros item [<-|[]]. vm_compute. reflexivity.
    + split; vm_compute; reflexivity.
  - eexists. split; [vm_compute; reflexivity|]. split.
    + intros item [<-|[]]. vm_compute. reflexivity.
    + repeat split; vm_compute; reflexivity.
  - eexists. eexists. split; [vm_compute; reflexivity|].
    split; [reflexivity|]. split; [reflexivity|].
    vm_compute. discriminate.
Qed.

(** ** Outline assembler *)

(** On an empty line set the analyzer raises, and with it the
    classifier. *)
Lemma analyze_document_structure_empty :
  analyze_document_structure [] = Raise IndexError.
Proof. reflexivity. Qed.

Lemma classify_headings_empty (log : list event) :
  classify_headings [] log =
  (Raise IndexError, log ++ [Invoked "analyze_document_structure"]).
Proof. reflexivity. Qed.

(** C6. [extract_outline] never raises.  When the line source yields no
    line, the result is the sentinel [Empty Document] and nothing is
    called after the source: neither the title identifier nor the
    classifier nor, through it, the analyzer.  When the source, the title
    identifier or the classifier raises, the failure is printed and the
    result is the sentinel [Error Processing Document].  Every result is
    one of the two sentinels or the title and the headings of a complete
    run. *)
Theorem extract_outline_boundary
    (source : string -> M (list FormattedLine))
    (identify : list FormattedLine -> M string)
    (classify : list FormattedLine -> M (list Heading))
    (pdf_path : string) (log : list event) :
  let run := extract_outline source identify classify pdf_path log in
  let started := log ++ [Invoked "extract_text_with_formatting"] in
  let failed (e : exn) (log' : list event) :=
    (Ok error_document,
     log' ++ [Printed ("Error processing " ++ pdf_path ++ ": " ++ exn_str e)]) in
  (exists result, fst run = Ok result) /\
  (forall log1, source pdf_path started = (Ok [], log1) ->
     run = (Ok empty_document, log1)) /\
  (forall e log1, source pdf_path started = (Raise e, log1) ->
     run = failed e log1) /\
  (forall lines log1 e log2,
     source pdf_path started = (Ok lines, log1) -> lines <> [] ->
     identify lines (log1 ++ [Invoked "identify_title"]) = (Raise e, log2) ->
     run = failed e log2) /\
  (forall lines log1 found log2 e log3,
     source pdf_path started = (Ok lines, log1) -> lines <> [] ->
     identify lines (log1 ++ [Invoked "identify_title"]) = (Ok found, log2) ->
     classify lines (log2 ++ [Invoked "classify_headings"]) = (Raise e, log3) ->
     run = failed e log3) /\
  (forall result, fst run = Ok result ->
     result = empty_document \/ result = error_document \/
     exists lines log1 found log2 headings log3,
       source pdf_path started = (Ok lines, log1) /\ lines <> [] /\
       identify lines (log1 ++ [Invoked "identify_title"]) = (Ok found, log2) /\
       classify lines (log2 ++ [Invoked "classify_headings"])
         = (Ok headings, log3) /\
       result = {| title := found; outline := headings |}).
Proof.
  cbv zeta.
  unfold extract_outline, try_except, bind, emit, ret, empty_document,
    error_document. simpl.
  destruct (source pdf_path (log ++ [Invoked "extract_text_with_formatting"]))
    as [[[|item lines]|e] log1] eqn:Hsource.
  - split; [now eexists|]. do 4 (split; [settle_run|]).
    intros ? [= <-]. now left.
  - destruct (identify (item :: lines) (log1 ++ [Invoked "identify_title"]))
      as [[found|e] log2] eqn:Hidentify.
    + destruct (classify (item :: lines) (log2 ++ [Invoked "classify_headings"]))
        as [[headings|e] log3] eqn:Hclassify.
      * split; [now eexists|]. do 4 (split; [settle_run|]).
        intros ? [= <-]. right; right.
        exists (item :: lines), log1, found, log2, headings, log3.
        repeat split; congruence.
      * split; [now eexists|]. do 4 (split; [settle_run|]).
        intros ? [= <-]. right; now left.
    + split; [now eexists|]. do 4 (split; [settle_run|]).
      intros ? [= <-]. right; now left.
  - split; [now eexists|]. do 4 (split; [settle_run|]).
    intros ? [= <-]. right; now left.
Qed.

Lemma extract_outline_boundary_witness :
  run source_empty "empty.pdf" [] =
    (Ok empty_document, [Invoked "extract_text_with_formatting"]) /\
  run source_broken "broken.pdf" [] =
    (Ok error_document,
     [Invoked "extract_text_with_formatting";
      Printed "Error processing broken.pdf: cannot open broken document"]).
Proof.
  split.
  - apply (extract_outline_boundary source_empty
             (fun lines => ret (identify_title lines)) classify_headings
             "empty.pdf" []).
    reflexivity.
  - apply (proj1 (proj2 (proj2 (extract_outline_boundary source_broken
             (fun lines => ret (identify_title lines)) classify_headings
             "broken.pdf" []))) (SourceError "cannot open broken document")
             [Invoked "extract_text_with_formatting"]).
    reflexivity.
Defined.

(** The extractor of the class on a source that yields no line: the
    analyzer is not in the log unless the source put it there. *)
Lemma run_empty_no_analyzer (source : string -> M (list FormattedLine))
    (pdf_path : string) (log log1 : list event) :
  source pdf_path (log ++ [Invoked "extract_text_with_formatting"])
    = (Ok [], log1) ->
  run source pdf_path log = (Ok empty_document, log1).
Proof.
  intros Hsource. unfold run, extract_outline, try_except, bind, emit, ret.
  simpl. now rewrite Hsource.
Qed.

(** A complete run of the extractor of the class. *)
Lemma run_sections :
  run source_sections "sections.pdf" [] =
  (Ok {| title := "Zeta Function Alpha Function";
         outline :=
           [ {| level := H3; h_text := "Alpha Function"; h_page := 1 |};
             {| level := H3; h_text := "Zeta Function"; h_page := 1 |};
             {| level := H3; h_text := "Closing Remarks"; h_page := 2 |} ] |},
   [ Invoked "extract_text_with_formatting"; Invoked "identify_title";
     Invoked "classify_headings"; Invoked "analyze_document_structure" ]).
Proof. vm_compute. reflexivity. Qed.


(** * Further properties of the extractor *)

(** ** Lengths and characters of the string methods *)

Lemma len_append (a b : string) :
  Str.len (a ++ b)%string = Str.len a + Str.len b.
Proof.
  unfold Str.len. induction a as [|c a IH]; [reflexivity|].
  rewrite append_String. simpl. now f_equal.
Qed.

Lemma len_map (f : ascii -> ascii) (s : string) :
  Str.len (Str.map f s) = Str.len s.
Proof. induction s as [|c s IH]; simpl; [reflexivity|]. now f_equal. Qed.

Lemma len_lstrip_by (p : ascii -> bool) (s : string) :
  Str.len (Str.lstrip_by p s) <= Str.len s.
Proof.
  induction s as [|c s IH]; simpl; [lia|].
  destruct (p c); simpl; lia.
Qed.

Lemma len_rstrip_by (p : ascii -> bool) (s : string) :
  Str.len (Str.rstrip_by p s) <= Str.len s.
Proof.
  induction s as [|c s IH]; simpl; [lia|].
  destruct (Str.is_empty (Str.rstrip_by p s) && p c); simpl in *; lia.
Qed.

Lemma len_strip (s : string) : Str.len (Str.strip s) <= Str.len s.
Proof.
  unfold Str.strip, Str.strip_by.
  pose proof (len_rstrip_by Char.isspace (Str.lstrip_by Char.isspace s)).
  pose proof (len_lstrip_by Char.isspace s). lia.
Qed.

Lemma len_join_cons (sep x : string) (rest : list string) :
  Str.len (Str.join sep (x :: rest)) <=
  Str.len x + Str.len sep + Str.len (Str.join sep rest).
Proof.
  destruct rest as [|y rest]; [simpl; lia|].
  change (Str.join sep (x :: y :: rest))
    with (x ++ sep ++ Str.join sep (y :: rest))%string.
  rewrite !len_append. lia.
Qed.

Lemma len_split_from (cur s : string) :
  Str.len (Str.join " " (Str.split_from cur s)) <= Str.len cur + Str.len s.
Proof.
  revert cur. induction s as [|c s IH]; intros cur; simpl.
  - destruct cur; simpl; lia.
  - destruct (Char.isspace c).
    + destruct cur as [|d cur].
      * simpl Str.is_empty. cbv iota. specialize (IH EmptyString). simpl in *. lia.
      * simpl Str.is_empty. cbv iota.
        pose proof (len_join_cons " " (String d cur)
                      (Str.split_from EmptyString s)) as H.
        specialize (IH EmptyString). simpl in *. lia.
    + specialize (IH (cur ++ String c EmptyString)%string).
      rewrite len_append in IH. simpl in *. lia.
Qed.

(** Collapsing the whitespace never lengthens a string. *)
Lemma len_collapse (s : string) : Str.len (Str.collapse s) <= Str.len s.
Proof. apply (len_split_from EmptyString s). Qed.

(** ** Title identifier *)

Lemma max_by_member {A K : Type} (key : A -> K) (lt : K -> K -> bool)
    (x : A) (l : list A) :
  In (max_by key lt x l) (x :: l).
Proof.
  revert x. induction l as [|y l IH]; intros x; simpl; [now left|].
  destruct (lt (key x) (key y)).
  - right. apply IH.
  - destruct (IH x) as [H|H]; [now left|now right; right].
Qed.

Lemma is_title_candidate_len (item : FormattedLine) :
  is_title_candidate item = true -> Str.len (Str.strip (text item)) <= 200.
Proof.
  unfold is_title_candidate. intros H.
  repeat (apply andb_true_iff in H as [H ?]).
  now apply Nat.leb_le.
Qed.

(** X1. Whatever the lines, the title that [identify_title] returns has
    at most 200 characters. *)
Theorem identify_title_length (lines : list FormattedLine) :
  Str.len (identify_title lines) <= 200.
Proof.
  unfold identify_title.
  destruct (List.filter (fun item => (page item =? 1)%Z) lines) as [|x l];
    [simpl; lia|].
  set (sorted := sort_by _ _ (x :: l)).
  destruct (List.map _ (List.filter is_title_candidate (take 10 sorted)))
    as [|c cs] eqn:Hcands.
  - destruct (List.map _ (List.filter is_meaningful (take 5 sorted)))
      as [|t ts]; [simpl; lia|].
    destruct (Str.len (Str.join " " (take 2 (t :: ts))) <=? 200)%nat eqn:Hlen;
      [|simpl; lia].
    apply Nat.leb_le in Hlen.
    pose proof (len_collapse (Str.join " " (take 2 (t :: ts)))). lia.
  - cbv zeta.
    pose proof (max_by_member snd Qltb c cs) as Hin. rewrite <- Hcands in Hin.
    apply in_map_iff in Hin as (item & Hitem & Hin).
    apply List.filter_In in Hin as [_ Hcand].
    apply is_title_candidate_len in Hcand.
    rewrite <- Hitem. simpl fst.
    pose proof (len_collapse
      (Re.sub_outside title_char (Str.strip (text item)))) as Hc.
    unfold Re.sub_outside in Hc. rewrite len_map in Hc.
    unfold Re.sub_outside. lia.
Qed.

Lemma all_chars_append (p : ascii -> bool) (a b : string) :
  all_chars p (a ++ b)%string = all_chars p a && all_chars p b.
Proof.
  induction a as [|c a IH]; [reflexivity|].
  rewrite append_String. simpl. rewrite IH. now rewrite andb_assoc.
Qed.

Lemma all_chars_map (p : ascii -> bool) (f : ascii -> ascii) (s : string) :
  (forall c, p (f c) = true) -> all_chars p (Str.map f s) = true.
Proof.
  intros Hf. induction s as [|c s IH]; simpl; [reflexivity|].
  now rewrite Hf, IH.
Qed.

(** The words of [split] are made of the characters of the string that
    are not whitespace. *)
Lemma split_from_words (q : ascii -> bool) (cur s : string) :
  all_chars q cur = true ->
  all_chars (fun c => Char.isspace c || q c) s = true ->
  Forall (fun w => all_chars q w = true) (Str.split_from cur s).
Proof.
  revert cur. induction s as [|c s IH]; intros cur Hcur Hs; simpl.
  - destruct (Str.is_empty cur); [constructor|now repeat constructor].
  - simpl in Hs. apply andb_true_iff in Hs as [Hc Hs].
    destruct (Char.isspace c) eqn:Hsp.
    + destruct (Str.is_empty cur); [now apply IH|].
      constructor; [exact Hcur|now apply IH].
    + apply IH; [|exact Hs].
      rewrite all_chars_append, Hcur. simpl in *. now rewrite Hc.
Qed.

Lemma join_chars (q : ascii -> bool) (words : list string) :
  q " "%char = true ->
  Forall (fun w => all_chars q w = true) words ->
  all_chars q (Str.join " " words) = true.
Proof.
  intros Hsp. induction 1 as [|w words Hw Hwords IH]; [reflexivity|].
  destruct words as [|w' words]; [exact Hw|].
  change (Str.join " " (w :: w' :: words))
    with (w ++ " " ++ Str.join " " (w' :: words))%string.
  rewrite !all_chars_append, Hw, IH. simpl. now rewrite Hsp.
Qed.

(** X2. When the top-10 window holds a title candidate, the title is
    made of word characters, hyphens, colons, periods and spaces only:
    everything else has been replaced. *)
Theorem identify_title_clean (lines : list FormattedLine) (item : FormattedLine) :
  In item (take 10 (first_page_sorted lines)) ->
  is_title_candidate item = true ->
  all_chars clean_title_char (identify_title lines) = true.
Proof.
  intros Hin Hcand. unfold identify_title, first_page_sorted in *.
  destruct (List.filter (fun item => (page item =? 1)%Z) lines) as [|x l];
    [destruct Hin|].
  set (sorted := sort_by _ _ (x :: l)) in *.
  destruct (List.map _ (List.filter is_title_candidate (take 10 sorted)))
    as [|c cs] eqn:Hcands.
  - exfalso. apply map_eq_nil in Hcands.
    assert (H : In item (List.filter is_title_candidate (take 10 sorted)))
      by (apply List.filter_In; now split).
    rewrite Hcands in H. destruct H.
  - cbv zeta. unfold Str.collapse, Str.split.
    apply join_chars; [reflexivity|].
    apply split_from_words with (q := clean_title_char); [reflexivity|].
    apply all_chars_map. intros a.
    destruct (title_char a) eqn:Hkeep; [|vm_compute; reflexivity].
    unfold title_char in Hkeep. unfold clean_title_char.
    destruct (Char.isword a), (Char.isspace a), (Char.eqb a "-"),
      (Char.eqb a ":"), (Char.eqb a "."); try reflexivity; discriminate.
Qed.

Lemma identify_title_clean_witness :
  all_chars clean_title_char (identify_title doc_report) = true.
Proof.
  apply (identify_title_clean doc_report
           (line "Quarterly Report (2024)" 1 20 false 100)).
  - vm_compute. right. now left.
  - vm_compute. reflexivity.
Defined.

(** ** Heading classifier *)

Lemma analyze_document_structure_defined (lines : list FormattedLine) :
  lines <> [] -> exists info, analyze_document_structure lines = Ok info.
Proof.
  intros Hne. unfold analyze_document_structure.
  destruct (most_common_1 (Counter (List.map size lines)))
    as [|[b n] rest] eqn:Hmc; [|now eexists].
  exfalso. unfold most_common_1 in Hmc.
  destruct (Counter (List.map size lines)) eqn:Hc; [|discriminate].
  apply (Counter_nonempty (List.map size lines)); [|exact Hc].
  destruct lines; [easy|discriminate].
Qed.

(** X3. [classify_headings] raises exactly on the empty line list, where
    the analyzer takes the first entry of an empty counter; on any other
    list it returns an outline. *)
Theorem classify_headings_raises_iff_empty (lines : list FormattedLine)
    (log : list event) :
  (lines = [] <-> fst (classify_headings lines log) = Raise IndexError) /\
  (lines <> [] <-> exists final, fst (classify_headings lines log) = Ok final).
Proof.
  rewrite classify_headings_run.
  destruct lines as [|item lines].
  - simpl. split; split; try easy. intros [final H]. discriminate.
  - destruct (analyze_document_structure_defined (item :: lines))
      as [info ->]; [discriminate|].
    simpl. split; split; try easy. intros _. now eexists.
Qed.

Lemma potential_headings_in (lines : list FormattedLine) (info : StructureInfo)
    (h : Heading) :
  In h (potential_headings lines info) <->
  exists item, In item lines /\ is_likely_heading item info = true /\
               clean_heading_text (text item) <> EmptyString /\
               h = heading_of item info.
Proof.
  unfold potential_headings. rewrite in_flat_map. split.
  - intros (item & Hin & Hh). exists item. split; [exact Hin|].
    destruct (is_likely_heading item info); [|destruct Hh].
    destruct (clean_heading_text (text item)) eqn:Hclean; [destruct Hh|].
    destruct Hh as [<-|[]]. unfold heading_of. rewrite Hclean. now repeat split.
  - intros (item & Hin & Hlikely & Hclean & ->). exists item.
    split; [exact Hin|]. rewrite Hlikely. unfold heading_of.
    destruct (clean_heading_text (text item)); [easy|now left].
Qed.

Lemma length_potential_headings (lines : list FormattedLine) (info : StructureInfo) :
  length (potential_headings lines info) <= length lines.
Proof.
  unfold potential_headings. induction lines as [|item lines IH]; simpl; [lia|].
  rewrite length_app.
  destruct (is_likely_heading item info); simpl; [|lia].
  destruct (Str.is_empty (clean_heading_text (text item))); simpl; lia.
Qed.

(** X4. Every heading of the final outline is made of a line of the
    input that [is_likely_heading] accepts: it has the page of the line,
    the cleaned text of the line, which is not empty, and the level that
    [determine_heading_level] gives the line.  The outline has no more
    headings than there are lines. *)
Theorem classify_headings_sound (lines : list FormattedLine)
    (log log' : list event) (final : list Heading) :
  classify_headings lines log = (Ok final, log') ->
  length final <= length lines /\
  exists info,
    analyze_document_structure lines = Ok info /\
    forall h, In h final ->
      h_text h <> EmptyString /\
      exists item,
        In item lines /\ is_likely_heading item info = true /\
        h_page h = page item /\
        h_text h = clean_heading_text (text item) /\
        level h = determine_heading_level item info.
Proof.
  intros Hrun. apply classify_headings_ok in Hrun as (info & Hinfo & ->).
  pose proof (sorted_headings_perm
    (filter_and_deduplicate_headings (potential_headings lines info))) as Hperm.
  split.
  - rewrite <- (Permutation_length Hperm).
    pose proof (sublist_length _ _
      (filter_from_sublist ∅ (potential_headings lines info))).
    pose proof (length_potential_headings lines info).
    unfold filter_and_deduplicate_headings. lia.
  - exists info. split; [exact Hinfo|]. intros h Hin.
    apply (Permutation_in _ (Permutation_sym Hperm)) in Hin.
    apply list_elem_of_In in Hin.
    apply (sublist_subseteq _ _ (filter_from_sublist ∅ _)) in Hin.
    apply list_elem_of_In, potential_headings_in in Hin
      as (item & Hitem & Hlikely & Hclean & ->).
    split; [exact Hclean|]. exists item. now repeat split.
Qed.

Lemma classify_headings_sound_witness :
  length [ {| level := H3; h_text := "Alpha Function"; h_page := 1 |};
           {| level := H3; h_text := "Zeta Function"; h_page := 1 |};
           {| level := H3; h_text := "Closing Remarks"; h_page := 2 |} ]
  <= length doc_sections.
Proof.
  apply (classify_headings_sound doc_sections []
           [Invoked "analyze_document_structure"]).
  vm_compute. reflexivity.
Defined.

(** X5. Nothing but false positives and repetitions is lost: a line that
    [is_likely_heading] accepts, whose cleaned text is not empty and not
    one of the eleven false positives, has a heading with its key in the
    final outline. *)
Theorem classify_headings_complete (lines : list FormattedLine)
    (log log' : list event) (final : list Heading)
    (info : StructureInfo) (item : FormattedLine) :
  classify_headings lines log = (Ok final, log') ->
  analyze_document_structure lines = Ok info ->
  In item lines ->
  is_likely_heading item info = true ->
  clean_heading_text (text item) <> EmptyString ->
  ~ In (Str.strip (Str.lower (clean_heading_text (text item))))
      ["and"; "or"; "the"; "of"; "in"; "on"; "at"; "to"; "for"; "with"; "by"] ->
  exists h,
    In h final /\
    Str.strip (Str.lower (h_text h)) =
      Str.strip (Str.lower (clean_heading_text (text item))).
Proof.
  intros Hrun Hinfo Hitem Hlikely Hclean Hfp.
  apply classify_headings_ok in Hrun as (info' & Hinfo' & ->).
  assert (info' = info) as -> by congruence.
  assert (Hcand : In (heading_of item info) (potential_headings lines info)).
  { apply potential_headings_in. exists item. now repeat split. }
  destruct (filter_from_complete ∅ _ _ Hcand) as [Hseen|Hkey].
  - now rewrite elem_of_false_positives.
  - now apply elem_of_empty in Hseen.
  - apply in_map_iff in Hkey as (h & Hk & Hin). exists h. split; [|exact Hk].
    now apply (Permutation_in _ (sorted_headings_perm _)).
Qed.

Lemma classify_headings_complete_witness :
  exists h,
    In h [ {| level := H3; h_text := "Alpha Function"; h_page := 1 |};
           {| level := H3; h_text := "Zeta Function"; h_page := 1 |};
           {| level := H3; h_text := "Closing Remarks"; h_page := 2 |} ] /\
    Str.strip (Str.lower (h_text h)) =
      Str.strip (Str.lower (clean_heading_text "ZETA FUNCTION")).
Proof.
  apply (classify_headings_complete doc_sections []
           [Invoked "analyze_document_structure"] _
           {| body_text_size := 12;
              size_thresholds := thresholds_of 12;
              all_sizes := [12%Q] |}
           (line "ZETA FUNCTION" 2 12 true 100)).
  - vm_compute. reflexivity.
  - vm_compute. reflexivity.
  - vm_compute. do 3 right. now left.
  - vm_compute. reflexivity.
  - vm_compute. discriminate.
  - vm_compute. intuition discriminate.
Defined.

(** A list whose keys are new, pairwise different and no false positives
    passes the filter whole. *)
Lemma filter_from_fixed (seen : gset string) (headings : list Heading) :
  NoDup (List.map dedup_key headings) ->
  (forall h, In h headings ->
     (dedup_key h ∉ false_positives) /\ (dedup_key h ∉ seen)) ->
  filter_from seen headings = headings.
Proof.
  revert seen. induction headings as [|x rest IH]; intros seen Hnd Hk;
    [reflexivity|].
  simpl in *. apply NoDup_cons in Hnd as [Hx Hnd].
  destruct (Hk x (or_introl eq_refl)) as [Hfp Hseen].
  repeat case_decide; try tauto. f_equal. apply IH; [exact Hnd|].
  intros h Hh. destruct (Hk h (or_intror Hh)) as [H1 H2]. split; [exact H1|].
  intros Hin. apply elem_of_union in Hin as [Hin|Hin]; [tauto|].
  apply elem_of_singleton in Hin. apply Hx. rewrite <- Hin.
  apply list_elem_of_In, in_map_iff. now exists h.
Qed.

(** X6. Filtering twice is filtering once. *)
Theorem filter_and_deduplicate_headings_idempotent (headings : list Heading) :
  filter_and_deduplicate_headings (filter_and_deduplicate_headings headings) =
  filter_and_deduplicate_headings headings.
Proof.
  unfold filter_and_deduplicate_headings. apply filter_from_fixed.
  - apply filter_from_NoDup.
  - intros h Hin. apply filter_from_keys in Hin as [Hfp _].
    split; [exact Hfp|apply not_elem_of_empty].
Qed.

Lemma Qltb_lt (a b : Q) : Qltb a b = true <-> (a < b)%Q.
Proof.
  unfold Qltb. rewrite negb_true_iff. split.
  - intros H. apply Qnot_le_lt. intros Hle. apply Qle_bool_iff in Hle. congruence.
  - intros H. destruct (Qle_bool b a) eqn:Hle; [|reflexivity].
    apply Qle_bool_iff in Hle. apply Qlt_not_le in H. tauto.
Qed.

Lemma Qltb_ge (a b : Q) : Qltb a b = false <-> (b <= a)%Q.
Proof.
  unfold Qltb. rewrite negb_false_iff. apply Qle_bool_iff.
Qed.

Lemma ltb_Fin_mono (t : Float64.xfloat) (a b : Q) :
  (a <= b)%Q ->
  Float64.ltb t (Float64.Fin a) = true -> Float64.ltb t (Float64.Fin b) = true.
Proof.
  intros Hab. destruct t as [q| |]; simpl; [|easy|easy].
  intros H. apply (proj1 (Qltb_lt q a)) in H. apply (proj2 (Qltb_lt q b)).
  lra.
Qed.

Lemma leb_Fin_mono (t : Float64.xfloat) (a b : Q) :
  (a <= b)%Q ->
  Float64.leb t (Float64.Fin a) = true -> Float64.leb t (Float64.Fin b) = true.
Proof.
  intros Hab. unfold Float64.leb. destruct t as [q| |]; simpl; [|easy|easy].
  rewrite !negb_involutive. intros H. apply Qle_bool_iff in H.
  apply Qle_bool_iff. lra.
Qed.

(** X7. More emphasis never loses a heading: of two lines with the same
    text, the one that is at least as large, and bold if the other is,
    has at least the score of the other, and is a heading if the other
    is. *)
Theorem is_likely_heading_monotone (a b : FormattedLine) (info : StructureInfo) :
  text a = text b ->
  (size a <= size b)%Q ->
  (is_bold a = true -> is_bold b = true) ->
  indicators a info <= indicators b info /\
  (is_likely_heading a info = true -> is_likely_heading b info = true).
Proof.
  intros Htext Hsize Hbold.
  assert (Hscore : indicators a info <= indicators b info).
  { unfold indicators. rewrite Htext.
    assert (Hs : (if Float64.ltb (h3 (size_thresholds info))
                       (Float64.Fin (size a)) then 2
                  else if Qltb (body_text_size info) (size a) then 1 else 0)
                 <= (if Float64.ltb (h3 (size_thresholds info))
                          (Float64.Fin (size b)) then 2
                     else if Qltb (body_text_size info) (size b) then 1 else 0)).
    { destruct (Float64.ltb (h3 (size_thresholds info)) (Float64.Fin (size a)))
        eqn:Ha3.
      - now rewrite (ltb_Fin_mono _ _ _ Hsize Ha3).
      - destruct (Float64.ltb (h3 (size_thresholds info))
                    (Float64.Fin (size b))); [destruct (Qltb _ _); lia|].
        destruct (Qltb (body_text_size info) (size a)) eqn:Ha; [|lia].
        apply Qltb_lt in Ha.
        assert (Hb : Qltb (body_text_size info) (size b) = true)
          by (apply Qltb_lt; lra).
        now rewrite Hb. }
    assert (Hb : (if is_bold a then 2 else 0) <= (if is_bold b then 2 else 0)).
    { destruct (is_bold a); [rewrite Hbold by reflexivity; lia|].
      destruct (is_bold b); lia. }
    lia. }
  split; [exact Hscore|].
  unfold is_likely_heading. rewrite Htext.
  destruct (rejected (Str.strip (text b))); [easy|].
  intros H. apply Nat.leb_le in H. apply Nat.leb_le. lia.
Qed.

Lemma is_likely_heading_monotone_witness :
  indicators (line "Closing Remarks" 2 12 false 200) info_body_12
  <= indicators (line "Closing Remarks" 2 14 true 200) info_body_12.
Proof.
  apply (is_likely_heading_monotone (line "Closing Remarks" 2 12 false 200)
           (line "Closing Remarks" 2 14 true 200) info_body_12).
  - reflexivity.
  - vm_compute. discriminate.
  - reflexivity.
Defined.

(** X8. A bold line of 5 to 100 characters and at most 10 words that
    meets none of the early rejections is a heading, whatever its size
    and its text. *)
Theorem is_likely_heading_bold_short (item : FormattedLine) (info : StructureInfo) :
  is_bold item = true ->
  rejected (Str.strip (text item)) = false ->
  5 <= Str.len (Str.strip (text item)) <= 100 ->
  length (Str.split (Str.strip (text item))) <= 10 ->
  is_likely_heading item info = true.
Proof.
  intros Hbold Hrej [Hlo Hhi] Hwords.
  unfold is_likely_heading. rewrite Hrej. apply Nat.leb_le.
  unfold indicators. rewrite Hbold.
  apply Nat.leb_le in Hlo, Hhi, Hwords. rewrite Hlo, Hhi, Hwords. simpl.
  lia.
Qed.

Lemma is_likely_heading_bold_short_witness :
  is_likely_heading (line "see the note below" 3 9 true 400) info_body_12 = true.
Proof.
  apply is_likely_heading_bold_short.
  - reflexivity.
  - vm_compute. reflexivity.
  - vm_compute. split; lia.
  - vm_compute. lia.
Defined.

(** X9. For one text, the level never gets deeper as the size grows: a
    line at least as large as another of the same text has a level at
    least as coarse, whatever the thresholds are. *)
Theorem determine_heading_level_monotone (a b : FormattedLine)
    (info : StructureInfo) :
  text a = text b ->
  (size a <= size b)%Q ->
  level_rank (determine_heading_level b info)
  <= level_rank (determine_heading_level a info).
Proof.
  intros Htext Hsize. unfold determine_heading_level. rewrite Htext.
  repeat match goal with
         | |- context [if Re.match_ ?r ?t then _ else _] =>
             destruct (Re.match_ r t); [simpl; lia|]
         end.
  destruct (Float64.leb (h1 (size_thresholds info)) (Float64.Fin (size a)))
    eqn:Ha1.
  { now rewrite (leb_Fin_mono _ _ _ Hsize Ha1). }
  destruct (Float64.leb (h2 (size_thresholds info)) (Float64.Fin (size a)))
    eqn:Ha2.
  { rewrite (leb_Fin_mono _ _ _ Hsize Ha2).
    destruct (Float64.leb (h1 (size_thresholds info)) (Float64.Fin (size b)));
      simpl; lia. }
  destruct (Float64.leb (h1 (size_thresholds info)) (Float64.Fin (size b))),
           (Float64.leb (h2 (size_thresholds info)) (Float64.Fin (size b)));
    simpl; lia.
Qed.

Lemma determine_heading_level_monotone_witness :
  level_rank (determine_heading_level (line "Closing Remarks" 2 18 true 200)
                info_body_12)
  <= level_rank (determine_heading_level (line "Closing Remarks" 2 12 true 200)
                   info_body_12).
Proof.
  apply determine_heading_level_monotone.
  - reflexivity.
  - vm_compute. discriminate.
Defined.

(** ** Structure analyzer: the distinct sizes *)

Lemma distinct_in (l : list Q) (x : Q) : In x (distinct l) -> In x l.
Proof.
  revert x. induction l as [|y l IH]; intros x; simpl; [easy|].
  intros [<-|Hin]; [now left|]. apply List.filter_In in Hin as [Hin _].
  right. now apply IH.
Qed.

Lemma distinct_covers (l : list Q) (x : Q) :
  In x l -> exists y, In y (distinct l) /\ y == x.
Proof.
  induction l as [|z l IH]; simpl; [easy|].
  intros [<-|Hin]; [exists z; split; [now left|reflexivity]|].
  destruct (IH Hin) as (y & Hy & Hyx).
  destruct (Qeq_bool z y) eqn:Hzy.
  - apply Qeq_bool_iff in Hzy. exists z. split; [now left|]. now rewrite Hzy.
  - exists y. split; [|exact Hyx]. right. apply List.filter_In.
    now rewrite Hzy.
Qed.

Lemma all_distinct_filter (p : Q -> bool) (l : list Q) :
  all_distinct l -> all_distinct (List.filter p l).
Proof.
  induction l as [|x l IH]; simpl; [easy|]. intros [Hx Hl].
  destruct (p x); simpl; [|now apply IH].
  split; [|now apply IH].
  intros y Hy. apply List.filter_In in Hy as [Hy _]. now apply Hx.
Qed.

Lemma distinct_all_distinct (l : list Q) : all_distinct (distinct l).
Proof.
  induction l as [|x l IH]; simpl; [exact I|]. split.
  - intros y Hy. apply List.filter_In in Hy as [_ Hy].
    apply negb_true_iff in Hy. intros Hyx. symmetry in Hyx.
    apply Qeq_bool_iff in Hyx. congruence.
  - now apply all_distinct_filter.
Qed.

Lemma insert_descending (x : Q) (l : list Q) :
  StronglySorted (fun a b => (b < a)%Q) l ->
  (forall y, In y l -> ~ y == x) ->
  StronglySorted (fun a b => (b < a)%Q)
    (insert_by (fun x => x) (fun a b => Qltb b a) x l).
Proof.
  induction 1 as [|y l Hl IH Hy]; intros Hx; simpl.
  - repeat constructor.
  - assert (Hne : ~ y == x) by (apply Hx; now left).
    destruct (Qltb x y) eqn:Hlt.
    + apply Qltb_lt in Hlt. constructor.
      * apply IH. intros z Hz. apply Hx. now right.
      * rewrite <- (insert_by_perm (fun x => x) (fun a b => Qltb b a)).
        now constructor.
    + apply Qltb_ge in Hlt.
      assert (Hyx : (y < x)%Q).
      { apply Qle_lteq in Hlt as [Hlt|Heq]; [exact Hlt|tauto]. }
      constructor; [now constructor|]. constructor; [exact Hyx|].
      eapply Forall_impl; [exact Hy|]. intros z Hz. simpl in *. lra.
Qed.

Lemma sort_descending (l : list Q) :
  all_distinct l ->
  StronglySorted (fun a b => (b < a)%Q)
    (sort_by (fun x => x) (fun a b => Qltb b a) l).
Proof.
  induction l as [|x l IH]; simpl; [constructor|]. intros [Hx Hl].
  apply insert_descending; [now apply IH|].
  intros y Hy. apply Hx.
  now apply (Permutation_in _ (Permutation_sym
    (sort_by_perm (fun x => x) (fun a b => Qltb b a) l))).
Qed.

(** X10. [all_sizes] lists the sizes of the document in strictly
    descending order: each of its members is the size of a line, each
    size of a line is equal to one of its members, and the body text size
    is among them. *)
Theorem analyze_document_structure_all_sizes (lines : list FormattedLine)
    (info : StructureInfo) :
  analyze_document_structure lines = Ok info ->
  StronglySorted (fun a b => (b < a)%Q) (all_sizes info) /\
  (forall x, In x (all_sizes info) -> exists item, In item lines /\ size item = x) /\
  (forall item, In item lines ->
     exists x, In x (all_sizes info) /\ x == size item) /\
  (exists x, In x (all_sizes info) /\ x == body_text_size info).
Proof.
  unfold analyze_document_structure.
  destruct (most_common_1 (Counter (List.map size lines)))
    as [|[b n] rest] eqn:Hmc; [discriminate|].
  intros [= <-]. simpl.
  set (sorted := sort_by _ _ (distinct (List.map size lines))).
  assert (Hperm : Permutation (distinct (List.map size lines)) sorted)
    by apply sort_by_perm.
  assert (Hcover : forall x, In x (List.map size lines) ->
            exists y, In y sorted /\ y == x).
  { intros x Hx. destruct (distinct_covers _ _ Hx) as (y & Hy & Hyx).
    exists y. split; [|exact Hyx]. now apply (Permutation_in _ Hperm). }
  split; [|split; [|split]].
  - apply sort_descending, distinct_all_distinct.
  - intros x Hx. apply (Permutation_in _ (Permutation_sym Hperm)) in Hx.
    apply distinct_in, in_map_iff in Hx as (item & Hi & Hin). now exists item.
  - intros item Hin. apply Hcover. now apply in_map.
  - apply Hcover. now destruct (most_common_1_mode _ _ _ _ Hmc).
Qed.

Lemma analyze_document_structure_all_sizes_witness :
  StronglySorted (fun a b => (b < a)%Q) [18%Q; 12%Q].
Proof.
  apply (analyze_document_structure_all_sizes doc_sizes
           {| body_text_size := 12;
              size_thresholds := thresholds_of 12;
              all_sizes := [18%Q; 12%Q] |}).
  vm_compute. reflexivity.
Defined.

(** ** The extractor of the class *)

(** X11. With the methods of the class, a document whose lines the
    source could read never ends in the error sentinel: the result is the
    title and the outline of the lines, nothing is printed, and the log
    shows the calls of the title identifier, the classifier and the
    analyzer, in this order. *)
Theorem run_reads_to_the_end (source : string -> M (list FormattedLine))
    (pdf_path : string) (log log1 : list event) (lines : list FormattedLine) :
  source pdf_path (log ++ [Invoked "extract_text_with_formatting"])
    = (Ok lines, log1) ->
  lines <> [] ->
  exists info,
    analyze_document_structure lines = Ok info /\
    run source pdf_path log =
    (Ok {| title := identify_title lines;
           outline := sorted_headings
             (filter_and_deduplicate_headings (potential_headings lines info)) |},
     log1 ++ [Invoked "identify_title"; Invoked "classify_headings";
              Invoked "analyze_document_structure"]).
Proof.
  intros Hsource Hne.
  destruct (analyze_document_structure_defined lines Hne) as [info Hinfo].
  exists info. split; [exact Hinfo|].
  unfold run, extract_outline, try_except, bind, emit, ret. simpl.
  rewrite Hsource. destruct lines as [|item lines]; [easy|].
  rewrite classify_headings_run, Hinfo. simpl.
  now rewrite <- !app_assoc.
Qed.

Lemma run_reads_to_the_end_witness :
  exists info,
    analyze_document_structure doc_sections = Ok info /\
    run source_sections "sections.pdf" [] =
    (Ok {| title := identify_title doc_sections;
           outline := sorted_headings
             (filter_and_deduplicate_headings
                (potential_headings doc_sections info)) |},
     [Invoked "extract_text_with_formatting"] ++
     [Invoked "identify_title"; Invoked "classify_headings";
      Invoked "analyze_document_structure"]).
Proof.
  apply (run_reads_to_the_end source_sections "sections.pdf" []).
  - reflexivity.
  - discriminate.
Defined.

(** ** The line source *)

Lemma strip_first (s : string) (c : ascii) :
  first_char (Str.strip s) = Some c -> Char.isspace c = false.
Proof.
  unfold Str.strip, Str.strip_by. intros H.
  apply rstrip_by_first in H. now apply lstrip_by_first in H.
Qed.

Lemma strip_last (s : string) (c : ascii) :
  last_char (Str.strip s) = Some c -> Char.isspace c = false.
Proof. apply rstrip_by_last. Qed.

Lemma split_from_nonempty (cur s : string) :
  Str.is_empty cur = false -> Str.split_from cur s <> [].
Proof.
  revert cur. induction s as [|c s IH]; intros cur Hcur; simpl.
  - now rewrite Hcur.
  - destruct (Char.isspace c); [now rewrite Hcur|].
    apply IH. now destruct cur.
Qed.

Lemma split_nonempty (s : string) (c : ascii) :
  first_char s = Some c -> Char.isspace c = false -> Str.split s <> [].
Proof.
  destruct s as [|d s]; simpl; [discriminate|]. intros [= ->] Hc.
  unfold Str.split. simpl. rewrite Hc. now apply split_from_nonempty.
Qed.

Lemma lstrip_by_fixed (p : ascii -> bool) (s : string) :
  (forall c, first_char s = Some c -> p c = false) -> Str.lstrip_by p s = s.
Proof.
  destruct s as [|c s]; simpl; [reflexivity|].
  intros H. now rewrite (H c eq_refl).
Qed.

Lemma rstrip_by_fixed (p : ascii -> bool) (s : string) :
  (forall c, last_char s = Some c -> p c = false) -> Str.rstrip_by p s = s.
Proof.
  induction s as [|c s IH]; simpl; [reflexivity|].
  destruct s as [|d s].
  - intros H. simpl. now rewrite (H c eq_refl).
  - intros H. rewrite IH by exact H. reflexivity.
Qed.

(** Stripping a stripped string changes nothing. *)
Lemma strip_strip (s : string) : Str.strip (Str.strip s) = Str.strip s.
Proof.
  unfold Str.strip at 1. unfold Str.strip_by.
  rewrite (lstrip_by_fixed _ _ (strip_first s)).
  apply rstrip_by_fixed, strip_last.
Qed.

(** What an entry made of one line looks like. *)
Lemma format_line_entry (set_order : list string -> list string)
    (np_mean : list Q -> Q)
    (page_num : Z) (line : TextLine) (item : FormattedLine) :
  In item (format_line set_order np_mean page_num line) ->
  3 <= Str.len (text item) /\
  Str.strip (text item) = text item /\
  page item = (page_num + 1)%Z /\
  line_count item = length (Str.split (text item)) /\
  1 <= line_count item /\
  bbox item = line_bbox line.
Proof.
  unfold format_line.
  set (t := Str.strip (fold_left _ (contributing line) EmptyString)).
  destruct (negb (Str.is_empty t) && (2 <? Str.len t)%nat) eqn:Hkeep; [|easy].
  intros [<-|[]]. simpl.
  apply andb_true_iff in Hkeep as [Hne Hlen]. apply Nat.ltb_lt in Hlen.
  repeat split; try easy; try lia.
  - apply strip_strip.
  - destruct t as [|c t'] eqn:Ht; [discriminate|].
    assert (Hc : Char.isspace c = false).
    { apply (strip_first (fold_left
        (fun acc span => acc ++ (Str.strip (span_text span) ++ " "))%string
        (contributing line) EmptyString)).
      fold t. now rewrite Ht. }
    pose proof (split_nonempty (String c t') c eq_refl Hc).
    destruct (Str.split (String c t')); [easy|simpl; lia].
Qed.

(** An entry of the result comes from a line of a block of a page. *)
Lemma entries_entry (set_order : list string -> list string)
    (np_mean : list Q -> Q)
    (page_num : Z) (doc : list Page) (item : FormattedLine) :
  In item (entries set_order np_mean page_num doc) ->
  exists (k : nat) (page : Page) (lines : list TextLine) (line : TextLine),
    doc !! k = Some page /\ In (Some lines) page /\ In line lines /\
    In item (format_line set_order np_mean (page_num + Z.of_nat k) line).
Proof.
  revert page_num. induction doc as [|page rest IH]; intros page_num; simpl;
    [easy|].
  intros Hin. apply in_app_or in Hin as [Hin|Hin].
  - apply in_flat_map in Hin as ([lines|] & Hblock & Hin); [|destruct Hin].
    apply in_flat_map in Hin as (line & Hline & Hin).
    exists 0, page, lines, line. rewrite Z.add_0_r. now repeat split.
  - apply IH in Hin as (k & page' & lines & line & Hk & Hb & Hl & Hin).
    exists (S k), page', lines, line. repeat split; try easy.
    now replace (page_num + Z.of_nat (S k))%Z
      with (page_num + 1 + Z.of_nat k)%Z by lia.
Qed.

Lemma entries_page (set_order : list string -> list string)
    (np_mean : list Q -> Q)
    (page_num : Z) (doc : list Page) (item : FormattedLine) :
  In item (entries set_order np_mean page_num doc) ->
  (page_num + 1 <= page item <= page_num + Z.of_nat (length doc))%Z.
Proof.
  intros Hin.
  apply entries_entry in Hin as (k & pg & lines & line & Hk & _ & _ & Hin).
  apply format_line_entry in Hin as (_ & _ & Hpage & _).
  apply lookup_lt_Some in Hk. lia.
Qed.

Lemma StronglySorted_append {A : Type} (R : A -> A -> Prop) (l1 l2 : list A) :
  (forall x1 x2, In x1 l1 -> In x2 l2 -> R x1 x2) ->
  StronglySorted R l1 -> StronglySorted R l2 -> StronglySorted R (l1 ++ l2).
Proof.
  intros Hcross H1 H2. induction H1 as [|x l Hl IH Hx]; simpl; [exact H2|].
  constructor.
  - apply IH. intros x1 x2 Hx1. apply Hcross. now right.
  - apply List.Forall_forall. intros y Hy. apply in_app_or in Hy as [Hy|Hy].
    + rewrite List.Forall_forall in Hx. now apply Hx.
    + apply Hcross; [now left|exact Hy].
Qed.

Lemma entries_sorted (set_order : list string -> list string)
    (np_mean : list Q -> Q)
    (page_num : Z) (doc : list Page) :
  StronglySorted Z.le (List.map page (entries set_order np_mean page_num doc)).
Proof.
  revert page_num. induction doc as [|pg rest IH]; intros page_num; simpl;
    [constructor|].
  rewrite List.map_app. apply StronglySorted_append; [| |apply IH].
  - intros p1 p2 H1 H2.
    apply in_map_iff in H1 as (i1 & <- & H1).
    apply in_map_iff in H2 as (i2 & <- & H2).
    apply entries_page in H2.
    assert (Hp : page i1 = (page_num + 1)%Z).
    { apply in_flat_map in H1 as ([lines|] & _ & H1); [|destruct H1].
      apply in_flat_map in H1 as (line & _ & H1).
      now apply format_line_entry in H1. }
    lia.
  - assert (Hall : Forall (fun p => p = (page_num + 1)%Z)
              (List.map page (flat_map (format_block set_order np_mean page_num) pg))).
    { apply List.Forall_forall. intros p Hp.
      apply in_map_iff in Hp as (i1 & <- & H1).
      apply in_flat_map in H1 as ([lines|] & _ & H1); [|destruct H1].
      apply in_flat_map in H1 as (line & _ & H1).
      now apply format_line_entry in H1. }
    induction Hall as [|p l Hp Hl IHl]; constructor; [exact IHl|].
    eapply Forall_impl; [exact Hl|]. intros q ->. lia.
Qed.

(** What the loop over the pages returns: the list built so far,
    followed by the entries of the pages handed over. *)
Lemma format_pages_ok (set_order : list string -> list string)
    (np_mean : list Q -> Q) (fitz : PyMuPDF) (doc : document fitz)
    (n s : nat) (formatted_text lines : list FormattedLine)
    (log log' : list event) :
  format_pages set_order np_mean fitz doc (List.map Z.of_nat (seq s n))
    formatted_text log = (Ok lines, log') ->
  exists pages,
    length pages = n /\
    decoded fitz doc (List.map Z.of_nat (seq s n)) log pages log' /\
    lines = formatted_text ++ entries set_order np_mean (Z.of_nat s) pages.
Proof.
  revert s formatted_text log. induction n as [|n IH]; intros s acc log.
  - simpl. unfold ret. intros [= <- <-]. exists []. simpl.
    rewrite app_nil_r. repeat split. constructor.
  - cbn [seq List.map format_pages]. unfold bind at 1.
    destruct (getitem fitz doc (Z.of_nat s) log) as [[handle|e] log1] eqn:Hget;
      [|discriminate].
    unfold bind at 1.
    destruct (get_text fitz handle log1) as [[pg|e] log2] eqn:Htext;
      [|discriminate].
    intros Hrun. apply IH in Hrun as (pages & Hlen & Hdec & ->).
    exists (pg :: pages). split; [simpl; now rewrite Hlen|]. split.
    + econstructor; eassumption.
    + cbn [entries]. rewrite <- app_assoc.
      now replace (Z.of_nat s + 1)%Z with (Z.of_nat (S s)) by lia.
Qed.

(** A run of [extract_text_with_formatting] that returns has read the
    pages through PyMuPDF and returns their entries. *)
Lemma extract_text_with_formatting_ok
    (set_order : list string -> list string) (np_mean : list Q -> Q)
    (fitz : PyMuPDF)
    (pdf_path : string) (log log' : list event) (lines : list FormattedLine) :
  extract_text_with_formatting set_order np_mean fitz pdf_path log
    = (Ok lines, log') ->
  exists pages,
    reads fitz pdf_path log pages log' /\
    lines = entries set_order np_mean 0 pages.
Proof.
  unfold extract_text_with_formatting. unfold bind at 1.
  destruct (fitz_open fitz pdf_path log) as [[doc|e] log1] eqn:Hopen;
    [|discriminate].
  unfold bind at 1.
  destruct (len fitz doc log1) as [[n|e] log2] eqn:Hlen; [|discriminate].
  unfold bind at 1.
  destruct (format_pages set_order np_mean fitz doc (range n) [] log2)
    as [[ls|e] log3] eqn:Hloop; [|discriminate].
  unfold bind, ret.
  destruct (close fitz doc log3) as [[[]|e] log4] eqn:Hclose; [|discriminate].
  intros [= <- <-].
  apply (format_pages_ok _ _ _ _ n 0) in Hloop as (pages & Hn & Hdec & ->).
  exists pages. split; [|reflexivity].
  exists doc, log1, log2, log3. rewrite Hn. unfold range in Hdec.
  now repeat split.
Qed.

(** X12. What [extract_text_with_formatting] returns, whatever the
    document, the library and the order of set iteration: when it
    returns, every call into PyMuPDF has returned, and every entry has a
    text of at least 3 characters without whitespace at its ends, a page
    number between 1 and the number of pages, and the number of words of
    its text, at least 1, as its [line_count]; the page numbers of the
    entries never decrease. *)
Theorem extract_text_with_formatting_entries
    (set_order : list string -> list string) (np_mean : list Q -> Q)
    (fitz : PyMuPDF)
    (pdf_path : string) (log log' : list event) (lines : list FormattedLine) :
  extract_text_with_formatting set_order np_mean fitz pdf_path log
    = (Ok lines, log') ->
  exists pages,
    reads fitz pdf_path log pages log' /\
    StronglySorted Z.le (List.map page lines) /\
    forall item, In item lines ->
      3 <= Str.len (text item) /\
      Str.strip (text item) = text item /\
      (1 <= page item <= Z.of_nat (length pages))%Z /\
      line_count item = length (Str.split (text item)) /\
      1 <= line_count item.
Proof.
  intros Hrun.
  apply extract_text_with_formatting_ok in Hrun as (pages & Hreads & ->).
  exists pages. split; [exact Hreads|].
  split; [apply entries_sorted|].
  intros item Hin. pose proof (entries_page _ _ _ _ _ Hin) as Hpage.
  apply entries_entry in Hin as (k & pg & lines & line & _ & _ & _ & Hin).
  apply format_line_entry in Hin as (H1 & H2 & _ & H4 & H5 & _).
  repeat split; try easy; lia.
Qed.

Lemma extract_text_with_formatting_entries_witness :
  exists pages,
    reads fitz_decoded "hello.pdf" [] pages [] /\
    StronglySorted Z.le (List.map page entries_hello) /\
    forall item, In item entries_hello ->
      3 <= Str.len (text item) /\
      Str.strip (text item) = text item /\
      (1 <= page item <= Z.of_nat (length pages))%Z /\
      line_count item = length (Str.split (text item)) /\
      1 <= line_count item.
Proof.
  apply (extract_text_with_formatting_entries first_seen mean_of fitz_decoded
           "hello.pdf" [] [] entries_hello).
  vm_compute. reflexivity.
Defined.

(** *** The text of an entry *)

Lemma append_assoc (a b c : string) :
  ((a ++ b) ++ c)%string = (a ++ (b ++ c))%string.
Proof.
  induction a as [|x a IH]; [reflexivity|].
  rewrite !append_String. now f_equal.
Qed.

Lemma append_empty_r (a : string) : (a ++ EmptyString)%string = a.
Proof.
  induction a as [|x a IH]; [reflexivity|].
  rewrite append_String. now f_equal.
Qed.

Lemma first_char_append (a b : string) :
  Str.is_empty a = false -> first_char (a ++ b)%string = first_char a.
Proof. destruct a; [discriminate|reflexivity]. Qed.

Lemma last_char_append (a b : string) :
  Str.is_empty b = false -> last_char (a ++ b)%string = last_char b.
Proof.
  intros Hb. induction a as [|x a IH]; [reflexivity|].
  rewrite append_String. simpl.
  destruct (a ++ b)%string eqn:Hab; [|exact IH].
  destruct a, b; discriminate.
Qed.

Lemma rstrip_by_all (p : ascii -> bool) (w : string) :
  all_chars p w = true -> Str.rstrip_by p w = EmptyString.
Proof.
  induction w as [|c w IH]; simpl; [reflexivity|].
  intros H. apply andb_true_iff in H as [Hc Hw]. now rewrite (IH Hw), Hc.
Qed.

(** Characters of the class after a character outside it are stripped,
    and no more. *)
Lemma rstrip_by_append (p : ascii -> bool) (s w : string) (c : ascii) :
  last_char s = Some c -> p c = false -> all_chars p w = true ->
  Str.rstrip_by p (s ++ w)%string = s.
Proof.
  intros Hlast Hc Hw. induction s as [|x s IH]; [discriminate|].
  rewrite append_String. simpl. destruct s as [|y s].
  - simpl in Hlast. injection Hlast as ->.
    change (EmptyString ++ w)%string with w.
    now rewrite (rstrip_by_all p w Hw), Hc.
  - rewrite IH by exact Hlast. reflexivity.
Qed.

Lemma solid_strip (s : string) :
  Str.is_empty (Str.strip s) = false -> solid (Str.strip s).
Proof.
  intros Hne. split.
  - destruct (first_char (Str.strip s)) as [c|] eqn:Hc.
    + exists c. split; [reflexivity|]. now apply (strip_first s).
    + destruct (Str.strip s); discriminate.
  - destruct (last_char (Str.strip s)) as [c|] eqn:Hc.
    + exists c. split; [reflexivity|]. now apply (strip_last s).
    + exfalso. revert Hne Hc. generalize (Str.strip s).
      induction s0 as [|x t IH]; [discriminate|]. simpl.
      destruct t; [discriminate|]. intros _. now apply IH.
Qed.

Lemma solid_nonempty (t : string) : solid t -> Str.is_empty t = false.
Proof. intros [(c & Hc & _) _]. now destruct t. Qed.

Lemma solid_join (w : string) (ws : list string) :
  Forall solid (w :: ws) -> solid (Str.join " " (w :: ws)).
Proof.
  revert w. induction ws as [|w' ws IH]; intros w Hall.
  - now apply Forall_inv in Hall.
  - change (Str.join " " (w :: w' :: ws))
      with (w ++ " " ++ Str.join " " (w' :: ws))%string.
    pose proof (Forall_inv Hall) as Hw.
    apply Forall_inv_tail in Hall. specialize (IH w' Hall).
    split.
    + rewrite first_char_append by now apply solid_nonempty. apply Hw.
    + rewrite last_char_append by reflexivity.
      rewrite last_char_append by now apply solid_nonempty. apply IH.
Qed.

(** The text accumulated over the spans of a line. *)
Lemma accumulated_text (l : list Span) (acc : string) :
  fold_left (fun acc span => acc ++ (Str.strip (span_text span) ++ " "))%string
    l acc =
  (acc ++ match l with
          | [] => EmptyString
          | _ :: _ =>
              Str.join " " (List.map (fun span => Str.strip (span_text span)) l)
              ++ " "
          end)%string.
Proof.
  revert acc. induction l as [|x l IH]; intros acc; simpl fold_left.
  - now rewrite append_empty_r.
  - rewrite IH, append_assoc. f_equal. destruct l as [|y l].
    + now rewrite append_empty_r.
    + change (Str.join " " (List.map _ (x :: y :: l)))
        with (Str.strip (span_text x) ++ " " ++
              Str.join " " (List.map (fun span => Str.strip (span_text span))
                              (y :: l)))%string.
      now rewrite !append_assoc.
Qed.

Lemma contributing_solid (line : TextLine) : Forall solid (span_texts line).
Proof.
  unfold span_texts, contributing. apply List.Forall_forall. intros t Ht.
  apply in_map_iff in Ht as (span & <- & Hspan).
  apply List.filter_In in Hspan as [_ Hne].
  apply solid_strip. now apply negb_true_iff in Hne.
Qed.

(** The text of the entry of a line: the texts of its spans that are not
    blank, stripped and joined by single spaces. *)
Lemma format_line_text (set_order : list string -> list string)
    (np_mean : list Q -> Q)
    (page_num : Z) (line : TextLine) (item : FormattedLine) :
  In item (format_line set_order np_mean page_num line) ->
  text item = Str.join " " (span_texts line) /\ span_texts line <> [].
Proof.
  unfold format_line. rewrite accumulated_text.
  change (EmptyString ++ ?x)%string with x.
  pose proof (contributing_solid line) as Hsolid. unfold span_texts in *.
  destruct (contributing line) as [|span l] eqn:Hused.
  - simpl. intros [].
  - set (ts := List.map _ (span :: l)) in *.
    assert (Hj : solid (Str.join " " ts)) by now apply solid_join.
    assert (Hstrip : Str.strip (Str.join " " ts ++ " ") = Str.join " " ts).
    { destruct Hj as [(c & Hc & Hcs) (d & Hd & Hds)].
      unfold Str.strip, Str.strip_by. rewrite lstrip_by_fixed.
      - now apply rstrip_by_append with d.
      - intros c'. rewrite first_char_append by
          (destruct (Str.join " " ts); [discriminate|reflexivity]).
        rewrite Hc. now intros [= <-]. }
    rewrite Hstrip.
    destruct (negb (Str.is_empty (Str.join " " ts)) && _); [|intros []].
    intros [<-|[]]. simpl. split; [reflexivity|discriminate].
Qed.

(** *** The size, the weight and the font of an entry *)

(** [flag & 2**4] is not zero exactly when bit 4 of [flag] is set. *)
Lemma flag_bit_4 (flag : Z) :
  negb (Z.land flag (2 ^ 4) =? 0)%Z = Z.testbit flag 4.
Proof.
  destruct (Z.testbit flag 4) eqn:Hbit.
  - apply negb_true_iff, Z.eqb_neq. intros H0.
    assert (Hb : Z.testbit (Z.land flag (2 ^ 4)) 4 = true).
    { rewrite Z.land_spec, Hbit, Z.pow2_bits_eqb by lia. reflexivity. }
    rewrite H0 in Hb. now rewrite Z.bits_0 in Hb.
  - apply negb_false_iff, Z.eqb_eq, Z.bits_inj'. intros n Hn.
    rewrite Z.land_spec, Z.bits_0, Z.pow2_bits_eqb by lia.
    destruct (Z.eqb_spec 4 n) as [<-|_]; [now rewrite Hbit|].
    apply andb_false_r.
Qed.

Lemma format_line_format (set_order : list string -> list string)
    (np_mean : list Q -> Q)
    (page_num : Z) (line : TextLine) (item : FormattedLine) :
  In item (format_line set_order np_mean page_num line) ->
  size item = np_mean (List.map span_size (contributing line)) /\
  (is_bold item = true <->
   exists span, In span (contributing line) /\
                Z.testbit (span_flags span) 4 = true).
Proof.
  intros Hin. destruct (format_line_text _ _ _ _ _ Hin) as [_ Hne].
  unfold span_texts in Hne. revert Hin. unfold format_line.
  destruct (negb _ && _); [|intros []]. intros [<-|[]].
  cbn [is_bold size]. split.
  - destruct (List.map span_size (contributing line)) as [|x l] eqn:Hsizes;
      [|reflexivity].
    apply map_eq_nil in Hsizes. rewrite Hsizes in Hne. easy.
  - rewrite existsb_exists. split.
    + intros (flag & Hflag & Hbit). apply in_map_iff in Hflag as (span & <- & Hs).
      exists span. split; [exact Hs|]. now rewrite <- flag_bit_4.
    + intros (span & Hs & Hbit). exists (span_flags span).
      split; [now apply in_map|]. now rewrite flag_bit_4.
Qed.

Lemma count_pos (x : string) (l : list string) : In x l -> 1 <= count x l.
Proof.
  unfold count. induction l as [|y l IH]; simpl; [easy|].
  destruct (String.eqb_spec x y) as [->|Hne]; simpl; [lia|].
  intros [->|Hin]; [easy|now apply IH].
Qed.

Lemma format_line_font (set_order : list string -> list string)
    (np_mean : list Q -> Q)
    (page_num : Z) (line : TextLine) (item : FormattedLine) :
  (forall l x, In x (set_order l) <-> In x l) ->
  In item (format_line set_order np_mean page_num line) ->
  let fonts := List.map span_font (contributing line) in
  In (font item) fonts /\
  forall f, count f fonts <= count (font item) fonts.
Proof.
  intros Horder Hin. destruct (format_line_text _ _ _ _ _ Hin) as [_ Hne].
  unfold span_texts in Hne. revert Hin. unfold format_line.
  destruct (negb _ && _); [|intros []]. intros [<-|[]]. simpl.
  destruct (List.map span_font (contributing line)) as [|f0 fs] eqn:Hfonts.
  { apply map_eq_nil in Hfonts. rewrite Hfonts in Hne. easy. }
  destruct (set_order (f0 :: fs)) as [|g gs] eqn:Hset.
  { exfalso. pose proof (proj2 (Horder (f0 :: fs) f0) (or_introl eq_refl)) as H.
    rewrite Hset in H. destruct H. }
  pose proof (max_by_in (fun f => count f (f0 :: fs)) g gs) as Hmem.
  rewrite <- Hset in Hmem. apply (proj1 (Horder _ _)) in Hmem.
  split; [exact Hmem|]. intros f.
  destruct (in_dec string_dec f (f0 :: fs)) as [Hf|Hf].
  - apply (proj2 (Horder _ _)) in Hf. rewrite Hset in Hf.
    apply (max_by_ge (fun f => count f (f0 :: fs)) g gs f Hf).
  - pose proof (count_pos _ _ Hmem).
    assert (H0 : count f (f0 :: fs) = 0).
    { unfold count. clear -Hf. induction (f0 :: fs) as [|y l IH]; [reflexivity|].
      simpl. destruct (String.eqb_spec f y) as [->|Hne].
      - exfalso. apply Hf. now left.
      - apply IH. intros Hin. apply Hf. now right. }
    lia.
Qed.

Lemma first_seen_in (l : list string) (x : string) :
  In x (first_seen l) <-> In x l.
Proof.
  induction l as [|y l IH]; simpl; [easy|]. rewrite List.filter_In, IH.
  destruct (String.eqb_spec y x) as [->|Hne]; simpl; [tauto|].
  split; [tauto|]. intros [H|H]; [tauto|]. right. now split.
Qed.

(** X13. Every entry that [extract_text_with_formatting] returns is made
    of one line of a block of a page that PyMuPDF has handed over: its
    page number is the position of the page, counted from 1, its box is
    the box of the line, and its text is the texts of the spans of the
    line that are not blank, each stripped, joined by single spaces. *)
Theorem extract_text_with_formatting_text
    (set_order : list string -> list string) (np_mean : list Q -> Q)
    (fitz : PyMuPDF)
    (pdf_path : string) (log log' : list event) (lines : list FormattedLine)
    (item : FormattedLine) :
  extract_text_with_formatting set_order np_mean fitz pdf_path log
    = (Ok lines, log') ->
  In item lines ->
  exists (pages : list Page) (k : nat) (page_k : Page)
         (block : list TextLine) (line : TextLine),
    reads fitz pdf_path log pages log' /\
    pages !! k = Some page_k /\ In (Some block) page_k /\ In line block /\
    page item = Z.of_nat (k + 1) /\
    bbox item = line_bbox line /\
    span_texts line <> [] /\
    text item = Str.join " " (span_texts line).
Proof.
  intros Hrun Hin.
  apply extract_text_with_formatting_ok in Hrun as (pages & Hreads & ->).
  apply entries_entry in Hin as (k & pg & block & line & Hk & Hb & Hl & Hin).
  exists pages, k, pg, block, line.
  destruct (format_line_entry _ _ _ _ _ Hin) as (_ & _ & Hpage & _ & _ & Hbox).
  destruct (format_line_text _ _ _ _ _ Hin) as [Htext Hne].
  repeat split; try easy. lia.
Qed.

Lemma extract_text_with_formatting_text_witness :
  exists (pages : list Page) (k : nat) (page_k : Page)
         (block : list TextLine) (line : TextLine),
    reads fitz_decoded "hello.pdf" [] pages [] /\
    pages !! k = Some page_k /\ In (Some block) page_k /\ In line block /\
    page entry_hello = Z.of_nat (k + 1) /\
    bbox entry_hello = line_bbox line /\
    span_texts line <> [] /\
    text entry_hello = Str.join " " (span_texts line).
Proof.
  apply (extract_text_with_formatting_text first_seen mean_of fitz_decoded
           "hello.pdf" [] [] entries_hello).
  - vm_compute. reflexivity.
  - now left.
Defined.

(** X14. The entry of a line is bold exactly when one of the spans of
    the line that are not blank has bit 4 of its flags set, and its size
    is what [np.mean] gives for the sizes of these spans, of which there
    is at least one: a blank span adds nothing to either, and the size 12
    of a line without sizes is never used. *)
Theorem extract_text_with_formatting_format
    (set_order : list string -> list string) (np_mean : list Q -> Q)
    (fitz : PyMuPDF)
    (pdf_path : string) (log log' : list event) (lines : list FormattedLine)
    (item : FormattedLine) :
  extract_text_with_formatting set_order np_mean fitz pdf_path log
    = (Ok lines, log') ->
  In item lines ->
  exists (pages : list Page) (k : nat) (page_k : Page)
         (block : list TextLine) (line : TextLine),
    reads fitz pdf_path log pages log' /\
    pages !! k = Some page_k /\ In (Some block) page_k /\ In line block /\
    text item = Str.join " " (span_texts line) /\
    contributing line <> [] /\
    size item = np_mean (List.map span_size (contributing line)) /\
    (is_bold item = true <->
     exists span, In span (contributing line) /\
                  Z.testbit (span_flags span) 4 = true).
Proof.
  intros Hrun Hin.
  apply extract_text_with_formatting_ok in Hrun as (pages & Hreads & ->).
  apply entries_entry in Hin as (k & pg & block & line & Hk & Hb & Hl & Hin).
  exists pages, k, pg, block, line.
  destruct (format_line_text _ _ _ _ _ Hin) as [Htext Hne].
  destruct (format_line_format _ _ _ _ _ Hin) as [Hsize Hbold].
  assert (Hused : contributing line <> []).
  { intros H0. apply Hne. unfold span_texts. now rewrite H0. }
  exact (conj Hreads (conj Hk (conj Hb (conj Hl (conj Htext
           (conj Hused (conj Hsize Hbold))))))).
Qed.

Lemma extract_text_with_formatting_format_witness :
  exists (pages : list Page) (k : nat) (page_k : Page)
         (block : list TextLine) (line : TextLine),
    reads fitz_decoded "hello.pdf" [] pages [] /\
    pages !! k = Some page_k /\ In (Some block) page_k /\ In line block /\
    text entry_hello = Str.join " " (span_texts line) /\
    contributing line <> [] /\
    size entry_hello = mean_of (List.map span_size (contributing line)) /\
    (is_bold entry_hello = true <->
     exists span, In span (contributing line) /\
                  Z.testbit (span_flags span) 4 = true).
Proof.
  apply (extract_text_with_formatting_format first_seen mean_of fitz_decoded
           "hello.pdf" [] [] entries_hello).
  - vm_compute. reflexivity.
  - now left.
Defined.

(** X15. Whatever the order in which the set of the fonts is iterated,
    the font of an entry is the font of one of the spans of its line that
    are not blank, and no font is the font of more of these spans. *)
Theorem extract_text_with_formatting_font
    (set_order : list string -> list string) (np_mean : list Q -> Q)
    (fitz : PyMuPDF)
    (pdf_path : string) (log log' : list event) (lines : list FormattedLine)
    (item : FormattedLine) :
  (forall l x, In x (set_order l) <-> In x l) ->
  extract_text_with_formatting set_order np_mean fitz pdf_path log
    = (Ok lines, log') ->
  In item lines ->
  exists (pages : list Page) (k : nat) (page_k : Page)
         (block : list TextLine) (line : TextLine),
    reads fitz pdf_path log pages log' /\
    pages !! k = Some page_k /\ In (Some block) page_k /\ In line block /\
    text item = Str.join " " (span_texts line) /\
    In (font item) (List.map span_font (contributing line)) /\
    forall f, count f (List.map span_font (contributing line))
              <= count (font item) (List.map span_font (contributing line)).
Proof.
  intros Horder Hrun Hin.
  apply extract_text_with_formatting_ok in Hrun as (pages & Hreads & ->).
  apply entries_entry in Hin as (k & pg & block & line & Hk & Hb & Hl & Hin).
  exists pages, k, pg, block, line.
  destruct (format_line_text _ _ _ _ _ Hin) as [Htext _].
  destruct (format_line_font _ _ _ _ _ Horder Hin) as [Hfont Hmax].
  now repeat split.
Qed.

Lemma extract_text_with_formatting_font_witness :
  exists (pages : list Page) (k : nat) (page_k : Page)
         (block : list TextLine) (line : TextLine),
    reads fitz_decoded "hello.pdf" [] pages [] /\
    pages !! k = Some page_k /\ In (Some block) page_k /\ In line block /\
    text entry_hello = Str.join " " (span_texts line) /\
    In (font entry_hello) (List.map span_font (contributing line)) /\
    forall f, count f (List.map span_font (contributing line))
              <= count (font entry_hello) (List.map span_font (contributing line)).
Proof.
  apply (extract_text_with_formatting_font first_seen mean_of fitz_decoded
           "hello.pdf" [] [] entries_hello).
  - apply first_seen_in.
  - vm_compute. reflexivity.
  - now left.
Defined.

(** * Properties of the driver *)

(** ** The name of the output file *)

Lemma endswith_append (p a : string) : Str.endswith p (a ++ p)%string = true.
Proof.
  induction a as [|c a IH].
  - destruct p; simpl; [reflexivity|]. now rewrite Ascii.eqb_refl, String.eqb_refl.
  - rewrite append_String. simpl. rewrite IH. apply orb_true_r.
Qed.

Lemma lower_append (a b : string) :
  Str.lower (a ++ b)%string = (Str.lower a ++ Str.lower b)%string.
Proof.
  unfold Str.lower. induction a as [|c a IH]; [reflexivity|].
  rewrite append_String. simpl. rewrite IH. now rewrite append_String.
Qed.

(** An occurrence of [.pdf] that starts in [t] lies in [t]: the text
    [.pdf] does not overlap itself. *)
Lemma startswith_pdf_append (c : ascii) (t : string) :
  Str.startswith ".pdf" (String c t ++ ".pdf")%string
  = Str.startswith ".pdf" (String c t).
Proof.
  destruct t as [|c1 [|c2 [|c3 t]]]; rewrite !append_String;
    try change (EmptyString ++ ".pdf")%string with ".pdf";
    cbn -[Char.eqb]; rewrite ?andb_true_r, ?andb_false_r; try reflexivity.
  all: repeat match goal with
         | |- context [Char.eqb ?a ?b] =>
             lazymatch a with
             | Ascii _ _ _ _ _ _ _ _ =>
                 lazymatch b with
                 | Ascii _ _ _ _ _ _ _ _ =>
                     let v := eval vm_compute in (Char.eqb a b) in
                     change (Char.eqb a b) with v
                 end
             end
         end; rewrite ?andb_true_r, ?andb_false_r; reflexivity.
Qed.

Lemma startswith_len (p s : string) :
  Str.startswith p s = true -> Str.len p <= Str.len s.
Proof.
  revert s. induction p as [|a p IH]; intros s; simpl; [lia|].
  destruct s as [|b s]; [discriminate|]. intros H.
  apply andb_true_iff in H as [_ H]. apply IH in H. simpl. lia.
Qed.

Lemma replace_pdf_append (t : string) (k : nat) :
  k <= Str.len t ->
  Str.replace_from k ".pdf" ".json" (t ++ ".pdf")%string
  = (Str.replace_from k ".pdf" ".json" t ++ ".json")%string.
Proof.
  revert k. induction t as [|c t IH]; intros k Hk.
  - simpl in Hk. replace k with 0 by lia. vm_compute. reflexivity.
  - destruct k as [|k].
    + rewrite append_String.
      change (Str.replace_from 0 ".pdf" ".json" (String c (t ++ ".pdf")))
        with (if Str.startswith ".pdf" (String c (t ++ ".pdf"))
              then (".json" ++ Str.replace_from 3 ".pdf" ".json" (t ++ ".pdf"))
              else String c (Str.replace_from 0 ".pdf" ".json" (t ++ ".pdf")))%string.
      change (Str.replace_from 0 ".pdf" ".json" (String c t))
        with (if Str.startswith ".pdf" (String c t)
              then (".json" ++ Str.replace_from 3 ".pdf" ".json" t)
              else String c (Str.replace_from 0 ".pdf" ".json" t))%string.
      rewrite <- append_String, startswith_pdf_append.
      destruct (Str.startswith ".pdf" (String c t)) eqn:Hs.
      * apply startswith_len in Hs. simpl in Hs.
        rewrite IH by lia. now rewrite append_assoc.
      * rewrite IH by lia. now rewrite append_String.
    + rewrite append_String. simpl in *. apply IH. lia.
Qed.

Lemma replace_absent (old new s : string) :
  Str.contains old s = false -> Str.replace_from 0 old new s = s.
Proof.
  induction s as [|c s IH]; [reflexivity|].
  intros H. simpl in H. apply orb_false_iff in H as [Hs Hc].
  simpl Str.replace_from. destruct old as [|a old]; [discriminate|].
  rewrite Hs. now rewrite IH.
Qed.

(** X16. A file name that ends in [.pdf] is processed, and its output
    name is the output name of the stem followed by [.json]; when the
    stem holds no [.pdf], it is the stem followed by [.json]. *)
Theorem output_filename_pdf (stem : string) :
  is_pdf (stem ++ ".pdf") = true /\
  output_filename (stem ++ ".pdf") = (output_filename stem ++ ".json")%string /\
  Str.endswith ".json" (output_filename (stem ++ ".pdf")) = true /\
  (Str.contains ".pdf" stem = false ->
   output_filename (stem ++ ".pdf") = (stem ++ ".json")%string).
Proof.
  assert (Hout : output_filename (stem ++ ".pdf")
                 = (output_filename stem ++ ".json")%string).
  { unfold output_filename, Str.replace. simpl Str.is_empty. cbv iota.
    apply replace_pdf_append. lia. }
  split; [|split; [exact Hout|split]].
  - unfold is_pdf. rewrite lower_append. apply endswith_append.
  - rewrite Hout. apply endswith_append.
  - intros Habsent. rewrite Hout. f_equal.
    unfold output_filename, Str.replace. simpl Str.is_empty. cbv iota.
    now apply replace_absent.
Qed.

Lemma output_filename_pdf_witness :
  output_filename ("report" ++ ".pdf") = ("report" ++ ".json")%string.
Proof.
  apply (output_filename_pdf "report"). vm_compute. reflexivity.
Defined.

(** X17. A file name that passes the test of the driver but holds no
    [.pdf] in lower case, such as one with the extension in upper case,
    keeps its name: the outline is written to a file of the name of the
    PDF, in the output directory. *)
Theorem output_filename_unchanged (filename : string) :
  is_pdf filename = true ->
  Str.contains ".pdf" filename = false ->
  output_filename filename = filename /\
  output_path filename = path_join output_dir filename.
Proof.
  intros _ Habsent.
  assert (H : output_filename filename = filename).
  { unfold output_filename, Str.replace. simpl Str.is_empty. cbv iota.
    now apply replace_absent. }
  split; [exact H|]. unfold output_path. now rewrite H.
Qed.

Lemma output_filename_unchanged_witness :
  output_filename "REPORT.PDF" = "REPORT.PDF" /\
  output_path "REPORT.PDF" = path_join output_dir "REPORT.PDF".
Proof.
  apply output_filename_unchanged; vm_compute; reflexivity.
Defined.

(** ** The loop over the input directory *)

(** The extractor of the class returns a result whatever the source
    does. *)
Lemma run_returns (source : string -> M (list FormattedLine))
    (pdf_path : string) (log : list event) :
  exists result log', run source pdf_path log = (Ok result, log').
Proof.
  unfold run, extract_outline, try_except, bind, emit, ret. simpl.
  destruct (source pdf_path (log ++ [Invoked "extract_text_with_formatting"]))
    as [[[|item lines]|e] log1]; try (now eexists; eexists).
  destruct (classify_headings (item :: lines) _) as [[headings|e] log2];
    now eexists; eexists.
Qed.

Section Loop.
Variable json_dumps : Outline -> string.
Variable source : string -> M (list FormattedLine).

Lemma process_file_files (filename : string) (w : World) :
  exists w',
    process_file write_text_ok json_dumps (run source) filename w = (Ok tt, w') /\
    dom (files w') =
      (if is_pdf filename then {[ output_path filename ]} ∪ dom (files w)
       else dom (files w) : gset string).
Proof using Type.
  unfold process_file. destruct (is_pdf filename); [|now exists w].
  unfold io_bind, print, io_lift, emit. simpl.
  destruct (run_returns source (path_join input_dir filename)
              (stdout w ++ [Printed ("Processing " ++ filename ++ "...")]))
    as (result & log' & ->).
  simpl. eexists. split; [reflexivity|]. simpl.
  now rewrite dom_insert_L.
Qed.

Lemma process_files_files (filenames : list string) (w : World) :
  exists w',
    process_files write_text_ok json_dumps (run source) filenames w = (Ok tt, w') /\
    dom (files w') =
      (dom (files w) ∪
       list_to_set (List.map output_path (List.filter is_pdf filenames))
       : gset string).
Proof using Type.
  revert w. induction filenames as [|filename rest IH]; intros w.
  - exists w. split; [reflexivity|]. simpl. now rewrite union_empty_r_L.
  - destruct (process_file_files filename w) as (w1 & Hw1 & Hdom1).
    destruct (IH w1) as (w2 & Hw2 & Hdom2).
    exists w2. split.
    + simpl. unfold io_bind at 1. now rewrite Hw1.
    + rewrite Hdom2, Hdom1. simpl.
      destruct (is_pdf filename); simpl; [|reflexivity].
      rewrite (comm_L (∪) {[output_path filename]} (dom (files w))).
      now rewrite <- (assoc_L (∪)).
Qed.
End Loop.

(** X18. When the output directory can be made, the input directory can
    be listed and the writes succeed, [main] ends without raising,
    whatever happens in the extraction of any document, and the files
    it has written are the output paths of the listed names that pass
    the test for PDF files, and no others. *)
Theorem main_writes_the_outputs
    (makedirs : string -> IO unit) (listdir : string -> IO (list string))
    (json_dumps : Outline -> string)
    (source : string -> M (list FormattedLine))
    (w w1 w2 : World) (filenames : list string) :
  makedirs output_dir w = (Ok tt, w1) ->
  listdir input_dir w1 = (Ok filenames, w2) ->
  exists w',
    main makedirs listdir write_text_ok json_dumps (run source) w = (Ok tt, w') /\
    dom (files w') =
      (dom (files w2) ∪
       list_to_set (List.map output_path (List.filter is_pdf filenames))
       : gset string).
Proof.
  intros Hmk Hls.
  destruct (process_files_files json_dumps source filenames w2)
    as (w' & Hrun & Hdom).
  exists w'. split; [|exact Hdom].
  unfold main, io_bind. now rewrite Hmk, Hls.
Qed.

Lemma main_writes_the_outputs_witness :
  exists w',
    main makedirs_ok (listdir_of ["broken.pdf"; "notes.txt"; "REPORT.PDF"])
      write_text_ok title_only (run source_broken)
      {| stdout := []; files := ∅ |} = (Ok tt, w') /\
    dom (files w') =
      (dom (∅ : gmap string string) ∪
       list_to_set (List.map output_path
         (List.filter is_pdf ["broken.pdf"; "notes.txt"; "REPORT.PDF"]))
       : gset string).
Proof.
  apply (main_writes_the_outputs makedirs_ok
           (listdir_of ["broken.pdf"; "notes.txt"; "REPORT.PDF"])
           title_only source_broken
           {| stdout := []; files := ∅ |} {| stdout := []; files := ∅ |}
           {| stdout := []; files := ∅ |});
    reflexivity.
Defined.

(** * Further properties of the title and of the normalizer *)

Lemma max_by_Q_ge {A : Type} (key : A -> Q) (x : A) (l : list A) (y : A) :
  In y (x :: l) -> (key y <= key (max_by key Qltb x l))%Q.
Proof.
  revert x y.
  assert (Hstart : forall l x, (key x <= key (max_by key Qltb x l))%Q).
  { induction l0 as [|z l0 IH]; intros x0; simpl; [lra|].
    destruct (Qltb (key x0) (key z)) eqn:Hlt; [|apply IH].
    apply Qltb_lt in Hlt. specialize (IH z). lra. }
  induction l as [|z l IH]; intros x y.
  - intros [->|[]]. simpl. lra.
  - intros [->|Hin]; [apply Hstart|]. simpl.
    destruct (Qltb (key x) (key z)) eqn:Hlt.
    + now apply IH.
    + destruct Hin as [->|Hin].
      * apply Qltb_ge in Hlt. specialize (Hstart l x). lra.
      * apply IH. now right.
Qed.

(** X19. When the top-10 window of the sorted page-1 lines holds a title
    candidate, the title is the cleaned text of a candidate of the
    window that no candidate of the window exceeds in size. *)
Theorem identify_title_largest_candidate (lines : list FormattedLine)
    (witness : FormattedLine) :
  In witness (take 10 (first_page_sorted lines)) ->
  is_title_candidate witness = true ->
  exists item,
    In item (take 10 (first_page_sorted lines)) /\
    is_title_candidate item = true /\
    (forall other, In other (take 10 (first_page_sorted lines)) ->
                   is_title_candidate other = true ->
                   (size other <= size item)%Q) /\
    identify_title lines =
      Str.collapse (Re.sub_outside title_char (Str.strip (text item))).
Proof.
  intros Hin Hcand. unfold identify_title, first_page_sorted in *.
  destruct (List.filter (fun item => (page item =? 1)%Z) lines) as [|x l];
    [destruct Hin|].
  set (sorted := sort_by _ _ (x :: l)) in *.
  set (pair := fun item : FormattedLine => (Str.strip (text item), size item)).
  assert (Hall : forall item,
            In item (List.filter is_title_candidate (take 10 sorted)) <->
            In item (take 10 sorted) /\ is_title_candidate item = true)
    by (intros item; apply List.filter_In).
  destruct (List.map pair (List.filter is_title_candidate (take 10 sorted)))
    as [|c cs] eqn:Hcands.
  - exfalso. apply map_eq_nil in Hcands.
    pose proof (proj2 (Hall witness) (conj Hin Hcand)) as H.
    rewrite Hcands in H. destruct H.
  - cbv zeta.
    pose proof (max_by_member snd Qltb c cs) as Hmem. rewrite <- Hcands in Hmem.
    apply in_map_iff in Hmem as (item & Hitem & Hmem).
    apply Hall in Hmem as [Hwin Hc]. exists item.
    split; [exact Hwin|]. split; [exact Hc|]. split.
    + intros other Ho Hoc.
      assert (Hp : In (pair other) (c :: cs)).
      { rewrite <- Hcands. apply in_map. now apply Hall. }
      pose proof (max_by_Q_ge snd c cs (pair other) Hp) as Hle.
      rewrite <- Hitem in Hle. exact Hle.
    + now rewrite <- Hitem.
Qed.

Lemma identify_title_largest_candidate_witness :
  exists item,
    In item (take 10 (first_page_sorted doc_report)) /\
    is_title_candidate item = true /\
    (forall other, In other (take 10 (first_page_sorted doc_report)) ->
                   is_title_candidate other = true ->
                   (size other <= size item)%Q) /\
    identify_title doc_report =
      Str.collapse (Re.sub_outside title_char (Str.strip (text item))).
Proof.
  apply (identify_title_largest_candidate doc_report
           (line "Quarterly Report (2024)" 1 20 false 100)).
  - vm_compute. right. now left.
  - vm_compute. reflexivity.
Defined.

Lemma char_eqb_eq (a b : ascii) : Char.eqb a b = true -> a = b.
Proof.
  unfold Char.eqb, Char.code. intros H. apply N.eqb_eq in H.
  rewrite <- (ascii_N_embedding a), <- (ascii_N_embedding b). now rewrite H.
Qed.

Lemma single_spaced_weaken (b : bool) (s : string) :
  single_spaced_from b s = true -> single_spaced_from false s = true.
Proof.
  destruct s as [|c s]; [easy|]. simpl. destruct (Char.isspace c); [|easy].
  intros H. apply andb_true_iff in H as [H Hs].
  apply andb_true_iff in H as [Hc _]. now rewrite Hc, Hs.
Qed.

Lemma single_spaced_suffix (b : bool) (a s : string) :
  single_spaced_from b (a ++ s)%string = true -> single_spaced_from false s = true.
Proof.
  revert b. induction a as [|c a IH]; intros b.
  - apply single_spaced_weaken.
  - rewrite append_String. simpl. destruct (Char.isspace c).
    + intros H. apply andb_true_iff in H as [_ H]. now apply IH in H.
    + apply IH.
Qed.

Lemma single_spaced_prefix (b : bool) (a s : string) :
  single_spaced_from b (a ++ s)%string = true -> single_spaced_from b a = true.
Proof.
  revert b. induction a as [|c a IH]; intros b; [easy|].
  rewrite append_String. simpl. destruct (Char.isspace c).
  - intros H. apply andb_true_iff in H as [H1 H]. rewrite H1. now apply IH in H.
  - apply IH.
Qed.

Lemma single_spaced_word (b : bool) (w rest : string) :
  all_chars (fun c => negb (Char.isspace c)) w = true ->
  Str.is_empty w = false ->
  single_spaced_from b (w ++ rest)%string = single_spaced_from false rest.
Proof.
  revert b. induction w as [|c w IH]; intros b Hw Hne; [discriminate|].
  rewrite append_String. simpl in *. apply andb_true_iff in Hw as [Hc Hw].
  apply negb_true_iff in Hc. rewrite Hc.
  destruct w as [|d w]; [reflexivity|]. now apply IH.
Qed.

Lemma split_from_solid (cur s : string) :
  Forall (fun w => Str.is_empty w = false) (Str.split_from cur s).
Proof.
  revert cur. induction s as [|c s IH]; intros cur; simpl.
  - destruct (Str.is_empty cur) eqn:Hcur; [constructor|now repeat constructor].
  - destruct (Char.isspace c); [|apply IH].
    destruct (Str.is_empty cur) eqn:Hcur; [apply IH|].
    constructor; [exact Hcur|apply IH].
Qed.

Lemma single_spaced_join (b : bool) (words : list string) :
  Forall (fun w => all_chars (fun c => negb (Char.isspace c)) w = true) words ->
  Forall (fun w => Str.is_empty w = false) words ->
  single_spaced_from b (Str.join " " words) = true.
Proof.
  revert b. induction words as [|w words IH]; intros b Hw Hne; [reflexivity|].
  pose proof (Forall_inv Hw) as Hw1. pose proof (Forall_inv Hne) as Hne1.
  apply Forall_inv_tail in Hw. apply Forall_inv_tail in Hne.
  destruct words as [|w' words].
  - simpl. rewrite <- (append_empty_r w).
    now rewrite single_spaced_word.
  - change (Str.join " " (w :: w' :: words))
      with (w ++ " " ++ Str.join " " (w' :: words))%string.
    rewrite single_spaced_word by assumption.
    change (" " ++ ?x)%string with (String " "%char x).
    change (single_spaced_from false (String " " ?x))
      with (true && single_spaced_from true x).
    now apply IH.
Qed.

Lemma single_spaced_collapse (s : string) :
  single_spaced (Str.collapse s) = true.
Proof.
  unfold single_spaced, Str.collapse, Str.split. apply single_spaced_join.
  - apply split_from_words; [reflexivity|].
    clear. induction s as [|c s IH]; simpl; [reflexivity|].
    rewrite IH. now destruct (Char.isspace c).
  - apply split_from_solid.
Qed.

Lemma single_spaced_no_newline (b : bool) (s : string) :
  single_spaced_from b s = true -> Re.chop_newline s = None.
Proof.
  revert b. induction s as [|c s IH]; intros b; [reflexivity|].
  simpl. destruct s as [|d s].
  - destruct (Char.eqb c Char.newline) eqn:Hnl; [|reflexivity].
    apply char_eqb_eq in Hnl. subst c. vm_compute. destruct b; discriminate.
  - destruct (Char.isspace c).
    + intros H. apply andb_true_iff in H as [_ H]. now rewrite (IH _ H).
    + intros H. now rewrite (IH _ H).
Qed.

(** X20. The text that [clean_heading_text] returns is never longer than
    its input, and it holds no whitespace but single spaces: no tab, no
    newline, no two spaces in a row. *)
Theorem clean_heading_text_single_spaced (text : string) :
  single_spaced (clean_heading_text text) = true /\
  Str.len (clean_heading_text text) <= Str.len text.
Proof.
  unfold clean_heading_text.
  pose proof (single_spaced_collapse text) as Hc.
  pose proof (len_collapse text) as Hl.
  set (t := Str.collapse text) in *.
  assert (H2 : single_spaced
                 (if Re.match_ (Re.seq [Re.Plus Re.digit; Re.lit "."]) t then t
                  else Re.sub_run_at_end trailing_punctuation t) = true /\
               Str.len (if Re.match_ (Re.seq [Re.Plus Re.digit; Re.lit "."]) t
                        then t
                        else Re.sub_run_at_end trailing_punctuation t)
               <= Str.len t).
  { destruct (Re.match_ _ t); [split; [exact Hc|lia]|].
    unfold Re.sub_run_at_end. rewrite (single_spaced_no_newline _ _ Hc).
    split; [|apply len_rstrip_by].
    destruct (rstrip_by_split trailing_punctuation t) as (post & Hpost & _).
    unfold single_spaced in *. rewrite Hpost in Hc.
    now apply single_spaced_prefix in Hc. }
  destruct H2 as [Hs2 Hl2]. set (u := if Re.match_ _ t then _ else _) in *.
  unfold Str.strip_by. split.
  - destruct (lstrip_by_split quote_char u) as (pre & Hpre & _).
    destruct (rstrip_by_split quote_char (Str.lstrip_by quote_char u))
      as (post & Hpost & _).
    unfold single_spaced in *. rewrite Hpre in Hs2.
    apply single_spaced_suffix in Hs2. rewrite Hpost in Hs2.
    now apply single_spaced_prefix in Hs2.
  - pose proof (len_rstrip_by quote_char (Str.lstrip_by quote_char u)).
    pose proof (len_lstrip_by quote_char u). lia.
Qed.

(** * The patterns

    The matcher by derivatives decides the language of a pattern. *)

Lemma append_empty_inv (a b : string) :
  (a ++ b)%string = EmptyString -> a = EmptyString /\ b = EmptyString.
Proof.
  destruct a as [|c a].
  - intros H. change (EmptyString ++ b)%string with b in H. now subst.
  - rewrite append_String. discriminate.
Qed.

Lemma nullable_matches (r : Re.regex) :
  Re.nullable r = true <-> matches r EmptyString.
Proof.
  split.
  - induction r; simpl; intros H; try discriminate.
    + constructor.
    + apply andb_true_iff in H as [H1 H2].
      change EmptyString with (EmptyString ++ EmptyString)%string.
      constructor; auto.
    + apply orb_true_iff in H as [H|H];
        [apply matches_alt_l|apply matches_alt_r]; auto.
    + constructor.
  - intros H. remember EmptyString as s eqn:Hs.
    induction H; simpl; try reflexivity; try discriminate.
    + apply append_empty_inv in Hs as [-> ->].
      now rewrite IHmatches1, IHmatches2.
    + now rewrite IHmatches.
    + rewrite IHmatches by assumption. apply orb_true_r.
Qed.

Lemma matches_void_inv (s : string) : matches Re.Void s -> False.
Proof. inversion 1. Qed.

Lemma matches_eps_inv (s : string) : matches Re.Eps s -> s = EmptyString.
Proof. now inversion 1. Qed.

Lemma matches_cls_inv (p : ascii -> bool) (s : string) :
  matches (Re.Cls p) s -> exists c, s = String c EmptyString /\ p c = true.
Proof. inversion 1; subst. now eexists. Qed.

Lemma matches_seq_inv (r1 r2 : Re.regex) (s : string) :
  matches (Re.Seq r1 r2) s ->
  exists s1 s2, s = (s1 ++ s2)%string /\ matches r1 s1 /\ matches r2 s2.
Proof. inversion 1; subst. now eexists; eexists. Qed.

Lemma matches_alt_inv (r1 r2 : Re.regex) (s : string) :
  matches (Re.Alt r1 r2) s -> matches r1 s \/ matches r2 s.
Proof. inversion 1; subst; [now left|now right]. Qed.

Lemma deriv_matches (c : ascii) (r : Re.regex) (s : string) :
  matches (Re.deriv c r) s <-> matches r (String c s).
Proof.
  split.
  - revert s. induction r; simpl; intros s H.
    + now apply matches_void_inv in H.
    + now apply matches_void_inv in H.
    + destruct (p c) eqn:Hp; [|now apply matches_void_inv in H].
      apply matches_eps_inv in H as ->. now constructor.
    + assert (Hseq : matches (Re.Seq (Re.deriv c r1) r2) s ->
                     matches (Re.Seq r1 r2) (String c s)).
      { intros Hs. apply matches_seq_inv in Hs as (s1 & s2 & -> & H1 & H2).
        rewrite <- append_String. constructor; auto. }
      destruct (Re.nullable r1) eqn:Hn; [|now apply Hseq].
      apply matches_alt_inv in H as [H|H]; [now apply Hseq|].
      change (String c s) with (EmptyString ++ String c s)%string.
      constructor; [now apply nullable_matches|auto].
    + apply matches_alt_inv in H as [H|H];
        [apply matches_alt_l|apply matches_alt_r]; auto.
    + apply matches_seq_inv in H as (s1 & s2 & -> & H1 & H2).
      rewrite <- append_String. constructor; auto.
  - intros H. remember (String c s) as t eqn:Ht. revert c s Ht.
    induction H; intros c' s' Ht; simpl; try discriminate.
    + injection Ht as -> <-. rewrite H. constructor.
    + destruct s1 as [|a s1].
      * change (EmptyString ++ s2)%string with s2 in Ht. subst s2.
        apply nullable_matches in H. rewrite H.
        apply matches_alt_r. now apply IHmatches2.
      * rewrite append_String in Ht. injection Ht as -> <-.
        assert (Hs : matches (Re.Seq (Re.deriv c' r1) r2) (s1 ++ s2))
          by (constructor; [now apply IHmatches1|exact H0]).
        destruct (Re.nullable r1); [now apply matches_alt_l|exact Hs].
    + apply matches_alt_l. now apply IHmatches.
    + apply matches_alt_r. now apply IHmatches.
    + rewrite append_String in Ht. injection Ht as -> <-.
      constructor; [now apply IHmatches1|exact H0].
Qed.

Lemma fullmatch_matches (r : Re.regex) (s : string) :
  Re.fullmatch r s = true <-> matches r s.
Proof.
  revert r. induction s as [|c s IH]; intros r; simpl.
  - apply nullable_matches.
  - rewrite IH. apply deriv_matches.
Qed.

(** [re.match] finds a match exactly when a prefix of the string is in
    the language. *)
Lemma match_matches (r : Re.regex) (s : string) :
  Re.match_ r s = true <->
  exists p q, s = (p ++ q)%string /\ matches r p.
Proof.
  revert r. induction s as [|c s IH]; intros r; simpl.
  - rewrite orb_false_r, nullable_matches. split.
    + intros H. now exists EmptyString, EmptyString.
    + intros (p & q & Hs & H). symmetry in Hs.
      apply append_empty_inv in Hs as [-> _]. exact H.
  - rewrite orb_true_iff, IH, nullable_matches. split.
    + intros [H|(p & q & -> & H)].
      * now exists EmptyString, (String c s).
      * exists (String c p), q. split; [reflexivity|].
        now apply deriv_matches.
    + intros (p & q & Hs & H). destruct p as [|a p]; [now left|].
      rewrite append_String in Hs. injection Hs as <- ->.
      right. exists p, q. split; [reflexivity|]. now apply deriv_matches.
Qed.

Lemma match_end_matches (r : Re.regex) (s : string) :
  matches r s -> Re.match_end r s = true.
Proof.
  intros H. unfold Re.match_end. apply fullmatch_matches.
  rewrite <- (append_empty_r s). constructor; [exact H|].
  apply matches_alt_l. constructor.
Qed.

Lemma matches_star_class (p : ascii -> bool) (s : string) :
  all_chars p s = true <-> matches (Re.Star (Re.Cls p)) s.
Proof.
  split.
  - induction s as [|c s IH]; simpl; [constructor|].
    intros H. apply andb_true_iff in H as [Hc Hs].
    change (String c s) with (String c EmptyString ++ s)%string.
    constructor; [now constructor|now apply IH].
  - intros H. remember (Re.Star (Re.Cls p)) as r eqn:Hr.
    induction H; try discriminate; [reflexivity|].
    injection Hr as ->. apply matches_cls_inv in H as (d & Hd & Hp).
    injection Hd as -> ->. rewrite append_String. simpl.
    rewrite Hp. now apply IHmatches2.
Qed.

Lemma matches_plus_class (p : ascii -> bool) (s : string) :
  matches (Re.Plus (Re.Cls p)) s <->
  Str.is_empty s = false /\ all_chars p s = true.
Proof.
  unfold Re.Plus. split.
  - intros H. apply matches_seq_inv in H as (s1 & s2 & -> & H1 & H2).
    apply matches_cls_inv in H1 as (c & -> & Hc).
    apply matches_star_class in H2. rewrite append_String. simpl.
    now rewrite Hc.
  - destruct s as [|c s]; [now intros []|]. simpl. intros [_ H].
    apply andb_true_iff in H as [Hc Hs].
    change (String c s) with (String c EmptyString ++ s)%string.
    constructor; [now constructor|now apply matches_star_class].
Qed.

(** * Lines that are never headings, and numbered headings *)

Lemma rejected_by_pattern (t : string) :
  existsb (fun matches => matches t) skip_patterns = true -> rejected t = true.
Proof. intros H. unfold rejected. rewrite H. apply orb_true_r. Qed.

Lemma rejected_short (t : string) : Str.len t < 3 -> rejected t = true.
Proof.
  intros H. unfold rejected. apply Nat.ltb_lt in H. now rewrite H.
Qed.

(** X21. Whatever its size and weight, a line is not a heading when its
    stripped text is made of decimal digits only, or of characters that
    are neither word characters nor whitespace only, or of at most three
    word characters. *)
Theorem is_likely_heading_never (item : FormattedLine) (info : StructureInfo) :
  all_chars Char.isdecimal (Str.strip (text item)) = true \/
  all_chars (fun c => negb (Char.isword c || Char.isspace c))
    (Str.strip (text item)) = true \/
  (all_chars Char.isword (Str.strip (text item)) = true /\
   Str.len (Str.strip (text item)) <= 3) ->
  is_likely_heading item info = false.
Proof.
  intros H. unfold is_likely_heading.
  set (t := Str.strip (text item)) in *.
  enough (Hr : rejected t = true) by now rewrite Hr.
  destruct (Str.is_empty t) eqn:Hne.
  { apply rejected_short. destruct t; [simpl; lia|discriminate]. }
  apply rejected_by_pattern. unfold skip_patterns. cbn [existsb].
  destruct H as [H|[H|[H Hlen]]].
  - rewrite (match_end_matches (Re.Plus Re.digit) t); [reflexivity|].
    now apply matches_plus_class.
  - rewrite (match_end_matches
      (Re.Plus (Re.Cls (fun c => negb (Char.isword c || Char.isspace c)))) t).
    + now rewrite !orb_true_r.
    + now apply matches_plus_class.
  - rewrite (match_end_matches
      (Re.Seq Re.word (Re.Opt (Re.Seq Re.word (Re.Opt Re.word)))) t).
    + now rewrite !orb_true_r.
    + destruct t as [|c1 [|c2 [|c3 [|c4 t]]]]; simpl in *;
        try discriminate; try lia;
        repeat (apply andb_true_iff in H as [? H]).
      * change (String c1 EmptyString)
          with (String c1 EmptyString ++ EmptyString)%string.
        constructor; [now constructor|apply matches_alt_l; constructor].
      * change (String c1 (String c2 EmptyString))
          with (String c1 EmptyString ++
                (String c2 EmptyString ++ EmptyString))%string.
        constructor; [now constructor|]. apply matches_alt_r.
        constructor; [now constructor|apply matches_alt_l; constructor].
      * change (String c1 (String c2 (String c3 EmptyString)))
          with (String c1 EmptyString ++
                (String c2 EmptyString ++ String c3 EmptyString))%string.
        constructor; [now constructor|]. apply matches_alt_r.
        constructor; [now constructor|]. apply matches_alt_r. now constructor.
Qed.

Lemma is_likely_heading_never_witness :
  is_likely_heading (line "2024" 3 30 true 700) info_body_12 = false.
Proof.
  apply is_likely_heading_never. left. vm_compute. reflexivity.
Defined.

Lemma space_not_digit (c : ascii) :
  Char.isspace c = true -> Char.isdecimal c = false.
Proof.
  destruct c as [[] [] [] [] [] [] [] []]; vm_compute; intros H;
    try reflexivity; discriminate.
Qed.

(** Two runs of digits that end before a character that is no digit:
    the same text read in two ways is read in one way. *)
Lemma digits_aligned (a b : string) (x y : ascii) (u v : string) :
  all_chars Char.isdecimal a = true -> all_chars Char.isdecimal b = true ->
  Char.isdecimal x = false -> Char.isdecimal y = false ->
  (a ++ String x u)%string = (b ++ String y v)%string ->
  a = b /\ x = y /\ u = v.
Proof.
  revert b. induction a as [|c a IH]; intros [|d b] Ha Hb Hx Hy Heq.
  - now injection Heq as -> ->.
  - rewrite append_String in Heq. injection Heq as -> _. simpl in Hb.
    apply andb_true_iff in Hb as [Hd _]. congruence.
  - rewrite append_String in Heq. injection Heq as -> _. simpl in Ha.
    apply andb_true_iff in Ha as [Hc _]. congruence.
  - rewrite !append_String in Heq. injection Heq as -> Heq. simpl in Ha, Hb.
    apply andb_true_iff in Ha as [_ Ha]. apply andb_true_iff in Hb as [_ Hb].
    destruct (IH b Ha Hb Hx Hy Heq) as (-> & -> & ->). easy.
Qed.

Lemma matches_number (ds : string) : number ds <-> matches (Re.Plus Re.digit) ds.
Proof. unfold number, Re.digit. symmetry. apply matches_plus_class. Qed.

Lemma matches_dot (s : string) : matches (Re.lit ".") s <-> s = ".".
Proof.
  unfold Re.lit. split.
  - intros H. apply matches_cls_inv in H as (c & -> & Hc).
    apply char_eqb_eq in Hc. now subst.
  - intros ->. now constructor.
Qed.

Lemma matches_spaces (s : string) :
  matches (Re.Plus Re.space) s ->
  exists w s', s = String w s' /\ Char.isspace w = true.
Proof.
  unfold Re.space. intros H. apply matches_plus_class in H as [Hne H].
  destruct s as [|w s']; [discriminate|]. simpl in H.
  apply andb_true_iff in H as [Hw _]. now exists w, s'.
Qed.

Lemma matches_one_space (w : ascii) :
  Char.isspace w = true -> matches (Re.Plus Re.space) (String w EmptyString).
Proof. intros Hw. apply matches_plus_class. simpl. now rewrite Hw. Qed.

(** [N. ] at the start of a text. *)
Lemma pattern_N_matches (ds : string) (w : ascii) (rest : string) :
  number ds -> Char.isspace w = true ->
  Re.match_ pattern_N (ds ++ "." ++ String w rest) = true.
Proof.
  intros Hds Hw. apply match_matches.
  exists (ds ++ ("." ++ (String w EmptyString ++ EmptyString)))%string, rest.
  split; [now rewrite !append_assoc|].
  unfold pattern_N, Re.seq.
  constructor; [now apply matches_number|].
  constructor; [now apply matches_dot|].
  constructor; [now apply matches_one_space|constructor].
Qed.

Lemma pattern_N_N_matches (ds1 ds2 : string) (w : ascii) (rest : string) :
  number ds1 -> number ds2 -> Char.isspace w = true ->
  Re.match_ pattern_N_N (ds1 ++ "." ++ ds2 ++ String w rest) = true.
Proof.
  intros H1 H2 Hw. apply match_matches.
  exists (ds1 ++ ("." ++ (ds2 ++ (String w EmptyString ++ EmptyString))))%string,
    rest.
  split; [now rewrite !append_assoc|].
  unfold pattern_N_N, Re.seq.
  constructor; [now apply matches_number|].
  constructor; [now apply matches_dot|].
  constructor; [now apply matches_number|].
  constructor; [now apply matches_one_space|constructor].
Qed.

Lemma pattern_N_N_N_matches (ds1 ds2 ds3 : string) (w : ascii) (rest : string) :
  number ds1 -> number ds2 -> number ds3 -> Char.isspace w = true ->
  Re.match_ pattern_N_N_N (ds1 ++ "." ++ ds2 ++ "." ++ ds3 ++ String w rest)
  = true.
Proof.
  intros H1 H2 H3 Hw. apply match_matches.
  exists (ds1 ++ ("." ++ (ds2 ++ ("." ++
            (ds3 ++ (String w EmptyString ++ EmptyString))))))%string, rest.
  split; [now rewrite !append_assoc|].
  unfold pattern_N_N_N, Re.seq.
  constructor; [now apply matches_number|].
  constructor; [now apply matches_dot|].
  constructor; [now apply matches_number|].
  constructor; [now apply matches_dot|].
  constructor; [now apply matches_number|].
  constructor; [now apply matches_one_space|constructor].
Qed.

(** After [N.] comes a digit: the pattern [N. ] does not match. *)
Lemma pattern_N_fails (ds1 ds2 tail : string) :
  number ds1 -> number ds2 ->
  Re.match_ pattern_N (ds1 ++ "." ++ ds2 ++ tail) = false.
Proof.
  intros [_ H1] [Hne2 H2]. apply not_true_iff_false. intros Hm.
  apply match_matches in Hm as (p & q & Hs & Hp).
  unfold pattern_N, Re.seq in Hp.
  apply matches_seq_inv in Hp as (p1 & t1 & -> & Hp1 & Hp).
  apply matches_seq_inv in Hp as (p2 & t2 & -> & Hp2 & Hp).
  apply matches_seq_inv in Hp as (p3 & p4 & -> & Hp3 & _).
  apply matches_number in Hp1 as [_ Hp1]. apply matches_dot in Hp2 as ->.
  apply matches_spaces in Hp3 as (w & p3' & -> & Hw).
  destruct ds2 as [|d ds2]; [discriminate|].
  rewrite !append_assoc in Hs. rewrite !append_String in Hs.
  change (EmptyString ++ ?x)%string with x in Hs.
  symmetry in Hs.
  apply digits_aligned in Hs as (_ & _ & Hs); try easy.
  injection Hs as Hwd _. subst d.
  simpl in H2. apply andb_true_iff in H2 as [Hd _].
  apply space_not_digit in Hw. congruence.
Qed.

(** After [N.N] comes a period: the pattern [N.N ] does not match. *)
Lemma pattern_N_N_fails (ds1 ds2 tail : string) :
  number ds1 -> number ds2 ->
  Re.match_ pattern_N_N (ds1 ++ "." ++ ds2 ++ "." ++ tail) = false.
Proof.
  intros [_ H1] [_ H2]. apply not_true_iff_false. intros Hm.
  apply match_matches in Hm as (p & q & Hs & Hp).
  unfold pattern_N_N, Re.seq in Hp.
  apply matches_seq_inv in Hp as (p1 & t1 & -> & Hp1 & Hp).
  apply matches_seq_inv in Hp as (p2 & t2 & -> & Hp2 & Hp).
  apply matches_seq_inv in Hp as (p3 & t3 & -> & Hp3 & Hp).
  apply matches_seq_inv in Hp as (p4 & p5 & -> & Hp4 & _).
  apply matches_number in Hp1 as [_ Hp1]. apply matches_dot in Hp2 as ->.
  apply matches_number in Hp3 as [_ Hp3].
  apply matches_spaces in Hp4 as (w & p4' & -> & Hw).
  rewrite !append_assoc in Hs. rewrite !append_String in Hs.
  change (EmptyString ++ ?x)%string with x in Hs.
  symmetry in Hs.
  apply digits_aligned in Hs as (_ & _ & Hs); try easy.
  apply digits_aligned in Hs as (_ & Hdot & _); try easy.
  - now subst w.
  - now apply space_not_digit.
Qed.

(** X22. The number decides the level of a numbered heading, whatever
    its size: a stripped text that starts with a number, a period and
    whitespace is H1; with two numbers joined by a period and then
    whitespace, H2; with three, H3. *)
Theorem determine_heading_level_numbered (item : FormattedLine)
    (info : StructureInfo) (ds1 ds2 ds3 : string) (w : ascii) (rest : string) :
  number ds1 -> number ds2 -> number ds3 -> Char.isspace w = true ->
  (Str.strip (text item) = (ds1 ++ "." ++ String w rest)%string ->
   determine_heading_level item info = H1) /\
  (Str.strip (text item) = (ds1 ++ "." ++ ds2 ++ String w rest)%string ->
   determine_heading_level item info = H2) /\
  (Str.strip (text item)
     = (ds1 ++ "." ++ ds2 ++ "." ++ ds3 ++ String w rest)%string ->
   determine_heading_level item info = H3).
Proof.
  intros Hd1 Hd2 Hd3 Hw. unfold determine_heading_level.
  fold pattern_N pattern_N_N pattern_N_N_N.
  split; [|split]; intros ->.
  - now rewrite pattern_N_matches.
  - now rewrite pattern_N_fails, pattern_N_N_matches.
  - rewrite pattern_N_fails by assumption.
    now rewrite pattern_N_N_fails, pattern_N_N_N_matches.
Qed.

Lemma determine_heading_level_numbered_witness :
  determine_heading_level (line "2.3.1 Sampling" 4 30 true 300) info_body_12
  = H3.
Proof.
  apply (determine_heading_level_numbered
           (line "2.3.1 Sampling" 4 30 true 300) info_body_12
           "2" "3" "1" " "%char "Sampling");
    try (split; reflexivity); reflexivity.
Defined.

(** * The tie-break of the body text size *)

Lemma counter_add_keys (x : Q) (c : list (Q * nat)) :
  List.map fst (counter_add x c) =
  List.map fst c ++
  (if existsb (fun k => Qeq_bool k x) (List.map fst c) then [] else [x]).
Proof.
  induction c as [|[k n] c IH]; simpl; [reflexivity|].
  destruct (Qeq_bool k x); simpl.
  - now rewrite app_nil_r.
  - now rewrite IH.
Qed.

Lemma existsb_filter_other (x y : Q) (l : list Q) :
  Qeq_bool y x = false ->
  existsb (fun k => Qeq_bool k x)
    (List.filter (fun z => negb (Qeq_bool y z)) l)
  = existsb (fun k => Qeq_bool k x) l.
Proof.
  intros Hyx. induction l as [|z l IH]; simpl; [reflexivity|].
  destruct (Qeq_bool y z) eqn:Hyz; simpl; [|now rewrite IH].
  rewrite IH. destruct (Qeq_bool z x) eqn:Hzx; [|reflexivity].
  apply Qeq_bool_iff in Hyz, Hzx.
  assert (H : Qeq_bool y x = true) by (apply Qeq_bool_iff; now rewrite Hyz).
  congruence.
Qed.

Lemma distinct_snoc (l : list Q) (x : Q) :
  distinct (l ++ [x]) =
  distinct l ++
  (if existsb (fun k => Qeq_bool k x) (distinct l) then [] else [x]).
Proof.
  induction l as [|y l IH]; [reflexivity|].
  simpl. rewrite IH, List.filter_app. f_equal. f_equal.
  destruct (Qeq_bool y x) eqn:Hyx; simpl.
  - destruct (existsb _ (distinct l)); simpl; [reflexivity|].
    now rewrite Hyx.
  - rewrite (existsb_filter_other x y (distinct l) Hyx).
    destruct (existsb _ (distinct l)); simpl; [reflexivity|].
    now rewrite Hyx.
Qed.

(** The keys of the counter are the sizes in the order of their first
    appearance. *)
Lemma Counter_keys (l : list Q) : List.map fst (Counter l) = distinct l.
Proof.
  unfold Counter. induction l as [|x l IH] using rev_ind; [reflexivity|].
  rewrite fold_left_app. simpl.
  now rewrite counter_add_keys, IH, distinct_snoc.
Qed.

(** [max] returns the first of the largest: what stands before it is
    smaller. *)
Lemma max_by_first {A : Type} (key : A -> nat) (x : A) (l : list A) :
  exists before after,
    x :: l = before ++ max_by key Nat.ltb x l :: after /\
    forall y, In y before -> key y < key (max_by key Nat.ltb x l).
Proof.
  revert x. induction l as [|y l IH]; intros x; simpl.
  - exists [], []. split; [reflexivity|]. intros ? [].
  - destruct (Nat.ltb_spec (key x) (key y)) as [Hlt|Hge].
    + destruct (IH y) as (before & after & Heq & Hb).
      exists (x :: before), after. split; [simpl; congruence|].
      intros z [<-|Hz]; [|now apply Hb].
      pose proof (max_by_start key y l). lia.
    + destruct (IH x) as (before & after & Heq & Hb).
      destruct before as [|x' before].
      * injection Heq as Hx Hl. exists [], (y :: l).
        split; [simpl; congruence|]. intros ? [].
      * injection Heq as <- Hl.
        exists (x :: y :: before), after. split; [simpl; congruence|].
        pose proof (Hb x (or_introl eq_refl)) as Hx.
        intros z [<-|[<-|Hz]]; [exact Hx|lia|]. apply Hb. now right.
Qed.

(** X23. Among the sizes that occur most often, the body text size is
    the one that appears first in the document: every size whose first
    appearance comes before that of the body text size occurs strictly
    less often. *)
Theorem analyze_document_structure_first_mode (lines : list FormattedLine)
    (info : StructureInfo) :
  analyze_document_structure lines = Ok info ->
  exists earlier later,
    distinct (List.map size lines) = earlier ++ body_text_size info :: later /\
    forall x, In x earlier ->
      occurrences x (List.map size lines)
      < occurrences (body_text_size info) (List.map size lines).
Proof.
  unfold analyze_document_structure.
  set (sizes := List.map size lines).
  destruct (Counter_counts sizes) as (Hc1 & _ & _).
  pose proof (Counter_keys sizes) as Hkeys.
  unfold most_common_1. destruct (Counter sizes) as [|e c] eqn:Hc;
    [discriminate|].
  destruct (max_by snd Nat.ltb e c) as [b n] eqn:Hmax. intros [= <-]. simpl.
  destruct (max_by_first snd e c) as (before & after & Heq & Hb).
  rewrite Hmax in Heq, Hb.
  exists (List.map fst before), (List.map fst after). split.
  - rewrite <- Hkeys, Heq, List.map_app. reflexivity.
  - intros x Hx. apply in_map_iff in Hx as ([k m] & <- & Hin).
    pose proof (Hb _ Hin) as Hlt. simpl in *.
    assert (Hk : In (k, m) (e :: c)) by (rewrite Heq; apply in_or_app; now left).
    assert (Hbn : In (b, n) (e :: c))
      by (rewrite Heq; apply in_or_app; right; now left).
    destruct (Hc1 k m Hk) as [_ ->]. destruct (Hc1 b n Hbn) as [_ ->].
    exact Hlt.
Qed.

Lemma analyze_document_structure_first_mode_witness :
  exists earlier later,
    distinct (List.map size doc_tie) = earlier ++ 12%Q :: later /\
    forall x, In x earlier ->
      occurrences x (List.map size doc_tie)
      < occurrences 12%Q (List.map size doc_tie).
Proof.
  apply (analyze_document_structure_first_mode doc_tie
           {| body_text_size := 12;
              size_thresholds := thresholds_of 12;
              all_sizes := [18%Q; 12%Q] |}).
  vm_compute. reflexivity.
Defined.
